(** * Product page: transformers, product service and request lifecycle

    A shallow embedding of the product-page application:
      - [utils/transformers]        (transformPrice, transformProductResponse)
      - [services/api]              (DEFAULT_CONFIG, response interceptor)
      - [services/productService]   (handleApiError, validateResponse,
                                     getProductById, getProducts)
      - [components/ProductPage]    (fetchProduct, safeSetState, the retry
                                     effect, renderErrorState)
    together with the fragment of JavaScript the code relies on: UTF-16
    strings, binary64 numbers with their rounding, ordinary objects with
    own properties in insertion order and a prototype link. *)

From Stdlib Require Import String Ascii ZArith List Bool Lia Permutation.
Import ListNotations.
Open Scope Z_scope.

(* ================================================================== *)
(** ** JavaScript strings: sequences of UTF-16 code units *)

Module JS.

Definition jsstring : Type := list N.

(** An ASCII literal as a JavaScript string. *)
Fixpoint js (s : string) : jsstring :=
  match s with
  | EmptyString => []
  | String c r => N_of_ascii c :: js r
  end.
Arguments js s%_string.

Fixpoint str_eqb (a b : jsstring) : bool :=
  match a, b with
  | [], [] => true
  | x :: a', y :: b' => N.eqb x y && str_eqb a' b'
  | _, _ => false
  end.

Definition isDigit (c : N) : bool := (N.leb 48 c && N.leb c 57)%N.

(** The class [\s] of regular expressions, which is also what
    [String.prototype.trim] strips: WhiteSpace and LineTerminator. *)
Definition isWhiteSpace (c : N) : bool :=
  (N.leb 9 c && N.leb c 13
   || N.eqb c 32 || N.eqb c 160 || N.eqb c 5760
   || N.leb 8192 c && N.leb c 8202
   || N.eqb c 8232 || N.eqb c 8233 || N.eqb c 8239 || N.eqb c 8287
   || N.eqb c 12288 || N.eqb c 65279)%N.

Fixpoint trimStart (s : jsstring) : jsstring :=
  match s with
  | c :: r => if isWhiteSpace c then trimStart r else s
  | [] => []
  end.

Definition trim (s : jsstring) : jsstring :=
  rev (trimStart (rev (trimStart s))).

(* ------------------------------------------------------------------ *)
(** ** Numbers: IEEE 754 binary64

    A finite number is kept as the dyadic rational [m * 2^e]; every
    arithmetic operation computes its exact result and rounds it to the
    nearest binary64 value, ties to even ([round64]). *)

Inductive number : Type :=
| NaN
| Infinity (negative : bool)
| NegZero
| Finite (m e : Z).

Definition isNaN (x : number) : bool :=
  match x with NaN => true | _ => false end.

Definition isNegative (x : number) : bool :=
  match x with
  | Infinity b => b
  | NegZero => true
  | Finite m _ => m <? 0
  | NaN => false
  end.

Definition isZero (x : number) : bool :=
  match x with
  | NegZero => true
  | Finite m _ => m =? 0
  | _ => false
  end.

Definition zero (negative : bool) : number :=
  if negative then NegZero else Finite 0 0.

(** Nearest integer to [n / d] (for [0 <= n], [0 < d]), ties to even. *)
Definition div_half_even (n d : Z) : Z :=
  let q := n / d in
  match 2 * (n mod d) ?= d with
  | Lt => q
  | Gt => q + 1
  | Eq => if Z.even q then q else q + 1
  end.

(** [2^l <= p / q], for positive [p] and [q]. *)
Definition ratio_ge_pow2 (p q l : Z) : bool :=
  if 0 <=? l then q * 2 ^ l <=? p else q <=? p * 2 ^ (- l).

(** [floor (log2 (p / q))], for positive [p] and [q]. *)
Definition ratio_log2 (p q : Z) : Z :=
  let l := Z.log2 p - Z.log2 q in
  if ratio_ge_pow2 p q l then l else l - 1.

(** The binary64 value nearest to [p / q] with the given sign
    ([0 <= p], [0 < q]): 53 significant bits, least exponent -1074,
    overflow to infinity from [2^1024]. *)
Definition round64 (negative : bool) (p q : Z) : number :=
  if p =? 0 then zero negative
  else
    let E := Z.max (ratio_log2 p q - 52) (-1074) in
    let m := if 0 <=? E then div_half_even p (q * 2 ^ E)
             else div_half_even (p * 2 ^ (- E)) q in
    if (971 <? E) || ((E =? 971) && (2 ^ 53 <=? m)) then Infinity negative
    else if m =? 0 then zero negative
    else Finite (if negative then - m else m) E.

(** Mantissa and exponent of a finite number or zero. *)
Definition dyadic (x : number) : Z * Z :=
  match x with
  | Finite m e => (m, e)
  | _ => (0, 0)
  end.

Definition isFinite (x : number) : bool :=
  match x with
  | NegZero | Finite _ _ => true
  | _ => false
  end.

(** [x * y] *)
Definition mul (x y : number) : number :=
  let s := xorb (isNegative x) (isNegative y) in
  match x, y with
  | NaN, _ | _, NaN => NaN
  | Infinity _, _ => if isZero y then NaN else Infinity s
  | _, Infinity _ => if isZero x then NaN else Infinity s
  | _, _ =>
      let '(m1, e1) := dyadic x in
      let '(m2, e2) := dyadic y in
      let m := Z.abs (m1 * m2) in
      let e := e1 + e2 in
      if 0 <=? e then round64 s (m * 2 ^ e) 1 else round64 s m (2 ^ (- e))
  end.

(** [x / y] *)
Definition div (x y : number) : number :=
  let s := xorb (isNegative x) (isNegative y) in
  match x, y with
  | NaN, _ | _, NaN => NaN
  | Infinity _, Infinity _ => NaN
  | Infinity _, _ => Infinity s
  | _, Infinity _ => zero s
  | _, _ =>
      if isZero y then (if isZero x then NaN else Infinity s)
      else
        let '(m1, e1) := dyadic x in
        let '(m2, e2) := dyadic y in
        let d := e1 - e2 in
        if 0 <=? d then round64 s (Z.abs m1 * 2 ^ d) (Z.abs m2)
        else round64 s (Z.abs m1) (Z.abs m2 * 2 ^ (- d))
  end.

(** Order on finite numbers and zeros. *)
Definition compareFinite (x y : number) : comparison :=
  let '(m1, e1) := dyadic x in
  let '(m2, e2) := dyadic y in
  let e := Z.min e1 e2 in
  (m1 * 2 ^ (e1 - e)) ?= (m2 * 2 ^ (e2 - e)).

(** [Math.max(x, y)]: NaN if either is NaN, and [+0] is larger than [-0]. *)
Definition Math_max (x y : number) : number :=
  match x, y with
  | NaN, _ | _, NaN => NaN
  | Infinity false, _ | _, Infinity false => Infinity false
  | Infinity true, _ => y
  | _, Infinity true => x
  | _, _ =>
      match compareFinite x y with
      | Lt => y
      | Gt => x
      | Eq => if isNegative x then y else x
      end
  end.

(** [Math.round(x)]: [floor (x + 1/2)], computed exactly; the sign of a
    zero result is the sign of [x]. *)
Definition Math_round (x : number) : number :=
  match x with
  | Finite m e =>
      if 0 <=? e then x
      else
        let n := (2 * m + 2 ^ (- e)) / 2 ^ (- e + 1) in
        round64 (m <? 0) (Z.abs n) 1
  | _ => x
  end.

(** The number of an integer literal. *)
Definition num (z : Z) : number := Finite z 0.

(** The order of numbers; [None] when either is NaN. *)
Definition compareNumber (x y : number) : option comparison :=
  match x, y with
  | NaN, _ | _, NaN => None
  | Infinity a, Infinity b =>
      Some (if eqb a b then Eq else if a then Lt else Gt)
  | Infinity a, _ => Some (if a then Lt else Gt)
  | _, Infinity b => Some (if b then Gt else Lt)
  | _, _ => Some (compareFinite x y)
  end.

(** [x <= y] and [x >= y] *)
Definition leq (x y : number) : bool :=
  match compareNumber x y with
  | Some Lt | Some Eq => true
  | _ => false
  end.

Definition geq (x y : number) : bool :=
  match compareNumber x y with
  | Some Gt | Some Eq => true
  | _ => false
  end.

(** [Math.pow(2, k)] for an integer [0 <= k]. *)
Definition Math_pow2 (k : Z) : number := round64 false (2 ^ k) 1.

(** The value of a number that is an integer. *)
Definition exactInteger (x : number) : option Z :=
  match x with
  | NegZero => Some 0
  | Finite m e =>
      if 0 <=? e then Some (m * 2 ^ e)
      else if m mod 2 ^ (- e) =? 0 then Some (m / 2 ^ (- e))
      else None
  | _ => None
  end.

(* ------------------------------------------------------------------ *)
(** ** Printing numbers *)

Definition digitChar (d : Z) : N := (48 + Z.to_N d)%N.

Fixpoint decimal_aux (fuel : nat) (n : Z) (acc : jsstring) : jsstring :=
  let acc' := digitChar (n mod 10) :: acc in
  match fuel with
  | O => acc'
  | S f => if n <? 10 then acc' else decimal_aux f (n / 10) acc'
  end.

(** The decimal digits of a non-negative integer, without leading zeros. *)
Definition decimal (n : Z) : jsstring :=
  decimal_aux (Z.to_nat (Z.log2 n)) n [].

(** The exact value of a finite number is an integer when [0 <= e]. *)
Definition integerValue (m e : Z) : Z := m * 2 ^ e.

(** [10^21 <= m * 2^e], for [0 <= m]. *)
Definition atLeast1e21 (m e : Z) : bool :=
  if 0 <=? e then 10 ^ 21 <=? m * 2 ^ e else 10 ^ 21 * 2 ^ (- e) <=? m.

Definition sameNumber (x y : number) : bool :=
  match x, y with
  | Finite _ _, Finite _ _ =>
      match compareFinite x y with Eq => true | _ => false end
  | _, _ => false
  end.

(** [a] and [X] round to the same binary64 value. *)
Definition roundtrips (a X : Z) : bool :=
  sameNumber (round64 false a 1) (round64 false X 1).

(** [Number::toString] looks for the least [k] and an [s] of [k] digits
    such that [s * 10^(n-k)] is the number [X].  This is the search at
    a given [k], for an integer [X] of [D > k] decimal digits: some [s]
    with [s * 10^(D-k)] rounding to [X], the nearer one to [X] first.
    Returns [(s, n)]. *)
Definition shortestAt (X D k : Z) : option (Z * Z) :=
  let scale := 10 ^ (D - k) in
  let lo := X / scale in
  let below := 2 * (X mod scale) <=? scale in
  let first := if below then lo else lo + 1 in
  let second := if below then lo + 1 else lo in
  let norm s := if s =? 10 ^ k then (10 ^ (k - 1), D + 1) else (s, D) in
  if roundtrips (first * scale) X then Some (norm first)
  else if roundtrips (second * scale) X then Some (norm second)
  else None.

(** The least [k] from [k] on for which [shortestAt] succeeds; 17 digits
    always identify a binary64 value. *)
Fixpoint shortestFrom (fuel : nat) (X D k : Z) : Z * Z :=
  match fuel with
  | O => (X / 10 ^ (D - k), D)
  | S f =>
      match shortestAt X D k with
      | Some r => r
      | None => shortestFrom f X D (k + 1)
      end
  end.

(** [Number::toString] for an integer-valued number [X >= 10^21]: the
    point lies beyond 21 digits, so the form is always [d.ddde+N]. *)
Definition toStringLarge (X : Z) : jsstring :=
  let D := Z.of_nat (length (decimal X)) in
  let '(s, n) := shortestFrom 17 X D 1 in
  match decimal s with
  | [] => []
  | [d] => d :: js "e+" ++ decimal (n - 1)
  | d :: rest => d :: js "." ++ rest ++ js "e+" ++ decimal (n - 1)
  end.

(** [Number::toString] where [toFixed] needs it: non-finite numbers and
    finite ones from [10^21] on. *)
Definition toStringNonFixed (x : number) : jsstring :=
  match x with
  | NaN => js "NaN"
  | Infinity false => js "Infinity"
  | Infinity true => js "-Infinity"
  | NegZero => js "0"
  | Finite m e =>
      match round64 false (Z.abs m * 2 ^ Z.max e 0) (2 ^ Z.max (- e) 0) with
      | Finite m' e' => toStringLarge (integerValue m' e')
      | _ => js "Infinity"
      end
  end.

Fixpoint zeros (n : nat) : jsstring :=
  match n with O => [] | S k => 48%N :: zeros k end.

(** [Number.prototype.toFixed(2)]:
    non-finite numbers and numbers from [10^21] on print as by
    [toString]; otherwise [n] is the integer nearest to [x * 100] (the
    larger one on a tie), printed with a point before its last two
    digits, padded with zeros to three digits. *)
Definition toFixed2 (x : number) : jsstring :=
  match x with
  | NaN | Infinity _ => toStringNonFixed x
  | NegZero => js "0.00"
  | Finite m e =>
      let a := Z.abs m in
      let sign := if m <? 0 then js "-" else [] in
      if atLeast1e21 a e then sign ++ toStringNonFixed (Finite a e)
      else
        let n := if 0 <=? e then a * 2 ^ e * 100
                 else (2 * (a * 100) + 2 ^ (- e)) / 2 ^ (- e + 1) in
        let ds := decimal n in
        let ds := zeros (3 - length ds) ++ ds in
        let k := (length ds - 2)%nat in
        sign ++ firstn k ds ++ js "." ++ skipn k ds
  end.

(* ------------------------------------------------------------------ *)
(** ** Reading numbers *)

Definition digitValue (c : N) : Z := Z.of_N c - 48.

Fixpoint takeDigits (s : jsstring) : jsstring * jsstring :=
  match s with
  | c :: r =>
      if isDigit c then let '(d, rest) := takeDigits r in (c :: d, rest)
      else ([], s)
  | [] => ([], [])
  end.

Definition digitsValue (ds : jsstring) : Z :=
  fold_left (fun acc c => acc * 10 + digitValue c) ds 0.

(** [parseFloat] on unsigned decimal literals without exponent,
    [digits], [digits.digits] and [.digits] (the longest such prefix is
    read, as [parseFloat] does; signs, exponents, leading blanks and
    ["Infinity"] are outside this model).  The value is the binary64
    nearest to the literal. *)
Definition parseFloat (s : jsstring) : number :=
  let '(ip, rest) := takeDigits s in
  let fp := match rest with
            | 46%N :: r => fst (takeDigits r)
            | _ => []
            end in
  match ip, fp with
  | [], [] => NaN
  | _, _ =>
      round64 false (digitsValue (ip ++ fp)) (10 ^ Z.of_nat (length fp))
  end.

(** Numbers written in decimal, for examples. *)
Definition ofDecimal (negative : bool) (p q : Z) : number :=
  round64 negative p q.

(* ------------------------------------------------------------------ *)
(** ** Regular expressions, matched by derivatives *)

Inductive regex : Type :=
| Fail
| Eps
| Class (p : N -> bool)
| Seq (r1 r2 : regex)
| Alt (r1 r2 : regex)
| Star (r : regex).

Fixpoint nullable (r : regex) : bool :=
  match r with
  | Fail => false
  | Eps => true
  | Class _ => false
  | Seq r1 r2 => nullable r1 && nullable r2
  | Alt r1 r2 => nullable r1 || nullable r2
  | Star _ => true
  end.

Fixpoint deriv (c : N) (r : regex) : regex :=
  match r with
  | Fail | Eps => Fail
  | Class p => if p c then Eps else Fail
  | Seq r1 r2 =>
      if nullable r1 then Alt (Seq (deriv c r1) r2) (deriv c r2)
      else Seq (deriv c r1) r2
  | Alt r1 r2 => Alt (deriv c r1) (deriv c r2)
  | Star r1 => Seq (deriv c r1) (Star r1)
  end.

(** [/^r$/.test(s)] *)
Definition test (r : regex) (s : jsstring) : bool :=
  nullable (fold_left (fun r c => deriv c r) s r).

Definition Opt (r : regex) : regex := Alt Eps r.
Definition Plus (r : regex) : regex := Seq r (Star r).

(** [s.replace(/[...]/g, '')] for a character class. *)
Definition removeAll (p : N -> bool) (s : jsstring) : jsstring :=
  filter (fun c => negb (p c)) s.

(* ------------------------------------------------------------------ *)
(** ** Values, as [JSON.parse] delivers them, and ordinary objects

    An object lists its own properties in the order of their creation
    (for a parsed text, the order of its members); the order in which
    they are enumerated is computed from it, see [ownEntries]. *)

#[warnings="-register-all"]
Inductive value : Type :=
| VUndefined
| VNull
| VBool (b : bool)
| VNumber (n : number)
| VString (s : jsstring)
| VArray (items : list value)
| VObject (props : list (jsstring * value)).

Inductive jstype : Type :=
| TUndefined | TObject | TBoolean | TNumber | TString.

Definition jstype_eqb (a b : jstype) : bool :=
  match a, b with
  | TUndefined, TUndefined | TObject, TObject | TBoolean, TBoolean
  | TNumber, TNumber | TString, TString => true
  | _, _ => false
  end.

Definition typeof (v : value) : jstype :=
  match v with
  | VUndefined => TUndefined
  | VNull => TObject
  | VBool _ => TBoolean
  | VNumber _ => TNumber
  | VString _ => TString
  | VArray _ | VObject _ => TObject
  end.

(** ToBoolean *)
Definition truthy (v : value) : bool :=
  match v with
  | VUndefined | VNull => false
  | VBool b => b
  | VNumber n => negb (isZero n || isNaN n)
  | VString s => match s with [] => false | _ => true end
  | VArray _ | VObject _ => true
  end.

Definition isNull (v : value) : bool :=
  match v with VNull => true | _ => false end.

Definition isUndefined (v : value) : bool :=
  match v with VUndefined => true | _ => false end.

Definition Array_isArray (v : value) : bool :=
  match v with VArray _ => true | _ => false end.

(** [a ?? b] *)
Definition nullish (a b : value) : value :=
  if isNull a || isUndefined a then b else a.

(** [a || b] *)
Definition orElse (a b : value) : value :=
  if truthy a then a else b.

Fixpoint lookup (key : jsstring) (props : list (jsstring * value)) : option value :=
  match props with
  | [] => None
  | (k, v) :: rest => if str_eqb k key then Some v else lookup key rest
  end.

Definition hasKey (key : jsstring) (props : list (jsstring * value)) : bool :=
  match lookup key props with Some _ => true | None => false end.

Fixpoint indexed {A : Type} (i : Z) (l : list A) : list (Z * A) :=
  match l with
  | [] => []
  | a :: r => (i, a) :: indexed (i + 1) r
  end.

(** An array index: the canonical decimal string of an integer from 0
    to [2^32 - 2] (no sign, no leading zero). *)
Definition arrayIndex (key : jsstring) : option Z :=
  match key with
  | [] => None
  | c :: rest =>
      if forallb isDigit key
         && (negb (N.eqb c 48) || match rest with [] => true | _ => false end)
         && (digitsValue key <? 2 ^ 32 - 1)
      then Some (digitsValue key)
      else None
  end.

Definition isArrayIndex (key : jsstring) : bool :=
  match arrayIndex key with Some _ => true | None => false end.

Definition indexOf (entry : jsstring * value) : Z :=
  match arrayIndex (fst entry) with Some i => i | None => 0 end.

(** An entry goes before the first one whose index is not smaller. *)
Fixpoint insertEntry (entry : jsstring * value)
         (sorted : list (jsstring * value)) : list (jsstring * value) :=
  match sorted with
  | [] => [entry]
  | x :: rest =>
      if indexOf x <? indexOf entry then x :: insertEntry entry rest
      else entry :: x :: rest
  end.

(** OrdinaryOwnPropertyKeys on the properties of an object, given in
    the order of their creation: the array indices come first, in
    ascending order, then the other keys in the order of creation. *)
Definition ownEntries (props : list (jsstring * value))
  : list (jsstring * value) :=
  fold_right insertEntry [] (filter (fun e => isArrayIndex (fst e)) props)
  ++ filter (fun e => negb (isArrayIndex (fst e))) props.

(** [Object.entries(v)]: the own enumerable string-keyed properties in
    enumeration order.  It is never applied to [null] or [undefined],
    on which it throws. *)
Definition Object_entries (v : value) : list (jsstring * value) :=
  match v with
  | VObject props => ownEntries props
  | VArray items => map (fun p => (decimal (fst p), snd p)) (indexed 0 items)
  | VString s => map (fun p => (decimal (fst p), VString [snd p])) (indexed 0 s)
  | _ => []
  end.

Definition Object_keys (v : value) : list jsstring :=
  map fst (Object_entries v).

(** [v.key] and [v?.key] for a name that neither [Object.prototype],
    [Array.prototype] nor the wrappers of primitives define (the code
    reads [id], [title], [description], [price], [image], [category]):
    the own property of an object, [undefined] otherwise.  ([v.key]
    throws on [null] and [undefined]; the code guards those reads.) *)
Definition getProperty (v : value) (key : jsstring) : value :=
  match v with
  | VObject props =>
      match lookup key props with Some x => x | None => VUndefined end
  | _ => VUndefined
  end.

(** An ordinary object under construction: own data properties in
    creation order and the [[Prototype]] link. *)
Inductive prototype : Type :=
| ObjectPrototype
| NullPrototype
| ValuePrototype (v : value).

Record object : Type := mkObject {
  own : list (jsstring * value);
  proto : prototype
}.

(** Whether [o.hasOwnProperty] resolves to [Object.prototype]'s method.
    A property of that name coming from parsed data holds a value that
    is not callable, and an object without prototype has no such
    method: calling it is then a TypeError. *)
Definition hasOwnPropertyCallable (o : object) : bool :=
  negb (hasKey (js "hasOwnProperty") (own o))
  && match proto o with
     | ObjectPrototype => true
     | NullPrototype => false
     | ValuePrototype v =>
         negb (hasKey (js "hasOwnProperty") (Object_entries v))
     end.

(** The setter of [Object.prototype.__proto__]: an object or [null]
    becomes the new prototype, any other value is ignored. *)
Definition setPrototypeOf (o : object) (v : value) : object :=
  match v with
  | VObject _ | VArray _ => mkObject (own o) (ValuePrototype v)
  | VNull => mkObject (own o) NullPrototype
  | _ => o
  end.

Definition defineOwn (o : object) (key : jsstring) (v : value) : object :=
  mkObject (own o ++ [(key, v)]) (proto o).

(** [o[key] = v] when [o] has no own property [key] (OrdinarySet): the
    prototype chain is searched; a data property found there, or
    nothing at all, makes the assignment create an own property of
    [o]; the accessor [__proto__] of [Object.prototype] is called
    instead. *)
Definition assign (o : object) (key : jsstring) (v : value) : object :=
  let reachesAccessor :=
    str_eqb key (js "__proto__")
    && match proto o with
       | ObjectPrototype => true
       | NullPrototype => false
       | ValuePrototype p => negb (hasKey key (Object_entries p))
       end in
  if reachesAccessor then setPrototypeOf o v else defineOwn o key v.

(** [{...o, key: v}] on a property list: the value of an existing key
    is replaced in place, a new key goes last. *)
Fixpoint setOwn (props : list (jsstring * value)) (key : jsstring) (v : value)
  : list (jsstring * value) :=
  match props with
  | [] => [(key, v)]
  | (k, x) :: rest =>
      if str_eqb k key then (k, v) :: rest else (k, x) :: setOwn rest key v
  end.

(* ------------------------------------------------------------------ *)
(** ** Thrown values *)

Inductive errorClass : Type :=
| ClassError            (* Error, and errors of the transport *)
| ClassTypeError
| ClassTransformError
| ClassAPIError
| ClassPlainObject.     (* a record that is not an Error *)

Record response : Type := mkResponse {
  status : Z;
  data : option value;             (* [None]: no [data] property *)
  header_etag : value;             (* [headers?.etag] *)
  header_lastModified : value      (* [headers?.['last-modified']] *)
}.

Record exn : Type := mkError {
  errClass : errorClass;
  errName : option jsstring;       (* [.name] *)
  errMessage : option jsstring;    (* [.message] *)
  errCode : option jsstring;       (* [.code] *)
  errStatus : option Z;            (* [.status] of an APIError *)
  errResponse : option response;   (* [.response] *)
  errRequest : bool;               (* [.request] is present *)
  errRetryable : bool;             (* [.retryable] of an APIError *)
  errRetryDelay : option Z         (* [.retryDelay] of an APIError *)
}.

Inductive result (A : Type) : Type :=
| Return (a : A)
| Throw (e : exn).
Arguments Return {A} a.
Arguments Throw {A} e.

Definition strictEqString (v : value) (s : jsstring) : bool :=
  match v with VString t => str_eqb t s | _ => false end.

(** [e.field === 'literal'] on a string-valued field of an error. *)
Definition fieldIs (f : option jsstring) (s : jsstring) : bool :=
  match f with Some t => str_eqb t s | None => false end.

(** [/^(\d+\.?\d*|\.\d+)$/]: an unsigned decimal literal, no exponent. *)
Definition decimalLiteral : regex :=
  Alt (Seq (Plus (Class isDigit))
           (Seq (Opt (Class (N.eqb 46))) (Star (Class isDigit))))
      (Seq (Class (N.eqb 46)) (Plus (Class isDigit))).

(** ToNumber.  Of the strings, the blank ones and the unsigned decimal
    literals are read; strings in another notation and objects, which
    need ToPrimitive, are outside this model and read as NaN. *)
Definition ToNumber (v : value) : number :=
  match v with
  | VUndefined => NaN
  | VNull => num 0
  | VBool b => num (if b then 1 else 0)
  | VNumber n => n
  | VString s =>
      match trim s with
      | [] => num 0
      | t => if test decimalLiteral t then parseFloat t else NaN
      end
  | VArray _ | VObject _ => NaN
  end.

(** A destructuring default: [{ x = d } = o]. *)
Definition defaultTo (v d : value) : value :=
  if isUndefined v then d else v.

End JS.


Import JS.

(* ================================================================== *)
(** ** utils/transformers *)

Module Transformers.

(** [new TransformError(message, field, value)] *)
Definition TransformError (message : jsstring) : exn :=
  {| errClass := ClassTransformError;
     errName := Some (js "TransformError");
     errMessage := Some message;
     errCode := None;
     errStatus := None;
     errResponse := None;
     errRequest := false;
     errRetryable := false;
     errRetryDelay := None |}.

(** The class [[$£€,\s]]: dollar, pound, euro, comma, blanks. *)
Definition currencyOrSeparator (c : N) : bool :=
  (N.eqb c 36 || N.eqb c 163 || N.eqb c 8364 || N.eqb c 44)%N
  || isWhiteSpace c.

(** [/^\d*\.?\d+$/] *)
Definition unsignedDecimal : regex :=
  Seq (Star (Class isDigit))
      (Seq (Opt (Class (N.eqb 46))) (Plus (Class isDigit))).

Definition transformPrice (price : value) : jsstring :=
  (* Handle empty object case *)
  if isNull price || isUndefined price
     || (jstype_eqb (typeof price) TObject
         && (length (Object_keys price) =? 0)%nat)
  then js "0.00"
  else
    (* Handle string inputs *)
    let parsed :=
      match price with
      | VString s =>
          let cleanPrice := trim (removeAll currencyOrSeparator s) in
          if negb (test unsignedDecimal cleanPrice) then None
          else Some (VNumber (parseFloat cleanPrice))
      | _ => Some price
      end in
    match parsed with
    | None => js "0.00"
    | Some (VNumber n) =>
        if isNaN n then js "0.00"
        else
          (* Handle precision and rounding *)
          let roundedPrice :=
            div (Math_round (mul (Math_max (num 0) n) (num 100))) (num 100) in
          toFixed2 roundedPrice
    | Some _ => js "0.00"
    end.

(** The loop over [Object.entries(data)]: [None] when the call
    [transformed.hasOwnProperty(key)] throws a TypeError. *)
Fixpoint preserveFields (entries : list (jsstring * value)) (transformed : object)
  : option object :=
  match entries with
  | [] => Some transformed
  | (key, v) :: rest =>
      if hasOwnPropertyCallable transformed then
        if negb (hasKey key (own transformed))
        then preserveFields rest (assign transformed key v)
        else preserveFields rest transformed
      else None
  end.

Definition transformProductResponse (data : value) : result object :=
  (* Validate input data *)
  if negb (truthy data) || negb (jstype_eqb (typeof data) TObject)
     || Array_isArray data
  then Throw (TransformError (js "No product data provided"))
  else
    (* Create base object with required fields *)
    let transformed :=
      {| own :=
           [ (js "id", nullish (getProperty data (js "id")) (VString []));
             (js "title",
              nullish (getProperty data (js "title"))
                      (VString (js "Untitled Product")));
             (js "description",
              nullish (getProperty data (js "description"))
                      (VString (js "No description available")));
             (js "price",
              VString (transformPrice (getProperty data (js "price"))));
             (js "image", nullish (getProperty data (js "image")) VNull);
             (js "category",
              nullish (getProperty data (js "category"))
                      (VString (js "Uncategorized"))) ];
         proto := ObjectPrototype |} in
    (* Preserve all additional fields from the input data *)
    match preserveFields (Object_entries data) transformed with
    | Some t => Return t
    | None => Throw (TransformError (js "Failed to transform product data"))
    end.

End Transformers.

(* ================================================================== *)
(** ** services/api *)

Module Api.

(** [DEFAULT_CONFIG], as the object literal lists it.  Its
    [validateStatus] member is the function [validateStatus] below. *)
Definition DEFAULT_CONFIG : value :=
  VObject
    [ (js "timeout", VNumber (num 5000));
      (js "retryDelay", VNumber (num 1000));
      (js "cacheMaxAge", VNumber (num 300));
      (js "staleWhileRevalidate", VNumber (num 60));
      (js "maxRetryAttempts", VNumber (num 3));
      (js "retryStatusCodes",
       VArray (map (fun c => VNumber (num c)) [408; 429; 500; 502; 503; 504])) ].

Definition validateStatus (status : Z) : bool :=
  (200 <=? status) && (status <? 300).

(** [new Error(message)] *)
Definition Error (message : jsstring) : exn :=
  {| errClass := ClassError;
     errName := Some (js "Error");
     errMessage := Some message;
     errCode := None;
     errStatus := None;
     errResponse := None;
     errRequest := false;
     errRetryable := false;
     errRetryDelay := None |}.

Definition responseData (r : response) : value :=
  match data r with Some v => v | None => VUndefined end.

(** The fulfilled side of [api.interceptors.response]. *)
Definition responseInterceptor (r : option response) : result response :=
  match r with
  | None => Throw (Error (js "Invalid response received from server"))
  | Some response =>
      (* Validate response data *)
      if negb (truthy (responseData response))
      then Throw (Error (js "Invalid response received from server"))
      else Return response
  end.

(** What one call of [api.get] meets: the transport delivers a
    response that the request's [validateStatus] accepts, or the call
    is rejected (the value is the one the rejected side of the
    interceptor finally rejects with; its re-sends are not modelled). *)
Inductive transport : Type :=
| Responds (r : response)
| Rejects (e : exn).

Definition get (t : transport) : result response :=
  match t with
  | Responds r => responseInterceptor (Some r)
  | Rejects e => Throw e
  end.

End Api.

(* ================================================================== *)
(** ** services/productService *)

Module ProductService.

Import Transformers Api.

(** [REQUEST_CONFIG.validateStatus] *)
Definition REQUEST_CONFIG_validateStatus (status : Z) : bool :=
  (* Accept 2xx responses and 304 (Not Modified) *)
  ((200 <=? status) && (status <? 300)) || (status =? 304).

Inductive errorCode : Type :=
| TIMEOUT | NETWORK_ERROR | INVALID_RESPONSE | VALIDATION_ERROR | NOT_FOUND
| SERVER_ERROR | TRANSFORM_ERROR | REQUEST_CANCELLED | UNAUTHORIZED
| FORBIDDEN | RATE_LIMIT | UNKNOWN_ERROR.

Inductive logLevel : Type := LogError | LogWarn | LogInfo.

Record errorInfo : Type := mkInfo {
  info_status : Z;
  info_message : jsstring;
  info_retryable : bool;
  info_retryDelay : option Z;
  info_logLevel : option logLevel
}.

Definition ERROR_CODES (c : errorCode) : errorInfo :=
  match c with
  | TIMEOUT =>
      mkInfo 408 (js "Request timed out") true (Some 1000) None
  | NETWORK_ERROR =>
      mkInfo 0 (js "Network error") true (Some 2000) None
  | INVALID_RESPONSE =>
      mkInfo 500 (js "Internal Server Error") false None (Some LogError)
  | VALIDATION_ERROR =>
      mkInfo 400 (js "Invalid product information or parameters provided")
             false None (Some LogWarn)
  | NOT_FOUND =>
      mkInfo 404 (js "Requested product could not be found")
             false None (Some LogWarn)
  | SERVER_ERROR =>
      mkInfo 500 (js "Internal Server Error") true (Some 3000) None
  | TRANSFORM_ERROR =>
      mkInfo 422 (js "Failed to process or transform product data")
             false None (Some LogError)
  | REQUEST_CANCELLED =>
      mkInfo 499 (js "Product data request was cancelled")
             false None (Some LogInfo)
  | UNAUTHORIZED =>
      mkInfo 401 (js "Unauthorized access to product data")
             false None (Some LogWarn)
  | FORBIDDEN =>
      mkInfo 403 (js "Access forbidden to product data")
             false None (Some LogWarn)
  | RATE_LIMIT =>
      mkInfo 429 (js "Too many requests to product service")
             true (Some 5000) None
  | UNKNOWN_ERROR =>
      mkInfo 500
             (js "An unexpected error occurred while processing product data")
             true (Some 2000) None
  end.

Definition allCodes : list errorCode :=
  [ TIMEOUT; NETWORK_ERROR; INVALID_RESPONSE; VALIDATION_ERROR; NOT_FOUND;
    SERVER_ERROR; TRANSFORM_ERROR; REQUEST_CANCELLED; UNAUTHORIZED;
    FORBIDDEN; RATE_LIMIT; UNKNOWN_ERROR ].

Definition codeName (c : errorCode) : jsstring :=
  match c with
  | TIMEOUT => js "TIMEOUT"
  | NETWORK_ERROR => js "NETWORK_ERROR"
  | INVALID_RESPONSE => js "INVALID_RESPONSE"
  | VALIDATION_ERROR => js "VALIDATION_ERROR"
  | NOT_FOUND => js "NOT_FOUND"
  | SERVER_ERROR => js "SERVER_ERROR"
  | TRANSFORM_ERROR => js "TRANSFORM_ERROR"
  | REQUEST_CANCELLED => js "REQUEST_CANCELLED"
  | UNAUTHORIZED => js "UNAUTHORIZED"
  | FORBIDDEN => js "FORBIDDEN"
  | RATE_LIMIT => js "RATE_LIMIT"
  | UNKNOWN_ERROR => js "UNKNOWN_ERROR"
  end.

(** [ERROR_CODES[name]] for an arbitrary property name. *)
Definition ERROR_CODES_at (name : option jsstring) : option errorInfo :=
  match name with
  | Some s =>
      option_map ERROR_CODES
                 (find (fun c => str_eqb (codeName c) s) allCodes)
  | None => None
  end.

(** [new APIError(message, status, code, details)] *)
Definition APIError (message : jsstring) (status : Z) (code : errorCode) : exn :=
  {| errClass := ClassAPIError;
     errName := Some (js "APIError");
     errMessage := Some message;
     errCode := Some (codeName code);
     errStatus := Some status;
     errResponse := None;
     errRequest := false;
     errRetryable := false;
     errRetryDelay := None |}.

Definition instanceofTransformError (e : exn) : bool :=
  match errClass e with ClassTransformError => true | _ => false end.

Definition instanceofAPIError (e : exn) : bool :=
  match errClass e with ClassAPIError => true | _ => false end.

(** The code that [handleApiError] settles on ([None]: the error is
    [undefined] or [null]). *)
Definition classify (error : option exn) : errorCode :=
  match error with
  | None => UNKNOWN_ERROR
  | Some error =>
      if instanceofTransformError error then TRANSFORM_ERROR
      else if fieldIs (errCode error) (js "ECONNABORTED") then TIMEOUT
      else
        match errResponse error with
        | Some response =>
            let responseStatus :=
              if status response =? 0 then 500 else status response in
            (* Handle specific HTTP status codes *)
            if responseStatus =? 400 then VALIDATION_ERROR
            else if responseStatus =? 401 then UNAUTHORIZED
            else if responseStatus =? 403 then FORBIDDEN
            else if responseStatus =? 404 then NOT_FOUND
            else if responseStatus =? 422 then TRANSFORM_ERROR
            else if responseStatus =? 429 then RATE_LIMIT
            else if (responseStatus =? 500) || (responseStatus =? 502)
                    || (responseStatus =? 503) || (responseStatus =? 504)
            then SERVER_ERROR
            else UNKNOWN_ERROR
        | None =>
            if errRequest error then NETWORK_ERROR else UNKNOWN_ERROR
        end
  end.

(** The severity of the log entry that [handleApiError] writes. *)
Definition logged (error : option exn) : logLevel :=
  match info_logLevel (ERROR_CODES (classify error)) with
  | Some l => l
  | None => LogError
  end.

(** [handleApiError(error, context)] always throws; this is the
    [APIError] it throws (its [details] are left out). *)
Definition handleApiError (error : option exn) : exn :=
  let errorCode := classify error in
  let errorInfo := ERROR_CODES errorCode in
  let retryDelay :=
    match info_retryDelay errorInfo with Some d => d | None => 1000 end in
  let apiError :=
    APIError (info_message errorInfo) (info_status errorInfo) errorCode in
  (* Add retry information if applicable *)
  if info_retryable errorInfo then
    {| errClass := errClass apiError;
       errName := errName apiError;
       errMessage := errMessage apiError;
       errCode := errCode apiError;
       errStatus := errStatus apiError;
       errResponse := None;
       errRequest := false;
       errRetryable := true;
       errRetryDelay := Some retryDelay |}
  else apiError.

(** [process.env.NODE_ENV === name] *)
Definition envIs (NODE_ENV : value) (name : jsstring) : bool :=
  strictEqString NODE_ENV name.

Definition validateResponse (NODE_ENV : value) (response : option response)
           (requireArray allowEmpty : bool) : result value :=
  match response with
  | None =>
      Throw (APIError (js "No response received from server") 500 INVALID_RESPONSE)
  | Some response =>
      match data response with
      | None =>
          Throw (APIError (js "Malformed API response: missing data property")
                          500 INVALID_RESPONSE)
      | Some data =>
          (* Handle null/undefined data *)
          if isNull data || isUndefined data then
            if envIs NODE_ENV (js "test")
            then Return (if requireArray then VArray [] else VNull)
            else Throw (APIError (js "Invalid response: data is null")
                                 500 INVALID_RESPONSE)
          (* Validate array requirement *)
          else if requireArray && negb (Array_isArray data) then
            Throw (APIError (js "Invalid response format: expected array")
                            500 INVALID_RESPONSE)
          (* Validate empty data *)
          else if negb allowEmpty
                  && ((Array_isArray data
                       && (length (Object_keys data) =? 0)%nat)
                      || (jstype_eqb (typeof data) TObject
                          && (length (Object_keys data) =? 0)%nat))
          then
            Throw (APIError (js "Empty response received when data was required")
                            500 INVALID_RESPONSE)
          else Return data
      end
  end.

(** The options of [getProductById]; an omitted one is [undefined].
    The abort signal, when given, is read as a function of the number
    of transport calls made so far. *)
Record options : Type := mkOptions {
  opt_signal : option (nat -> bool);
  opt_timeout : value;
  opt_retries : value;
  opt_retryDelay : value;
  opt_cache : value;
  opt_etag : value;
  opt_lastModified : value
}.

Definition noOptions : options :=
  mkOptions None VUndefined VUndefined VUndefined VUndefined VUndefined VUndefined.

(** [signal && signal.aborted] *)
Definition aborted (signal : option (nat -> bool)) (calls : nat) : bool :=
  match signal with Some s => s calls | None => false end.

Record requestConfig : Type := mkConfig {
  cfg_timeout : value;
  cfg_cache : value;
  cfg_ifNoneMatch : value;
  cfg_ifModifiedSince : value
}.

(** What a call does to the outside world, in order. *)
Inductive effect : Type :=
| ApiGet (productId : value) (config : requestConfig)
| SetTimeout (ms : number).

(** One pass through the body of the [try] inside the loop. *)
Definition attemptOnce (NODE_ENV : value) (t : transport) : result value :=
  match Api.get t with
  | Throw e => Throw e
  | Return response =>
      (* Handle 304 Not Modified *)
      if status response =? 304 then
        Return (VObject [ (js "cached", VBool true);
                          (js "notModified", VBool true);
                          (js "etag", header_etag response);
                          (js "lastModified", header_lastModified response) ])
      else
        match validateResponse NODE_ENV (Some response) false false with
        | Throw e => Throw e
        | Return data =>
            (* Validate product data structure *)
            if negb (truthy data) || negb (jstype_eqb (typeof data) TObject)
            then Throw (APIError (js "Invalid product data format")
                                 500 INVALID_RESPONSE)
            else
              match transformProductResponse data with
              | Throw e => Throw e
              | Return transformedProduct =>
                  (* Add caching metadata *)
                  Return
                    (VObject
                       (setOwn
                          (setOwn
                             (setOwn (own transformedProduct)
                                     (js "cached") (VBool false))
                             (js "etag") (header_etag response))
                          (js "lastModified") (header_lastModified response)))
              end
        end
  end.

(** How the [for] loop ends. *)
Inductive loopEnd : Type :=
| Returned (v : value)                        (* [return] from the body *)
| Escaped (e : exn)                           (* thrown out of the loop *)
| Fell (lastError : option exn) (attempt : Z) (* [break], or the test fails *)
| Waiting.                                    (* the transport has not answered *)

Definition cancelled : exn :=
  APIError (js "Product request cancelled") 499 REQUEST_CANCELLED.

Definition isAbortError (e : exn) : bool :=
  fieldIs (errName e) (js "AbortError").

(** [for (attempt = 0; attempt <= retries; attempt++)], each iteration
    taking the next answer of the transport. *)
Fixpoint attemptLoop (NODE_ENV productId : value) (config : requestConfig)
         (signal : option (nat -> bool)) (retries retryDelay : value)
         (script : list transport) (attempt : Z) (calls : nat)
         (lastError : option exn) : list effect * loopEnd :=
  if negb (leq (num attempt) (ToNumber retries)) then ([], Fell lastError attempt)
  else
    match script with
    | [] => ([ApiGet productId config], Waiting)
    | t :: rest =>
        match attemptOnce NODE_ENV t with
        | Return v => ([ApiGet productId config], Returned v)
        | Throw error =>
            (* Handle request cancellation *)
            if isAbortError error || aborted signal (S calls)
            then ([ApiGet productId config], Escaped cancelled)
            else
              (* Check if error is retryable *)
              let errorCode :=
                if instanceofAPIError error then errCode error
                else Some (js "UNKNOWN_ERROR") in
              let retryable :=
                match ERROR_CODES_at errorCode with
                | Some errorInfo => info_retryable errorInfo
                | None => false
                end in
              if negb retryable || geq (num attempt) (ToNumber retries)
              then ([ApiGet productId config], Fell (Some error) attempt)
              else
                (* Calculate retry delay with exponential backoff *)
                let backoffDelay :=
                  mul (ToNumber retryDelay) (Math_pow2 attempt) in
                let '(effects, e) :=
                  attemptLoop NODE_ENV productId config signal retries
                              retryDelay rest (attempt + 1) (S calls)
                              (Some error) in
                (ApiGet productId config :: SetTimeout backoffDelay :: effects, e)
        end
    end.

(** A promise that has settled, or one still waiting for the transport. *)
Inductive promise (A : Type) : Type :=
| Settled (r : result A)
| Pending.
Arguments Settled {A} r.
Arguments Pending {A}.

Definition countCalls (effects : list effect) : nat :=
  length (filter (fun e => match e with ApiGet _ _ => true | _ => false end)
                 effects).

Definition getProductById (NODE_ENV productId : value) (options : options)
           (script : list transport) : list effect * promise value :=
  (* Validate productId *)
  if negb (truthy productId) || negb (jstype_eqb (typeof productId) TString)
  then ([], Settled (Throw (APIError (js "Invalid or missing product ID")
                                     400 VALIDATION_ERROR)))
  else
    let signal := opt_signal options in
    let timeout :=
      defaultTo (opt_timeout options) (getProperty DEFAULT_CONFIG (js "timeout")) in
    let retries :=
      defaultTo (opt_retries options) (getProperty DEFAULT_CONFIG (js "retries")) in
    let retryDelay :=
      defaultTo (opt_retryDelay options)
                (getProperty DEFAULT_CONFIG (js "retryDelay")) in
    let cache := defaultTo (opt_cache options) (VBool true) in
    let etag := defaultTo (opt_etag options) (VString []) in
    let lastModified := defaultTo (opt_lastModified options) (VString []) in
    let config := mkConfig timeout cache etag lastModified in
    let '(effects, e) :=
      attemptLoop NODE_ENV productId config signal retries retryDelay
                  script 0 0 None in
    (* the [catch] of the outer [try] *)
    let outer (error : exn) : result value :=
      if isAbortError error || aborted signal (countCalls effects)
      then Throw cancelled
      else Throw (handleApiError (Some error)) in
    match e with
    | Returned v => (effects, Settled (Return v))
    | Waiting => (effects, Pending)
    | Escaped error => (effects, Settled (outer error))
    | Fell lastError _ =>
        (* Handle final error *)
        (effects, Settled (outer (handleApiError lastError)))
    end.

(* ------------------------------------------------------------------ *)
(** *** getProducts *)

Record transformErrorEntry : Type := mkEntry {
  entry_index : Z;
  entry_productId : value;
  entry_error : exn;
  entry_rawProduct : value
}.

Record metadata : Type := mkMetadata {
  meta_total : Z;
  meta_transformed : Z;
  meta_failed : Z;
  meta_filters : object
}.

(** What [getProducts] resolves with: the bare array of the test
    environment, or the standard [{products, errors, metadata}]. *)
Inductive productsResult : Type :=
| ProductsOnly (products : list object)
| ResponseData (products : list object)
               (errors : option (list transformErrorEntry))
               (metadata : metadata).

Record listOptions : Type := mkListOptions {
  lopt_aborted : bool;     (* [signal && signal.aborted], in the [catch] *)
  lopt_allowEmpty : value
}.

(** [acc[key] = value] on the accumulator of the filter entries. *)
Definition setParam (acc : object) (key : jsstring) (v : value) : object :=
  if hasKey key (own acc) then mkObject (setOwn (own acc) key v) (proto acc)
  else assign acc key v.

Definition buildParams (filters : value) : object :=
  fold_left
    (fun acc kv => if negb (isUndefined (snd kv)) then setParam acc (fst kv) (snd kv)
                   else acc)
    (Object_entries filters) (mkObject [] ObjectPrototype).

(** The body of [data.forEach((product, index) => ...)]: one element
    goes either to [transformedProducts] or to [transformErrors]. *)
Definition transformElement (NODE_ENV : value)
           (acc : list object * list transformErrorEntry)
           (item : Z * value) : list object * list transformErrorEntry :=
  let '(index, product) := item in
  let '(transformedProducts, transformErrors) := acc in
  let attempt :=
    if negb (truthy product) || negb (jstype_eqb (typeof product) TObject)
    then Throw (TransformError (js "Invalid product data format"))
    else transformProductResponse product in
  match attempt with
  | Return transformedProduct =>
      (transformedProducts ++ [transformedProduct], transformErrors)
  | Throw error =>
      let transformError :=
        if instanceofTransformError error then error
        else TransformError (js "Product transformation failed") in
      (transformedProducts,
       transformErrors
         ++ [ {| entry_index := index;
                 entry_productId := getProperty product (js "id");
                 entry_error := transformError;
                 entry_rawProduct :=
                   if envIs NODE_ENV (js "development") then product
                   else VUndefined |} ])
  end.

Definition TypeError (message : jsstring) : exn :=
  {| errClass := ClassTypeError;
     errName := Some (js "TypeError");
     errMessage := Some message;
     errCode := None;
     errStatus := None;
     errResponse := None;
     errRequest := false;
     errRetryable := false;
     errRetryDelay := None |}.

Definition getProducts (NODE_ENV filters : value) (options : listOptions)
           (t : transport) : result productsResult :=
  let filters := defaultTo filters (VObject []) in
  let allowEmpty := truthy (defaultTo (lopt_allowEmpty options) (VBool true)) in
  (* the [catch] of the outer [try] *)
  let outer (error : exn) : result productsResult :=
    Throw (handleApiError (Some error)) in
  (* Validate filters *)
  if negb (jstype_eqb (typeof filters) TObject) then
    outer (APIError (js "Invalid filters parameter") 400 VALIDATION_ERROR)
  else if isNull filters then
    outer (TypeError (js "Cannot convert undefined or null to object"))
  else
    (* Build request config *)
    let params := buildParams filters in
    (* the [catch] of the inner [try] *)
    let inner (error : exn) : result productsResult :=
      if isAbortError error || lopt_aborted options
      then outer (APIError (js "Products request cancelled")
                           499 REQUEST_CANCELLED)
      else outer error in
    match Api.get t with
    | Throw e => inner e
    | Return response =>
        match validateResponse NODE_ENV (Some response) true allowEmpty with
        | Throw e => inner e
        | Return (VArray items) =>
            (* Transform products and collect errors *)
            let '(transformedProducts, transformErrors) :=
              fold_left (transformElement NODE_ENV) (indexed 0 items) ([], []) in
            (* Return standardized response format *)
            let responseData :=
              ResponseData
                transformedProducts
                (if (0 <? length transformErrors)%nat then Some transformErrors
                 else None)
                {| meta_total := Z.of_nat (length items);
                   meta_transformed := Z.of_nat (length transformedProducts);
                   meta_failed := Z.of_nat (length transformErrors);
                   meta_filters := params |} in
            (* In test environment, return only products array *)
            if envIs NODE_ENV (js "test") then Return (ProductsOnly transformedProducts)
            else Return responseData
        | Return _ => inner (TypeError (js "data.forEach is not a function"))
        end
    end.

End ProductService.

(* ================================================================== *)
(** ** components/ProductPage *)

Module ProductPage.

Import ProductService.

Record state : Type := mkState {
  product : value;
  loading : bool;
  error : option jsstring;          (* [null] or the message *)
  retryCount : Z;
  retryMessage : value;
  etag : value;
  lastModified : value;
  lastFetchTime : option Z          (* [null] or a [Date.now()] *)
}.

(** The argument of [useState]. *)
Definition initialState : state :=
  {| product := VNull;
     loading := true;
     error := None;
     retryCount := 0;
     retryMessage := VNull;
     etag := VNull;
     lastModified := VNull;
     lastFetchTime := None |}.

(** One instance of the component: its state and its two refs. *)
Record component : Type := mkComponent {
  st : state;
  requestIdRef : Z;
  mountedRef : bool
}.

(** A call of [fetchProduct] suspended at [await getProductById(...)]:
    what its closure holds. *)
Record pending : Type := mkPending {
  currentRequestId : Z;
  requestedId : value;              (* [productId] of the closure *)
  startedAt : Z;                    (* [now] *)
  sent_etag : value;
  sent_lastModified : value;
  sent_cache : bool
}.

(** The options that the suspended call passed to [getProductById]. *)
Definition sentOptions (p : pending) (signal : option (nat -> bool)) : options :=
  {| opt_signal := signal;
     opt_timeout := VNumber (num 5000);
     opt_retries := VNumber (num 2);
     opt_retryDelay := VUndefined;
     opt_cache := VBool (sent_cache p);
     opt_etag := sent_etag p;
     opt_lastModified := sent_lastModified p |}.

Definition setState (c : component) (s : state) : component :=
  {| st := s; requestIdRef := requestIdRef c; mountedRef := mountedRef c |}.

(** Only update state if this is the most recent request. *)
Definition safeSetState (currentRequestId : Z) (updater : state -> state)
           (c : component) : component :=
  if mountedRef c && (currentRequestId =? requestIdRef c)
  then setState c (updater (st c))
  else c.

Definition truthyString (s : option jsstring) : bool :=
  match s with Some (_ :: _) => true | _ => false end.

(** [Error.prototype.toString], or [Object.prototype.toString] for a
    record that is not an Error. *)
Definition errorToString (e : exn) : jsstring :=
  match errClass e with
  | ClassPlainObject => js "[object Object]"
  | _ =>
      let name := match errName e with Some n => n | None => js "Error" end in
      let msg := match errMessage e with Some m => m | None => [] end in
      match name, msg with
      | [], _ => msg
      | _, [] => name
      | _, _ => name ++ js ": " ++ msg
      end
  end.

(** [err.message || err.toString() || 'Failed to load product information'] *)
Definition errorText (err : exn) : jsstring :=
  match errMessage err with
  | Some (c :: m) => c :: m
  | _ =>
      match errorToString err with
      | [] => js "Failed to load product information"
      | t => t
      end
  end.

(** [fetchProduct(abortSignal, force)] up to its [await]: the token is
    minted, the state goes to loading, and unless the product id is
    missing the request is on its way.  [closure] is the state that the
    [useCallback] closure captured. *)
Definition fetchProduct_begin (productId : value) (closure : state)
           (now : Z) (force : bool) (c : component)
  : component * option pending :=
  let c := {| st := st c;
              requestIdRef := requestIdRef c + 1;
              mountedRef := mountedRef c |} in
  let currentRequestId := requestIdRef c in
  (* Reset state when fetching new product *)
  let c := safeSetState currentRequestId
             (fun prev =>
                {| product := product prev;
                   loading := true;
                   error := None;
                   retryCount := retryCount prev;
                   retryMessage := retryMessage prev;
                   etag := etag prev;
                   lastModified := lastModified prev;
                   lastFetchTime := lastFetchTime prev |}) c in
  if negb (truthy productId) then
    (safeSetState currentRequestId
       (fun prev =>
          {| product := product prev;
             loading := false;
             error := Some (js "Product ID is required");
             retryCount := retryCount prev;
             retryMessage := retryMessage prev;
             etag := etag prev;
             lastModified := lastModified prev;
             lastFetchTime := lastFetchTime prev |}) c,
     None)
  else
    (safeSetState currentRequestId
       (fun prev =>
          {| product := product prev;
             loading := true;
             error := None;
             retryCount := retryCount prev;
             retryMessage := retryMessage prev;
             etag := etag prev;
             lastModified := lastModified prev;
             lastFetchTime := lastFetchTime prev |}) c,
     Some {| currentRequestId := currentRequestId;
             requestedId := productId;
             startedAt := now;
             sent_etag := etag closure;
             sent_lastModified := lastModified closure;
             sent_cache := negb force |}).

(** [err.code === 'REQUEST_CANCELLED' || err.name === 'AbortError'] *)
Definition isCancellation (err : exn) : bool :=
  fieldIs (errCode err) (js "REQUEST_CANCELLED")
  || fieldIs (errName err) (js "AbortError").

(** The [catch] block of [fetchProduct]. *)
Definition fetchProduct_catch (p : pending) (err : exn) (c : component)
  : component :=
  if isCancellation err then c (* Don't update state for cancelled requests *)
  else
    safeSetState (currentRequestId p)
      (fun prev =>
         {| product := product prev;
            loading := false;
            error := Some (errorText err);
            retryCount := retryCount prev + 1;
            retryMessage := retryMessage prev;
            etag := etag prev;
            lastModified := lastModified prev;
            lastFetchTime := lastFetchTime prev |}) c.

(** [fetchProduct] from its [await] on, once [getProductById] has
    settled with [r]. *)
Definition fetchProduct_resume (p : pending) (r : result value) (c : component)
  : component :=
  match r with
  | Return productData =>
      if negb (truthy productData)
      then fetchProduct_catch p (Api.Error (js "Product not found")) c
      else
        safeSetState (currentRequestId p)
          (fun prev =>
             {| product := productData;
                loading := false;
                error := None;
                retryCount := 0; (* Reset retry count on success *)
                retryMessage := retryMessage prev;
                etag := orElse (getProperty productData (js "etag")) (etag prev);
                lastModified :=
                  orElse (getProperty productData (js "lastModified"))
                         (lastModified prev);
                lastFetchTime := Some (startedAt p) |}) c
  | Throw err => fetchProduct_catch p err c
  end.

(** The effect for cache revalidation: whether [checkAndRefresh] calls
    [fetchProduct(signal, true)] at time [now]. *)
Definition checkAndRefresh (s : state) (cacheTimeout now : Z) : bool :=
  match lastFetchTime s with
  | Some t => negb (t =? 0) && (cacheTimeout <=? now - t)
  | None => false
  end.

(** The body of the effect for retries, run in state [s]: the delay of
    the timer it sets, if any ([retryCount] counts failures and is
    never negative). *)
Definition retryEffect (s : state) : option Z :=
  if truthyString (error s) && (retryCount s <? 3)
  then Some (Z.min (1000 * 2 ^ retryCount s) 5000)
  else None.

(** [Object.is] on two values of [state.error], each [null] or a
    string. *)
Definition sameError (a b : option jsstring) : bool :=
  match a, b with
  | None, None => true
  | Some x, Some y => str_eqb x y
  | _, _ => false
  end.

(** The dependency array of the effect for retries,
    [[state.error, state.retryCount, fetchProduct]], between two
    consecutive renders; [fetchProduct] is a new function exactly when
    [productId] has changed. *)
Definition retryDepsChanged (previous current : state)
           (fetchProductChanged : bool) : bool :=
  fetchProductChanged
  || negb (sameError (error previous) (error current))
  || negb (retryCount previous =? retryCount current).

(** The effect for retries after a render that follows another one.
    When no dependency has changed the effect is left alone ([None]):
    no timer is set, and a timer that is pending stays.  Otherwise its
    cleanup clears the pending timer and its body runs ([Some t], with
    [t] the timer that the body sets, if any).  The updates that one
    run of [fetchProduct] makes before its [await] reach the component
    together, in one render. *)
Definition retryEffectAfter (previous current : state)
           (fetchProductChanged : bool) : option (option Z) :=
  if retryDepsChanged previous current fetchProductChanged
  then Some (retryEffect current)
  else None.

Fixpoint startsWith (s p : jsstring) : bool :=
  match p, s with
  | [], _ => true
  | x :: p', y :: s' => N.eqb x y && startsWith s' p'
  | _ :: _, [] => false
  end.

(** [s.includes(p)] *)
Fixpoint includes (s p : jsstring) : bool :=
  startsWith s p
  || match s with
     | [] => false
     | _ :: r => includes r p
     end.

(** What the component renders. *)
Inductive view : Type :=
| Null
| LoadingContainer
| ErrorMessage (text : jsstring) (networkError : bool) (retryButton : bool)
| NotFoundMessage
| ProductContainer (product : value).

Definition renderLoadingState (s : state) : view :=
  if negb (loading s) then Null else LoadingContainer.

Definition renderErrorState (s : state) : view :=
  match error s with
  | Some (c :: m) =>
      let canRetry := retryCount s <? 3 in
      let isNetworkError :=
        includes (c :: m) (js "Network") || includes (c :: m) (js "timeout") in
      ErrorMessage (c :: m) isNetworkError canRetry
  | _ => Null
  end.

Definition render (s : state) : view :=
  if loading s then renderLoadingState s
  else if truthyString (error s) then renderErrorState s
  else if negb (truthy (product s)) then NotFoundMessage
  else ProductContainer (product s).

(** The retry action is on offer when the view shows the button whose
    [onClick] is [fetchProduct]. *)
Definition retryActionAvailable (v : view) : bool :=
  match v with
  | ErrorMessage _ _ retryButton => retryButton
  | _ => false
  end.

(* ------------------------------------------------------------------ *)
(** *** The component over time

    The component with the property it was last rendered with, the
    state captured by the current [fetchProduct] closure (which
    [useCallback] renews when [productId] changes), and every call of
    [fetchProduct] that reached its [await], oldest first. *)

Record system : Type := mkSystem {
  comp : component;
  productId : value;
  closure : state;
  issued : list pending
}.

Inductive event : Type :=
| SetProductId (id : value) (now : Z)
    (* the subject is replaced: the component is rendered with the new
       [productId], and the effect on it aborts the call in flight and
       runs [fetchProduct(signal, true)]; taken as one step *)
| Refetch (now : Z) (force : bool)
    (* the retry timer, the revalidation check or the retry button
       runs [fetchProduct] *)
| Settle (k : nat) (r : result value)
    (* [getProductById] of the [k]-th issued call settles with [r] *)
| Unmount.

Definition start (id : value) (closure : state) (now : Z) (force : bool)
           (s : system) : system :=
  let '(c, p) := fetchProduct_begin id closure now force (comp s) in
  {| comp := c;
     productId := id;
     closure := closure;
     issued := match p with
               | Some p => issued s ++ [p]
               | None => issued s
               end |}.

Definition step (e : event) (s : system) : system :=
  match e with
  | SetProductId id now =>
      (* an unmounted component is not rendered again *)
      if mountedRef (comp s) then start id (st (comp s)) now true s else s
  | Refetch now force => start (productId s) (closure s) now force s
  | Settle k r =>
      match nth_error (issued s) k with
      | Some p =>
          {| comp := fetchProduct_resume p r (comp s);
             productId := productId s;
             closure := closure s;
             issued := issued s |}
      | None => s
      end
  | Unmount =>
      {| comp := {| st := st (comp s);
                    requestIdRef := requestIdRef (comp s);
                    mountedRef := false |};
         productId := productId s;
         closure := closure s;
         issued := issued s |}
  end.

Definition run (evs : list event) (s : system) : system :=
  fold_left (fun s e => step e s) evs s.

(** The component right after it is mounted, before its first effect. *)
Definition mounted : system :=
  {| comp := {| st := initialState; requestIdRef := 0; mountedRef := true |};
     productId := VUndefined;
     closure := initialState;
     issued := [] |}.

(** The calls of [getProductById] that have settled along a run, each
    with the closure of the [fetchProduct] call that awaited it. *)
Fixpoint settlements (evs : list event) (s : system)
  : list (pending * result value) :=
  match evs with
  | [] => []
  | e :: rest =>
      match e with
      | Settle k r =>
          match nth_error (issued s) k with
          | Some p => [(p, r)]
          | None => []
          end
      | _ => []
      end ++ settlements rest (step e s)
  end.

(** The view is the product container. *)
Definition isSuccess (s : state) : Prop :=
  loading s = false /\ truthyString (error s) = false
  /\ truthy (product s) = true.

Definition isChange (e : event) : bool :=
  match e with SetProductId _ _ => true | _ => false end.

End ProductPage.

(* ================================================================== *)
(** ** Vocabulary of the statements *)

Module Spec.

Import Transformers Api ProductService ProductPage.

(** A rejection of the transport that carries an HTTP response. *)
Definition httpError (status : Z) : exn :=
  {| errClass := ClassError;
     errName := Some (js "AxiosError");
     errMessage := Some (js "An error occurred while processing your request");
     errCode := Some (js "ERR_BAD_RESPONSE");
     errStatus := None;
     errResponse := Some {| status := status;
                            data := Some (VObject []);
                            header_etag := VUndefined;
                            header_lastModified := VUndefined |};
     errRequest := true;
     errRetryable := false;
     errRetryDelay := None |}.

(** Normalization of a collection element fails. *)
Definition failsNormalization (product : value) : bool :=
  match transformProductResponse product with
  | Throw _ => true
  | Return _ => false
  end.

(** The canonical records of the elements that normalize, in order. *)
Fixpoint normalized (items : list value) : list object :=
  match items with
  | [] => []
  | product :: rest =>
      match transformProductResponse product with
      | Return t => t :: normalized rest
      | Throw _ => normalized rest
      end
  end.

(** The elements that fail, with their positions. *)
Definition failing (items : list value) : list (Z * value) :=
  filter (fun p => failsNormalization (snd p)) (indexed 0 items).

(** The per-item error entries that a result carries. *)
Definition errorEntries (r : productsResult) : list transformErrorEntry :=
  match r with
  | ProductsOnly _ => []
  | ResponseData _ (Some errors) _ => errors
  | ResponseData _ None _ => []
  end.

Definition productsOf (r : productsResult) : list object :=
  match r with
  | ProductsOnly products => products
  | ResponseData products _ _ => products
  end.

(** The filters are acceptable: an object, or omitted. *)
Definition filtersAccepted (filters : value) : bool :=
  jstype_eqb (typeof (defaultTo filters (VObject []))) TObject
  && negb (isNull filters).

(** [allowEmpty] as [getProducts] reads it from its options. *)
Definition allowsEmpty (options : listOptions) : bool :=
  truthy (defaultTo (lopt_allowEmpty options) (VBool true)).

(** A state of the component in which the error view is shown. *)
Definition errorState (message : jsstring) (count : Z) : state :=
  {| product := VNull;
     loading := false;
     error := Some message;
     retryCount := count;
     retryMessage := VNull;
     etag := VNull;
     lastModified := VNull;
     lastFetchTime := None |}.

(** The six canonical fields. *)
Definition canonicalKeys : list jsstring :=
  [ js "id"; js "title"; js "description"; js "price"; js "image";
    js "category" ].

Definition isCanonical (key : jsstring) : bool :=
  existsb (str_eqb key) canonicalKeys.

(** A string of the form [d...d.dd]. *)
Definition twoDecimals (s : jsstring) : Prop :=
  exists whole d1 d2,
    s = whole ++ [46%N; d1; d2] /\ whole <> []
    /\ forallb isDigit whole = true /\ isDigit d1 = true /\ isDigit d2 = true.

(** A 304 response as the transport delivers it: no body. *)
Definition notModified (etag lastModified : value) : response :=
  {| status := 304;
     data := Some (VString []);
     header_etag := etag;
     header_lastModified := lastModified |}.

Definition withRetries (retries : Z) : options :=
  {| opt_signal := None;
     opt_timeout := VUndefined;
     opt_retries := VNumber (num retries);
     opt_retryDelay := VUndefined;
     opt_cache := VUndefined;
     opt_etag := VUndefined;
     opt_lastModified := VUndefined |}.

(** The delays of the timers among the effects, in milliseconds. *)
Definition delays (effects : list effect) : list (option Z) :=
  flat_map (fun e => match e with
                     | SetTimeout ms => [exactInteger ms]
                     | ApiGet _ _ => []
                     end) effects.

(** A payload of three elements: a record, [null], and a record whose
    field [hasOwnProperty] makes the normalizer fail. *)
Definition samplePayload : list value :=
  [ VObject [ (js "id", VString (js "1"));
              (js "price", VNumber (ofDecimal false 1099 100)) ];
    VNull;
    VObject [ (js "id", VString (js "3"));
              (js "hasOwnProperty", VBool true);
              (js "color", VString (js "red")) ] ].

Definition okResponse (payload : value) : response :=
  {| status := 200;
     data := Some payload;
     header_etag := VUndefined;
     header_lastModified := VUndefined |}.

Definition defaultListOptions : listOptions :=
  {| lopt_aborted := false; lopt_allowEmpty := VUndefined |}.

(** Every issued call holds a token that was minted, and the call
    holding the latest token asked for the current product id. *)
Definition wellTokened (s : system) : Prop :=
  forall p, In p (issued s) ->
    currentRequestId p <= requestIdRef (comp s)
    /\ (currentRequestId p = requestIdRef (comp s) ->
        requestedId p = productId s).

(** A product on display was delivered to a call for the current id. *)
Definition justified (settled : list (pending * result value)) (s : system)
  : Prop :=
  isSuccess (st (comp s)) ->
  exists p v, In (p, Return v) settled /\ requestedId p = productId s
              /\ product (st (comp s)) = v.

(** The first [n] issued calls can no longer touch the state. *)
Definition superseded (n : nat) (s : system) : Prop :=
  forall k p, (k < n)%nat -> nth_error (issued s) k = Some p ->
    mountedRef (comp s) = false
    \/ currentRequestId p < requestIdRef (comp s).

(** Teardown, or replacement of the subject. *)
Definition isCancel (e : event) : bool :=
  match e with
  | Unmount | SetProductId _ _ => true
  | _ => false
  end.

Definition changeEvents (changes : list (value * Z)) : list event :=
  map (fun c => SetProductId (fst c) (snd c)) changes.

Definition sampleRecord (id : string) : value :=
  VObject [ (js "id", VString (js id)); (js "price", VString (js "9.99")) ].

(** The record has no field that interferes with the copying loop. *)
Definition plainKeys (props : list (jsstring * value)) : bool :=
  forallb (fun kv => negb (str_eqb (fst kv) (js "__proto__"))
                     && negb (str_eqb (fst kv) (js "hasOwnProperty")))
          props.

(** The six canonical fields that [transformProductResponse] builds. *)
Definition canonicalFields (data : value) : list (jsstring * value) :=
  [ (js "id", nullish (getProperty data (js "id")) (VString []));
    (js "title",
     nullish (getProperty data (js "title")) (VString (js "Untitled Product")));
    (js "description",
     nullish (getProperty data (js "description"))
             (VString (js "No description available")));
    (js "price", VString (transformPrice (getProperty data (js "price"))));
    (js "image", nullish (getProperty data (js "image")) VNull);
    (js "category",
     nullish (getProperty data (js "category")) (VString (js "Uncategorized"))) ].

(** The number that [transformPrice] rounds and prints, when the price
    gets that far: a number that is not NaN, or a string that reads as
    an unsigned decimal. *)
Definition priceNumber (price : value) : option number :=
  if isNull price || isUndefined price
     || (jstype_eqb (typeof price) TObject
         && (length (Object_keys price) =? 0)%nat)
  then None
  else
    match price with
    | VString s =>
        let cleanPrice := trim (removeAll currencyOrSeparator s) in
        if test unsignedDecimal cleanPrice
        then (if isNaN (parseFloat cleanPrice) then None
              else Some (parseFloat cleanPrice))
        else None
    | VNumber n => if isNaN n then None else Some n
    | _ => None
    end.

(** [Math.round(Math.max(0, price) * 100) / 100] *)
Definition roundedPrice (n : number) : number :=
  div (Math_round (mul (Math_max (num 0) n) (num 100))) (num 100).

(** Positive infinity, or a finite number that is not negative. *)
Definition nonNegative (x : number) : Prop :=
  x = Infinity false \/ exists m e, x = Finite m e /\ 0 <= m.

(** The timers among the effects, as set. *)
Definition timeouts (effects : list effect) : list number :=
  flat_map (fun e => match e with
                     | SetTimeout ms => [ms]
                     | ApiGet _ _ => []
                     end) effects.

End Spec.

(* ================================================================== *)
(** ** services/api: the instance with both interceptors *)

Module Wire.

Import Api ProductService.

(** [x + y] *)
Definition add (x y : number) : number :=
  match x, y with
  | NaN, _ | _, NaN => NaN
  | Infinity a, Infinity b => if eqb a b then x else NaN
  | Infinity _, _ => x
  | _, Infinity _ => y
  | NegZero, NegZero => NegZero
  | _, _ =>
      let '(m1, e1) := dyadic x in
      let '(m2, e2) := dyadic y in
      let e := Z.min e1 e2 in
      let sum := m1 * 2 ^ (e1 - e) + m2 * 2 ^ (e2 - e) in
      if sum =? 0 then Finite 0 0
      else if 0 <=? e then round64 (sum <? 0) (Z.abs sum * 2 ^ e) 1
      else round64 (sum <? 0) (Z.abs sum) (2 ^ (- e))
  end.

(** [x < y] *)
Definition lt (x y : number) : bool :=
  match compareNumber x y with
  | Some Lt => true
  | _ => false
  end.

(** SameValueZero, the equality of [Array.prototype.includes], on
    primitive values (objects are equal to nothing but themselves). *)
Definition sameValueZero (a b : value) : bool :=
  match a, b with
  | VUndefined, VUndefined | VNull, VNull => true
  | VBool x, VBool y => eqb x y
  | VString x, VString y => str_eqb x y
  | VNumber x, VNumber y =>
      match x, y with
      | NaN, NaN => true
      | Infinity p, Infinity q => eqb p q
      | (NegZero | Finite _ _), (NegZero | Finite _ _) =>
          match compareFinite x y with Eq => true | _ => false end
      | _, _ => false
      end
  | _, _ => false
  end.

(** [array.includes(v)] *)
Definition Array_includes (array v : value) : bool :=
  match array with
  | VArray items => existsb (fun item => sameValueZero item v) items
  | _ => false
  end.

(** An error of axios before the interceptor has touched it. *)
Record axiosError : Type := mkAxiosError {
  ax_code : option jsstring;
  ax_message : jsstring;
  ax_response : option response;
  ax_request : option value        (* [.request], as its [.status] *)
}.

(** What the transport does with one request that was sent. *)
Inductive answer : Type :=
| Delivered (r : response)          (* a response arrived *)
| Failed (e : axiosError)           (* no response: network error, timeout *)
| Cancelled.                        (* the request was cancelled *)

(** What the instance does to the outside world, in order. *)
Inductive wire : Type :=
| Sent (cacheControl : option jsstring)
| Delay (ms : number).

(** A whole number read from [DEFAULT_CONFIG] into a template string. *)
Definition configText (key : string) : jsstring :=
  match exactInteger (ToNumber (getProperty DEFAULT_CONFIG (js key))) with
  | Some z => decimal z
  | None => js "NaN"
  end.

(** The request interceptor: the [Cache-Control] header that it sets,
    unless [config.cache] is [false]. *)
Definition requestInterceptor (cache : value) : option jsstring :=
  match cache with
  | VBool false => None
  | _ => Some (js "max-age=" ++ configText "cacheMaxAge"
               ++ js ", stale-while-revalidate="
               ++ configText "staleWhileRevalidate")
  end.

(** Determines if a request should be retried based on error. *)
Definition isRetryableError (error : axiosError) : bool :=
  match ax_response error with
  | None => true (* Network errors should be retried *)
  | Some response =>
      Array_includes (getProperty DEFAULT_CONFIG (js "retryStatusCodes"))
                     (VNumber (num (status response)))
  end.

(** The error with which axios rejects a response whose status
    [validateStatus] turns down (the code is the one of axios 1; it is
    never [ECONNABORTED]). *)
Definition statusError (r : response) : axiosError :=
  {| ax_code :=
       if (400 <=? status r) && (status r <? 500) then Some (js "ERR_BAD_REQUEST")
       else if (500 <=? status r) && (status r <? 600)
            then Some (js "ERR_BAD_RESPONSE")
            else None;
     ax_message := js "Request failed with status code " ++ decimal (status r);
     ax_response := Some r;
     ax_request := Some (VNumber (num (status r))) |}.

(** The error object as it is rejected, with its message set. *)
Definition rejection (error : axiosError) (message : jsstring) : exn :=
  {| errClass := ClassError;
     errName := Some (js "AxiosError");
     errMessage := Some message;
     errCode := ax_code error;
     errStatus := None;
     errResponse := ax_response error;
     errRequest := match ax_request error with Some _ => true | None => false end;
     errRetryable := false;
     errRetryDelay := None |}.

(** The record with which a cancelled request is rejected. *)
Definition cancellation : exn :=
  {| errClass := ClassPlainObject;
     errName := None;
     errMessage := Some (js "Request cancelled");
     errCode := None;
     errStatus := None;
     errResponse := None;
     errRequest := false;
     errRetryable := false;
     errRetryDelay := None |}.

(** Handle common error scenarios: the message of the final rejection. *)
Definition finalMessage (error : axiosError) : jsstring :=
  match ax_response error with
  | Some response =>
      (* Server responded with error status *)
      let s := status response in
      if s =? 400 then js "Bad request - please check your input"
      else if s =? 401 then js "Unauthorized - please authenticate"
      else if s =? 403
      then js "Forbidden - you don't have permission to access this resource"
      else if s =? 404 then js "Resource not found"
      else if s =? 429 then js "Too many requests - please try again later"
      else if s =? 500 then js "Internal server error"
      else if s =? 502 then js "Bad gateway - the server is unreachable"
      else if s =? 503 then js "Service unavailable - please try again later"
      else js "An error occurred while processing your request"
  | None =>
      match ax_request error with
      | Some requestStatus =>
          (* Request made but no response received *)
          if sameValueZero requestStatus (VNumber (num 0))
          then js "Unable to connect to the server - please check your internet connection"
          else js "No response received from server"
      | None =>
          (* Something happened in setting up the request *)
          match ax_message error with
          | [] => js "An unexpected error occurred"
          | m => m
          end
      end
  end.

(** [`Request timed out after ${config.timeout}ms`], for a timeout
    given as a whole number of milliseconds. *)
Definition timeoutMessage (timeout : Z) : jsstring :=
  js "Request timed out after "
  ++ (if timeout <? 0 then js "-" ++ decimal (- timeout) else decimal timeout)
  ++ js "ms".

Record settings : Type := mkSettings {
  set_validateStatus : Z -> bool;
  set_timeout : Z;
  set_cache : value
}.

(** [api(config)]: the request goes out, and the interceptors see what
    comes back; a retry sends the same [config] again.  [answers] are
    the answers of the transport to the successive sends, [random] the
    successive results of [Math.random()], [retryCount] is
    [config.retryCount] (a count, never negative) and [draws] the
    number of random numbers drawn so far. *)
Fixpoint request (config : settings) (random : nat -> number)
         (answers : list answer) (retryCount : Z) (draws : nat)
  : list wire * promise response :=
  let sent := Sent (requestInterceptor (set_cache config)) in
  match answers with
  | [] => ([sent], Pending)
  | a :: rest =>
      (* the rejected side of the response interceptor *)
      let rejected (error : axiosError) :=
        (* Handle timeout errors specifically *)
        if fieldIs (ax_code error) (js "ECONNABORTED")
           && ProductPage.includes (ax_message error) (js "timeout")
        then ([sent],
              Settled (Throw (rejection error
                                        (timeoutMessage (set_timeout config)))))
        (* Check if we should retry the request *)
        else if lt (num retryCount)
                   (ToNumber (getProperty DEFAULT_CONFIG (js "maxRetryAttempts")))
                && isRetryableError error
        then
          let retryCount := retryCount + 1 in
          (* Exponential backoff delay with jitter *)
          let backoffDelay :=
            mul (ToNumber (getProperty DEFAULT_CONFIG (js "retryDelay")))
                (Math_pow2 (retryCount - 1)) in
          let jitter := mul (random draws) (num 100) in
          (* Retry the request *)
          let '(effects, p) := request config random rest retryCount (S draws) in
          (sent :: Delay (add backoffDelay jitter) :: effects, p)
        else ([sent], Settled (Throw (rejection error (finalMessage error)))) in
      match a with
      | Delivered r =>
          if set_validateStatus config (status r)
          then ([sent], Settled (responseInterceptor (Some r)))
          else rejected (statusError r)
      | Failed e => rejected e
      | Cancelled =>
          (* Handle request cancellation *)
          ([sent], Settled (Throw cancellation))
      end
  end.

(** [api.get(url, config)]: the request interceptor seeds the count of
    retries with 0. *)
Definition get (config : settings) (random : nat -> number)
           (answers : list answer) : list wire * promise response :=
  request config random answers 0 0.

Definition sends (effects : list wire) : nat :=
  length (filter (fun e => match e with Sent _ => true | _ => false end) effects).

Definition waits (effects : list wire) : list number :=
  flat_map (fun e => match e with Delay ms => [ms] | Sent _ => [] end) effects.

(** A network failure: the request went out, nothing came back. *)
Definition networkError : axiosError :=
  {| ax_code := Some (js "ERR_NETWORK");
     ax_message := js "Network Error";
     ax_response := None;
     ax_request := Some (VNumber (num 0)) |}.

(** The timeout of the transport. *)
Definition timeoutError (timeout : Z) : axiosError :=
  {| ax_code := Some (js "ECONNABORTED");
     ax_message := js "timeout of " ++ decimal timeout ++ js "ms exceeded";
     ax_response := None;
     ax_request := Some (VNumber (num 0)) |}.

End Wire.

(* ================================================================== *)
(** ** components/ProductPage: the product container *)

Module Display.

(** [typeof product.price === 'number' ? product.price.toFixed(2) : '0.00'],
    the text after the dollar sign. *)
Definition priceText (product : value) : jsstring :=
  match getProperty product (js "price") with
  | VNumber n => toFixed2 n
  | _ => js "0.00"
  end.

(** [product.title || 'Untitled Product'] *)
Definition titleText (product : value) : value :=
  orElse (getProperty product (js "title")) (VString (js "Untitled Product")).

(** [product.description || 'No description available'] *)
Definition descriptionText (product : value) : value :=
  orElse (getProperty product (js "description"))
         (VString (js "No description available")).

(** [product.image || '/placeholder-image.png'] *)
Definition imageSource (product : value) : value :=
  orElse (getProperty product (js "image"))
         (VString (js "/placeholder-image.png")).

End Display.

(* ================================================================== *)
(** ** Vocabulary of the further properties *)

Module Laws.

Import Transformers Api ProductService ProductPage Spec.

(** The strings that a regular expression denotes. *)
Inductive matches : regex -> jsstring -> Prop :=
| MEps : matches Eps []
| MClass p c : p c = true -> matches (Class p) [c]
| MSeq r1 r2 s1 s2 :
    matches r1 s1 -> matches r2 s2 -> matches (Seq r1 r2) (s1 ++ s2)
| MAltL r1 r2 s : matches r1 s -> matches (Alt r1 r2) s
| MAltR r1 r2 s : matches r2 s -> matches (Alt r1 r2) s
| MStarNil r : matches (Star r) []
| MStarApp r s1 s2 :
    matches r s1 -> matches (Star r) s2 -> matches (Star r) (s1 ++ s2).

Definition digits (s : jsstring) : Prop := forallb isDigit s = true.

(** The decimal point. *)
Definition point : N := 46%N.

(** What is left of a price string once the currency signs, commas and
    blanks are taken out. *)
Definition cleaned (s : jsstring) : jsstring :=
  removeAll currencyOrSeparator s.

(** The string is [digits] or [digits.digits] or [.digits]. *)
Definition unsignedDecimalForm (c : jsstring) : Prop :=
  (digits c /\ c <> [])
  \/ exists ip fp, c = ip ++ point :: fp /\ digits ip /\ digits fp /\ fp <> [].

(** The price that a whole number of cents prints as. *)
Definition priceOf (whole fraction : jsstring) : jsstring :=
  toFixed2 (roundedPrice (round64 false (digitsValue (whole ++ fraction))
                                  (10 ^ Z.of_nat (length fraction)))).

(** The text fields and their defaults. *)
Definition fieldDefault (key : jsstring) : option value :=
  if str_eqb key (js "id") then Some (VString [])
  else if str_eqb key (js "title") then Some (VString (js "Untitled Product"))
  else if str_eqb key (js "description")
  then Some (VString (js "No description available"))
  else if str_eqb key (js "image") then Some VNull
  else if str_eqb key (js "category") then Some (VString (js "Uncategorized"))
  else None.

(** The codes that the classifier can settle on. *)
Definition classifierCodes : list errorCode :=
  [ TRANSFORM_ERROR; TIMEOUT; VALIDATION_ERROR; UNAUTHORIZED; FORBIDDEN;
    NOT_FOUND; RATE_LIMIT; SERVER_ERROR; NETWORK_ERROR; UNKNOWN_ERROR ].

Definition retryableCodes : list errorCode :=
  [ TIMEOUT; NETWORK_ERROR; SERVER_ERROR; RATE_LIMIT; UNKNOWN_ERROR ].

(** An attempt of [getProductById] that fails with an error that is
    neither an APIError nor an abort: a rejection of the transport, a
    response without body, a body that the normalizer turns down. *)
Definition retriedFailure (NODE_ENV : value) (t : transport) : bool :=
  match attemptOnce NODE_ENV t with
  | Throw e => negb (instanceofAPIError e) && negb (isAbortError e)
  | Return _ => false
  end.

(** The tokens of the issued calls, oldest first. *)
Definition tokens (s : system) : list Z :=
  map currentRequestId (issued s).

Fixpoint increasing (l : list Z) : Prop :=
  match l with
  | [] => True
  | a :: r => (forall b, In b r -> a < b) /\ increasing r
  end.

(** What holds of every state that the component reaches. *)
Definition reachable_inv (s : state) : Prop :=
  0 <= retryCount s
  /\ (loading s = true
      \/ truthyString (error s) = true
      \/ (truthy (product s) = true /\ retryCount s = 0
          /\ lastFetchTime s <> None)).

Definition tokens_inv (s : system) : Prop :=
  increasing (tokens s)
  /\ forall t, In t (tokens s) -> 0 < t <= requestIdRef (comp s).

(** The state in which [fetchProduct] leaves a mounted component that
    has no product id. *)
Definition withoutProductId (prev : state) : state :=
  {| product := product prev;
     loading := false;
     error := Some (js "Product ID is required");
     retryCount := retryCount prev;
     retryMessage := retryMessage prev;
     etag := etag prev;
     lastModified := lastModified prev;
     lastFetchTime := lastFetchTime prev |}.

(** Runs of [fetchProduct] by a timer or the retry button, one after
    the other. *)
Definition refetches (runs : list (Z * bool)) : list event :=
  map (fun r => Refetch (fst r) (snd r)) runs.

(** A failure that is not a cancellation. *)
Definition failure (err : exn) : Prop := isCancellation err = false.

(** The automatic retries that fail one after the other: each round
    runs [fetchProduct], and the call it issues (the [k]-th, then the
    next) is rejected. *)
Fixpoint failedRounds (k : nat) (errors : list exn) : list event :=
  match errors with
  | [] => []
  | err :: rest =>
      Refetch 0 false :: Settle k (Throw err) :: failedRounds (S k) rest
  end.

(** [error.code === 'ECONNABORTED' && error.message.includes('timeout')] *)
Definition isTimeout (error : Wire.axiosError) : bool :=
  fieldIs (Wire.ax_code error) (js "ECONNABORTED")
  && includes (Wire.ax_message error) (js "timeout").

(** The error that the interceptor sees for an answer of the transport,
    if any: a response is an error when [validateStatus] turns its
    status down. *)
Definition errorOf (config : Wire.settings) (a : Wire.answer)
  : option Wire.axiosError :=
  match a with
  | Wire.Delivered r =>
      if Wire.set_validateStatus config (status r) then None
      else Some (Wire.statusError r)
  | Wire.Failed e => Some e
  | Wire.Cancelled => None
  end.

(** An answer after which the interceptor sends the request again, as
    long as it has retries left. *)
Definition transient (config : Wire.settings) (a : Wire.answer) : bool :=
  match errorOf config a with
  | Some e => negb (isTimeout e) && Wire.isRetryableError e
  | None => false
  end.

(** The statuses of [DEFAULT_CONFIG.retryStatusCodes]. *)
Definition retryStatusCodes : list Z := [408; 429; 500; 502; 503; 504].

(** An option that is a number, or is omitted. *)
Definition numberOrOmitted (v : value) : bool :=
  match v with
  | VNumber _ | VUndefined => true
  | _ => false
  end.

(** The standard settings of a request of [getProductById]. *)
Definition productSettings : Wire.settings :=
  {| Wire.set_validateStatus := REQUEST_CONFIG_validateStatus;
     Wire.set_timeout := 5000;
     Wire.set_cache := VBool true |}.

(** A response with the given status and a record as its body. *)
Definition answerWith (status : Z) : response :=
  {| status := status;
     data := Some (VObject [(js "id", VString (js "1"))]);
     header_etag := VUndefined;
     header_lastModified := VUndefined |}.

(** [Math.random()] returning one half every time. *)
Definition oneHalf (_ : nat) : number := ofDecimal false 1 2.

End Laws.

Import Transformers Api ProductService ProductPage Spec Display Laws.

(* ================================================================== *)
(** ** Properties *)

(** *** The error classifier *)

Lemma classify_response (e : exn) (r : response) :
  errResponse e = Some r ->
  instanceofTransformError e = false ->
  fieldIs (errCode e) (js "ECONNABORTED") = false ->
  classify (Some e) =
    let s := if status r =? 0 then 500 else status r in
    if s =? 400 then VALIDATION_ERROR
    else if s =? 401 then UNAUTHORIZED
    else if s =? 403 then FORBIDDEN
    else if s =? 404 then NOT_FOUND
    else if s =? 422 then TRANSFORM_ERROR
    else if s =? 429 then RATE_LIMIT
    else if (s =? 500) || (s =? 502) || (s =? 503) || (s =? 504)
    then SERVER_ERROR
    else UNKNOWN_ERROR.
Proof.
  intros Hr Ht Hc. unfold classify. now rewrite Ht, Hc, Hr.
Qed.

Lemma handleApiError_code (e : option exn) :
  errCode (handleApiError e) = Some (codeName (classify e)).
Proof.
  unfold handleApiError. now destruct (info_retryable _).
Qed.

(** C5, as amended: for a failure that carries an HTTP response and is
    neither a TransformError nor coded ECONNABORTED, the classifier
    maps status 400 to VALIDATION_ERROR, 401 to UNAUTHORIZED, 403 to
    FORBIDDEN, 404 to NOT_FOUND, 422 to TRANSFORM_ERROR, 429 to
    RATE_LIMIT, the statuses 500, 502, 503 and 504 (and a status of 0,
    which is read as 500) to SERVER_ERROR, and every other status,
    501 and 505 among them, to UNKNOWN_ERROR. *)
Theorem C5_status_classification (e : exn) (r : response) :
  errResponse e = Some r ->
  instanceofTransformError e = false ->
  fieldIs (errCode e) (js "ECONNABORTED") = false ->
  let s := status r in
  let code := errCode (handleApiError (Some e)) in
  (s = 400 -> code = Some (js "VALIDATION_ERROR"))
  /\ (s = 401 -> code = Some (js "UNAUTHORIZED"))
  /\ (s = 403 -> code = Some (js "FORBIDDEN"))
  /\ (s = 404 -> code = Some (js "NOT_FOUND"))
  /\ (s = 422 -> code = Some (js "TRANSFORM_ERROR"))
  /\ (s = 429 -> code = Some (js "RATE_LIMIT"))
  /\ (In s [500; 502; 503; 504; 0] -> code = Some (js "SERVER_ERROR"))
  /\ (~ In s [400; 401; 403; 404; 422; 429; 500; 502; 503; 504; 0] ->
      code = Some (js "UNKNOWN_ERROR")).
Proof.
  intros Hr Ht Hc s code. subst code.
  rewrite handleApiError_code, (classify_response e r Hr Ht Hc).
  fold s. cbv zeta.
  repeat split.
  1-6: intros ->; reflexivity.
  - intros [<- | [<- | [<- | [<- | [<- | []]]]]]; reflexivity.
  - intros Hn. cbn in Hn.
    assert (Hs : (s =? 0) = false) by (apply Z.eqb_neq; intros ->; tauto).
    rewrite Hs.
    repeat match goal with
           | |- context [s =? ?k] =>
               let H := fresh in
               assert (H : (s =? k) = false)
                 by (apply Z.eqb_neq; intros ->; tauto);
               rewrite H; clear H
           end.
    reflexivity.
Qed.

Lemma C5_status_classification_witness :
  errCode (handleApiError (Some (httpError 503))) = Some (js "SERVER_ERROR")
  /\ errCode (handleApiError (Some (httpError 501))) = Some (js "UNKNOWN_ERROR").
Proof.
  pose proof (C5_status_classification (httpError 503) _ eq_refl eq_refl eq_refl)
    as H503.
  pose proof (C5_status_classification (httpError 501) _ eq_refl eq_refl eq_refl)
    as H501.
  cbv zeta in H503, H501.
  split.
  - apply H503. cbn. tauto.
  - apply H501. cbn. lia.
Defined.

(** C5, as stated, fails: status 501 is a 5xx status, and the
    classifier answers UNKNOWN_ERROR, not SERVER_ERROR. *)
Lemma C5_not_every_5xx_is_server_error :
  ~ (forall e r, errResponse e = Some r ->
                 500 <= status r <= 599 ->
                 errCode (handleApiError (Some e)) = Some (js "SERVER_ERROR")).
Proof.
  intros H.
  specialize (H (httpError 501) _ eq_refl).
  cbn in H. specialize (H ltac:(lia)). discriminate H.
Qed.

(** *** The retry effect and the retry button *)

Lemma safeSetState_requestIdRef id u c :
  requestIdRef (safeSetState id u c) = requestIdRef c.
Proof. unfold safeSetState. now destruct (_ && _). Qed.

Lemma safeSetState_mountedRef id u c :
  mountedRef (safeSetState id u c) = mountedRef c.
Proof. unfold safeSetState. now destruct (_ && _). Qed.

Lemma safeSetState_applied id u c :
  mountedRef c = true -> id = requestIdRef c ->
  st (safeSetState id u c) = u (st c).
Proof.
  intros Hm ->. unfold safeSetState. now rewrite Hm, Z.eqb_refl.
Qed.

Lemma safeSetState_dropped id u c :
  mountedRef c = false \/ id <> requestIdRef c ->
  safeSetState id u c = c.
Proof.
  intros [Hm | Hn]; unfold safeSetState.
  - now rewrite Hm.
  - apply Z.eqb_neq in Hn. rewrite Hn. now rewrite andb_false_r.
Qed.

Lemma fetchProduct_begin_token productId closure now force c :
  requestIdRef (fst (fetchProduct_begin productId closure now force c))
  = requestIdRef c + 1.
Proof.
  unfold fetchProduct_begin. cbv zeta.
  destruct (negb (truthy productId)); cbn [fst];
    now rewrite !safeSetState_requestIdRef.
Qed.

Lemma fetchProduct_begin_mountedRef productId closure now force c :
  mountedRef (fst (fetchProduct_begin productId closure now force c))
  = mountedRef c.
Proof.
  unfold fetchProduct_begin. cbv zeta.
  destruct (negb (truthy productId)); cbn [fst];
    now rewrite !safeSetState_mountedRef.
Qed.

Lemma fetchProduct_begin_loading productId closure now force c :
  mountedRef c = true -> truthy productId = true ->
  loading (st (fst (fetchProduct_begin productId closure now force c))) = true.
Proof.
  intros Hm Ht. unfold fetchProduct_begin. cbv zeta.
  rewrite Ht. cbn [negb fst].
  rewrite safeSetState_applied; [reflexivity | |].
  - now rewrite safeSetState_mountedRef.
  - now rewrite safeSetState_requestIdRef.
Qed.

Lemma fetchProduct_begin_pending productId closure now force c p :
  snd (fetchProduct_begin productId closure now force c) = Some p ->
  currentRequestId p = requestIdRef c + 1.
Proof.
  unfold fetchProduct_begin. cbv zeta.
  destruct (negb (truthy productId)); cbn [snd]; [discriminate|].
  now intros [= <-].
Qed.

(** C6, as amended: when the Error state is entered, that is, rendered
    with [state.error] or [state.retryCount] (or [fetchProduct])
    changed since the previous render, then while [retryCount < 3] an
    automatic retry is scheduled after
    [min(1000 * 2^retryCount, 5000)] milliseconds and the retry button
    is offered, and the run of [fetchProduct] that either one starts
    mints a new token, which its request carries; when
    [retryCount >= 3] no automatic retry is scheduled and no retry
    action is on offer. *)
Theorem C6_retry_is_gated_by_the_attempt_ceiling
        (previous s : state) (fetchProductChanged : bool) :
  loading s = false ->
  truthyString (error s) = true ->
  0 <= retryCount s ->
  retryDepsChanged previous s fetchProductChanged = true ->
  (retryCount s < 3 ->
     retryEffectAfter previous s fetchProductChanged
     = Some (Some (Z.min (1000 * 2 ^ retryCount s) 5000))
     /\ retryActionAvailable (render s) = true
     /\ forall productId closure now force c,
          st c = s ->
          requestIdRef (fst (fetchProduct_begin productId closure now force c))
          = requestIdRef c + 1
          /\ forall p,
               snd (fetchProduct_begin productId closure now force c) = Some p ->
               currentRequestId p = requestIdRef c + 1)
  /\ (3 <= retryCount s ->
        retryEffectAfter previous s fetchProductChanged = Some None
        /\ retryActionAvailable (render s) = false).
Proof.
  intros Hl He _ Hd.
  unfold retryEffectAfter, retryEffect, render, renderErrorState.
  rewrite Hd, Hl, He.
  unfold truthyString in He.
  destruct (error s) as [[|ch m]|]; try discriminate.
  split; intros Hc.
  - apply Z.ltb_lt in Hc. rewrite Hc. cbn [andb retryActionAvailable].
    repeat split.
    + apply fetchProduct_begin_token.
    + apply fetchProduct_begin_pending.
  - assert (Hf : (retryCount s <? 3) = false) by (apply Z.ltb_ge; lia).
    rewrite Hf. cbn [andb retryActionAvailable]. split; reflexivity.
Qed.

Lemma C6_retry_is_gated_by_the_attempt_ceiling_witness :
  retryEffectAfter (errorState (js "Network error") 1)
                   (errorState (js "Network error") 2) false
  = Some (Some 4000)
  /\ retryActionAvailable (render (errorState (js "Network error") 2)) = true
  /\ retryEffectAfter (errorState (js "Network error") 2)
                      (errorState (js "Network error") 3) false
     = Some None
  /\ retryActionAvailable (render (errorState (js "Network error") 3)) = false.
Proof.
  destruct (C6_retry_is_gated_by_the_attempt_ceiling
              (errorState (js "Network error") 1)
              (errorState (js "Network error") 2) false
              eq_refl eq_refl ltac:(cbn; lia) eq_refl) as [H2 _].
  destruct (C6_retry_is_gated_by_the_attempt_ceiling
              (errorState (js "Network error") 2)
              (errorState (js "Network error") 3) false
              eq_refl eq_refl ltac:(cbn; lia) eq_refl) as [_ H3].
  cbn [retryCount errorState] in H2, H3.
  destruct (H2 ltac:(lia)) as (A & B & _).
  destruct (H3 ltac:(lia)) as (C & D).
  repeat split; assumption.
Defined.

(** C6, as stated, fails twice.  In the Error state with
    [retryCount = 3] no retry action is on offer.  And being in the
    Error state with [retryCount < 3] does not mean that a retry is
    scheduled: a component without a product id that runs
    [fetchProduct] again comes back to the same Error state, with
    [retryCount = 0], nothing the retry effect depends on has changed,
    and the effect is not run. *)
Lemma C6_no_retry_action_at_the_ceiling :
  ~ (forall s, loading s = false -> truthyString (error s) = true ->
               3 <= retryCount s -> retryActionAvailable (render s) = true)
  /\ ~ (forall sys now force,
          let s := st (comp (step (Refetch now force) sys)) in
          loading s = false -> truthyString (error s) = true ->
          retryCount s < 3 ->
          exists t, retryEffectAfter (st (comp sys)) s false = Some (Some t)).
Proof.
  split; intros H.
  - specialize (H (errorState (js "Network error") 3) eq_refl eq_refl).
    cbn in H. specialize (H ltac:(lia)). discriminate H.
  - destruct (H (run [SetProductId VUndefined 0] mounted) 1000 false
                eq_refl eq_refl ltac:(cbn; lia)) as (t & Ht).
    vm_compute in Ht. discriminate Ht.
Qed.

(** *** getProductById: the attempt loop *)

(** C2 at the failing input: with [opts.retries] omitted the default is
    read from [DEFAULT_CONFIG.retries], which does not exist, so the
    loop test [0 <= undefined] fails at once: no attempt is made,
    whatever the transport would answer, and UNKNOWN_ERROR is raised. *)
Theorem C2_omitted_retries_makes_no_attempt
        (NODE_ENV : value) (script : list transport) :
  getProperty DEFAULT_CONFIG (js "retries") = VUndefined
  /\ countCalls (fst (getProductById NODE_ENV (VString (js "123"))
                                     noOptions script)) = 0%nat
  /\ snd (getProductById NODE_ENV (VString (js "123")) noOptions script)
     = Settled (Throw (handleApiError None)).
Proof. destruct script; repeat split; reflexivity. Qed.

(** With [retries: 2] given, as the product page gives it, a failing
    fetch is attempted three times, 1000 and 2000 milliseconds apart,
    before the error is raised. *)
Lemma getProductById_three_attempts (NODE_ENV : value) :
  let run := getProductById NODE_ENV (VString (js "123")) (withRetries 2)
               [Rejects (httpError 500); Rejects (httpError 500);
                Rejects (httpError 500)] in
  countCalls (fst run) = 3%nat
  /\ delays (fst run) = [Some 1000; Some 2000]
  /\ exists e, snd run = Settled (Throw e) /\ instanceofAPIError e = true.
Proof.
  cbv zeta. repeat split. eexists. split; reflexivity.
Qed.

Lemma compareFinite_num (a b : Z) : compareFinite (num a) (num b) = (a ?= b).
Proof.
  unfold compareFinite, num, dyadic. cbn. now rewrite !Z.mul_1_r.
Qed.

Lemma leq_num (a b : Z) : leq (num a) (num b) = (a <=? b).
Proof.
  unfold leq, compareNumber. cbn [num]. fold (num a) (num b).
  rewrite compareFinite_num. unfold Z.leb. now destruct (a ?= b).
Qed.

Lemma geq_num (a b : Z) : geq (num a) (num b) = (b <=? a).
Proof.
  unfold geq, compareNumber. cbn [num]. fold (num a) (num b).
  rewrite compareFinite_num. unfold Z.leb. rewrite (Z.compare_antisym a b).
  now destruct (a ?= b).
Qed.

Section AttemptLoop.

Variables (NODE_ENV productId : value) (config : requestConfig).
Variables (signal : option (nat -> bool)) (retryDelay : value).

(** The loop is bounded by [retries]: from [attempt] on, it calls the
    transport at most [retries + 1 - attempt] times. *)
Lemma attemptLoop_bounded (r : Z) (script : list transport) :
  forall attempt calls lastError,
    (countCalls (fst (attemptLoop NODE_ENV productId config signal
                                  (VNumber (num r)) retryDelay script
                                  attempt calls lastError))
     <= Z.to_nat (r + 1 - attempt))%nat.
Proof.
  induction script as [|t rest IH]; intros attempt calls lastError;
    cbn [attemptLoop ToNumber]; rewrite leq_num;
    destruct (Z.leb_spec attempt r); cbn [negb fst];
    try (cbn; lia).
  destruct (attemptOnce NODE_ENV t) as [v|error]; [cbn; lia|].
  destruct (isAbortError error || aborted signal (S calls)); [cbn; lia|].
  rewrite geq_num.
  destruct (negb _ || (r <=? attempt)) eqn:Hstop; [cbn; lia|].
  apply orb_false_iff in Hstop as [_ Hlt]. apply Z.leb_gt in Hlt.
  specialize (IH (attempt + 1) (S calls) (Some error)).
  destruct (attemptLoop NODE_ENV productId config signal (VNumber (num r))
                        retryDelay rest (attempt + 1) (S calls) (Some error))
    as [effects e].
  cbn in *. lia.
Qed.

(** Between two attempts the loop waits
    [retryDelay * Math.pow(2, attempt)]: the timers it sets are those
    of the consecutive attempts, in order. *)
Lemma attemptLoop_backoff (retries : value) (script : list transport) :
  forall attempt calls lastError,
    let effects := fst (attemptLoop NODE_ENV productId config signal retries
                                    retryDelay script attempt calls lastError) in
    timeouts effects
    = map (fun i => mul (ToNumber retryDelay)
                        (Math_pow2 (attempt + Z.of_nat i)))
          (seq 0 (length (timeouts effects))).
Proof.
  induction script as [|t rest IH]; intros attempt calls lastError;
    cbn [attemptLoop]; cbv zeta.
  - destruct (negb (leq (num attempt) (ToNumber retries))); reflexivity.
  - destruct (negb (leq (num attempt) (ToNumber retries))); [reflexivity|].
    destruct (attemptOnce NODE_ENV t) as [v|error]; [reflexivity|].
    destruct (isAbortError error || aborted signal (S calls)); [reflexivity|].
    destruct (negb _ || geq (num attempt) (ToNumber retries)); [reflexivity|].
    specialize (IH (attempt + 1) (S calls) (Some error)). cbv zeta in IH.
    destruct (attemptLoop NODE_ENV productId config signal retries retryDelay
                          rest (attempt + 1) (S calls) (Some error))
      as [effects e].
    cbn [fst timeouts flat_map app] in *.
    fold (timeouts effects) in *.
    cbn [length seq map]. rewrite Z.add_0_r. f_equal.
    rewrite IH at 1. rewrite <- seq_shift, map_map.
    apply map_ext. intros i. do 2 f_equal. lia.
Qed.

End AttemptLoop.

(** X10: [getProductById] with [retries] given calls the transport at
    most [retries + 1] times, whatever the transport answers. *)
Lemma getProductById_bounded NODE_ENV productId (r : Z) script :
  (countCalls (fst (getProductById NODE_ENV productId (withRetries r) script))
   <= Z.to_nat (r + 1))%nat.
Proof.
  unfold getProductById.
  destruct (negb (truthy productId)
            || negb (jstype_eqb (typeof productId) TString)); [cbn; lia|].
  cbv zeta. cbn [withRetries opt_retries opt_signal opt_timeout opt_retryDelay
                 opt_cache opt_etag opt_lastModified defaultTo isUndefined].
  match goal with
  | |- context [attemptLoop ?a ?b ?c ?d ?e ?f ?g ?h ?i ?j] =>
      pose proof (attemptLoop_bounded a b c d f r g h i j) as Hb;
      destruct (attemptLoop a b c d e f g h i j) as [effects e']
  end.
  cbn [fst] in Hb. rewrite Z.sub_0_r in Hb.
  destruct e'; cbn [fst]; exact Hb.
Qed.

(** X11: the backoff of [getProductById].  When [retries] and
    [retryDelay] are numbers or omitted ([retryDelay] then is 1000),
    the timers that a call sets are, in order,
    [retryDelay * Math.pow(2, i)] for [i = 0, 1, ...]: the wait doubles
    from one attempt to the next, starting at [retryDelay]. *)
Theorem getProductById_backoff
        (NODE_ENV productId : value) (options : options) (d : number)
        (script : list transport) :
  numberOrOmitted (opt_retries options) = true ->
  opt_retryDelay options = VNumber d
  \/ (opt_retryDelay options = VUndefined /\ d = num 1000) ->
  let effects := fst (getProductById NODE_ENV productId options script) in
  timeouts effects
  = map (fun i => mul d (Math_pow2 (Z.of_nat i)))
        (seq 0 (length (timeouts effects))).
Proof.
  intros _ Hd. cbv zeta. unfold getProductById.
  destruct (negb (truthy productId)
            || negb (jstype_eqb (typeof productId) TString)); [reflexivity|].
  cbv zeta.
  assert (Hdelay : ToNumber (defaultTo (opt_retryDelay options)
                                      (getProperty DEFAULT_CONFIG
                                                   (js "retryDelay")))
                   = d).
  { destruct Hd as [-> | [-> ->]]; reflexivity. }
  match goal with
  | |- context [attemptLoop ?a ?b ?c ?g ?e ?f ?h ?i ?j ?k] =>
      pose proof (attemptLoop_backoff a b c g f e h i j k) as Hb;
      destruct (attemptLoop a b c g e f h i j k) as [effects e']
  end.
  cbv zeta in Hb. cbn [fst] in Hb. rewrite Hdelay in Hb.
  destruct e'; cbn [fst]; exact Hb.
Qed.

Lemma getProductById_backoff_witness :
  timeouts (fst (getProductById (VString (js "production"))
                                (VString (js "42")) (withRetries 2)
                                [ Rejects (httpError 503);
                                  Rejects (httpError 503);
                                  Rejects (httpError 503) ]))
  = [ mul (num 1000) (Math_pow2 0); mul (num 1000) (Math_pow2 1) ].
Proof.
  apply (getProductById_backoff
           (VString (js "production")) (VString (js "42")) (withRetries 2)
           (num 1000)
           [ Rejects (httpError 503); Rejects (httpError 503);
             Rejects (httpError 503) ]).
  - reflexivity.
  - right. split; reflexivity.
Defined.

(** *** getProductById: the 304 response *)

Lemma responseInterceptor_rejects_empty_body (r : response) :
  truthy (responseData r) = false ->
  Api.get (Responds r)
  = Throw (Api.Error (js "Invalid response received from server")).
Proof.
  intros H. unfold Api.get, responseInterceptor. now rewrite H.
Qed.

(** C4 at the failing inputs: a 304 response has no body, and the
    response interceptor rejects every response without one, whatever
    its status; [getProductById] then takes the rejection for a
    retryable failure, asks again, and raises UNKNOWN_ERROR instead of
    returning the "not modified" result. *)
Theorem C4_not_modified_without_body_is_rejected
        (NODE_ENV : value) (r : response) :
  status r = 304 ->
  truthy (responseData r) = false ->
  REQUEST_CONFIG_validateStatus (status r) = true
  /\ Api.get (Responds r)
     = Throw (Api.Error (js "Invalid response received from server"))
  /\ countCalls (fst (getProductById NODE_ENV (VString (js "123"))
                                     (withRetries 2)
                                     [Responds r; Responds r; Responds r]))
     = 3%nat
  /\ snd (getProductById NODE_ENV (VString (js "123")) (withRetries 2)
                         [Responds r; Responds r; Responds r])
     = Settled (Throw (handleApiError None)).
Proof.
  intros Hs Hb.
  pose proof (responseInterceptor_rejects_empty_body r Hb) as Hg.
  split; [now rewrite Hs|].
  split; [exact Hg|].
  unfold getProductById. cbn -[Api.get attemptOnce].
  unfold attemptOnce. rewrite Hg.
  split; reflexivity.
Qed.

Lemma C4_not_modified_without_body_is_rejected_witness :
  snd (getProductById VUndefined (VString (js "123")) (withRetries 2)
         [Responds (notModified (VString (js "abc")) VUndefined);
          Responds (notModified (VString (js "abc")) VUndefined);
          Responds (notModified (VString (js "abc")) VUndefined)])
  = Settled (Throw (handleApiError None)).
Proof.
  apply (C4_not_modified_without_body_is_rejected
           VUndefined (notModified (VString (js "abc")) VUndefined)
           eq_refl eq_refl).
Defined.

(** A 304 response that does carry a body passes the interceptor, and
    [getProductById] answers with the cache validators alone. *)
Lemma getProductById_not_modified_with_body
      (NODE_ENV : value) (r : response) (rest : list transport) :
  status r = 304 ->
  truthy (responseData r) = true ->
  snd (getProductById NODE_ENV (VString (js "123")) (withRetries 2)
                      (Responds r :: rest))
  = Settled (Return (VObject [ (js "cached", VBool true);
                               (js "notModified", VBool true);
                               (js "etag", header_etag r);
                               (js "lastModified", header_lastModified r) ])).
Proof.
  intros Hs Hb.
  unfold getProductById. cbn -[Api.get attemptOnce].
  unfold attemptOnce, Api.get, responseInterceptor.
  rewrite Hb. cbn [negb]. rewrite Hs. reflexivity.
Qed.

(** *** transformPrice *)

Lemma twoDecimals_point (s : jsstring) :
  twoDecimals s -> nth_error (rev s) 2 = Some 46%N.
Proof.
  intros (whole & d1 & d2 & -> & _).
  now rewrite rev_app_distr.
Qed.

Lemma transformPrice_priceNumber (price : value) :
  transformPrice price
  = match priceNumber price with
    | Some n => toFixed2 (roundedPrice n)
    | None => js "0.00"
    end.
Proof.
  unfold transformPrice, priceNumber, roundedPrice.
  destruct (isNull price || isUndefined price
            || (jstype_eqb (typeof price) TObject
                && (length (Object_keys price) =? 0)%nat));
    [reflexivity|].
  destruct price as [| | b | n | s | items | props]; try reflexivity.
  - now destruct (isNaN n).
  - destruct (test unsignedDecimal (trim (removeAll currencyOrSeparator s)));
      cbn [negb]; [|reflexivity].
    now destruct (isNaN (parseFloat (trim (removeAll currencyOrSeparator s)))).
Qed.

Lemma div_half_even_nonneg (n d : Z) :
  0 <= n -> 0 < d -> 0 <= div_half_even n d.
Proof.
  intros Hn Hd. unfold div_half_even.
  pose proof (Z.div_pos n d Hn Hd).
  destruct (2 * (n mod d) ?= d); [destruct (Z.even (n / d))| |]; lia.
Qed.

Lemma round64_nonNegative (p q : Z) :
  0 <= p -> 0 < q -> nonNegative (round64 false p q).
Proof.
  intros Hp Hq. unfold round64.
  destruct (p =? 0); [right; exists 0, 0; cbn; split; [reflexivity | lia]|].
  cbv zeta.
  set (E := Z.max (ratio_log2 p q - 52) (-1074)).
  set (m := if 0 <=? E then div_half_even p (q * 2 ^ E)
            else div_half_even (p * 2 ^ (- E)) q).
  assert (Hm : 0 <= m).
  { unfold m. destruct (Z.leb_spec 0 E).
    - apply div_half_even_nonneg; [assumption|].
      apply Z.mul_pos_pos; [assumption|]. now apply Z.pow_pos_nonneg.
    - apply div_half_even_nonneg; [|assumption].
      apply Z.mul_nonneg_nonneg; [assumption|]. apply Z.pow_nonneg. lia. }
  destruct ((971 <? E) || ((E =? 971) && (2 ^ 53 <=? m))); [now left|].
  destruct (m =? 0); right; [exists 0, 0 | exists m, E]; cbn; split;
    try reflexivity; lia.
Qed.

Lemma Math_max_zero_nonNegative (n : number) :
  isNaN n = false -> nonNegative (Math_max (num 0) n).
Proof.
  intros Hn. destruct n as [| [|] | | m e]; try discriminate Hn.
  - right. exists 0, 0. cbn. split; [reflexivity | lia].
  - now left.
  - right. exists 0, 0. cbn. split; [reflexivity | lia].
  - unfold Math_max, num, compareFinite, dyadic.
    set (k := e - Z.min 0 e).
    assert (Hk : 0 < 2 ^ k) by (apply Z.pow_pos_nonneg; unfold k; lia).
    destruct (Z.compare_spec (0 * 2 ^ (0 - Z.min 0 e)) (m * 2 ^ k)) as [H|H|H];
      right.
    + exists 0, 0. cbn. split; [reflexivity | lia].
    + exists m, e. split; [reflexivity | nia].
    + exists 0, 0. split; [reflexivity | lia].
Qed.

Lemma mul_hundred_nonNegative (x : number) :
  nonNegative x -> nonNegative (mul x (num 100)).
Proof.
  intros [-> | (m & e & -> & Hm)]; [now left|].
  unfold mul, num, dyadic. cbn [isNegative].
  assert (Hs : xorb (m <? 0) (100 <? 0) = false).
  { assert (Hneg : (m <? 0) = false) by (apply Z.ltb_ge; lia).
    now rewrite Hneg. }
  rewrite Hs.
  destruct (0 <=? e + 0) eqn:He; apply round64_nonNegative; try lia;
    try (apply Z.mul_nonneg_nonneg; [lia | apply Z.pow_nonneg; lia]);
    try (apply Z.pow_pos_nonneg; [lia|]; apply Z.leb_gt in He; lia).
Qed.

Lemma Math_round_nonNegative (x : number) :
  nonNegative x -> nonNegative (Math_round x).
Proof.
  intros [-> | (m & e & -> & Hm)]; [now left|].
  unfold Math_round.
  destruct (0 <=? e); [right; now exists m, e|].
  assert (Hneg : (m <? 0) = false) by (apply Z.ltb_ge; lia).
  rewrite Hneg. apply round64_nonNegative; lia.
Qed.

Lemma div_hundred_nonNegative (x : number) :
  nonNegative x -> nonNegative (div x (num 100)).
Proof.
  intros [-> | (m & e & -> & Hm)]; [now left|].
  unfold div, num, dyadic. cbn [isNegative isZero].
  assert (Hs : xorb (m <? 0) (100 <? 0) = false).
  { assert (Hneg : (m <? 0) = false) by (apply Z.ltb_ge; lia).
    now rewrite Hneg. }
  rewrite Hs. cbn [Z.eqb].
  destruct (0 <=? e - 0) eqn:He; apply round64_nonNegative; try lia;
    try (apply Z.mul_nonneg_nonneg; [lia | apply Z.pow_nonneg; lia]);
    try (apply Z.mul_pos_pos; [lia|]; apply Z.pow_pos_nonneg; [lia|];
         apply Z.leb_gt in He; lia).
Qed.

Create HintDb sign discriminated.
#[local] Hint Resolve Math_max_zero_nonNegative mul_hundred_nonNegative
  Math_round_nonNegative div_hundred_nonNegative : sign.

Lemma roundedPrice_nonNegative (n : number) :
  isNaN n = false -> nonNegative (roundedPrice n).
Proof. intros Hn. unfold roundedPrice. auto with sign. Qed.

Lemma digitChar_isDigit (n : Z) : isDigit (digitChar (n mod 10)) = true.
Proof.
  pose proof (Z.mod_pos_bound n 10 ltac:(lia)) as H.
  unfold isDigit, digitChar.
  apply andb_true_intro. split; apply N.leb_le; lia.
Qed.

Lemma decimal_aux_digits (fuel : nat) : forall n acc,
  forallb isDigit acc = true ->
  forallb isDigit (decimal_aux fuel n acc) = true.
Proof.
  assert (Hstep : forall n acc, forallb isDigit acc = true ->
                    forallb isDigit (digitChar (n mod 10) :: acc) = true).
  { intros n acc Hacc. cbn [forallb]. now rewrite digitChar_isDigit. }
  induction fuel as [|f IH]; intros n acc Hacc; cbn [decimal_aux].
  - now apply Hstep.
  - destruct (n <? 10); [now apply Hstep | now apply IH, Hstep].
Qed.

Lemma decimal_digits (n : Z) : forallb isDigit (decimal n) = true.
Proof. now apply decimal_aux_digits. Qed.

Lemma zeros_digits (k : nat) : forallb isDigit (zeros k) = true.
Proof. induction k; [reflexivity | exact IHk]. Qed.

Lemma zeros_length (k : nat) : length (zeros k) = k.
Proof. induction k; cbn; [reflexivity | now rewrite IHk]. Qed.

Lemma point_before_last_two (ds : jsstring) :
  forallb isDigit ds = true -> (3 <= length ds)%nat ->
  twoDecimals (firstn (length ds - 2) ds ++ js "." ++ skipn (length ds - 2) ds).
Proof.
  intros Hd Hlen.
  set (k := (length ds - 2)%nat).
  pose proof (firstn_skipn k ds) as Hsplit.
  pose proof (length_skipn k ds) as Hs.
  pose proof (length_firstn k ds) as Hf.
  rewrite <- Hsplit, forallb_app in Hd. apply andb_prop in Hd as [Hd1 Hd2].
  destruct (skipn k ds) as [|d1 [|d2 [|d3 rest]]]; cbn [length] in Hs;
    try (unfold k in Hs; lia).
  cbn in Hd2. apply andb_prop in Hd2 as [Hx Hy].
  apply andb_prop in Hy as [Hy _].
  exists (firstn k ds), d1, d2. repeat split; try assumption.
  intros Hnil. rewrite Hnil in Hf. cbn in Hf. unfold k in Hf. lia.
Qed.

(** Below [10^21], [toFixed(2)] prints digits, a point, two digits. *)
Lemma toFixed2_twoDecimals (m e : Z) :
  0 <= m -> atLeast1e21 m e = false -> twoDecimals (toFixed2 (Finite m e)).
Proof.
  intros Hm Hbig. unfold toFixed2.
  assert (Hneg : (m <? 0) = false) by (apply Z.ltb_ge; lia).
  rewrite Hneg, (Z.abs_eq m Hm), Hbig. cbn [app].
  match goal with
  | |- twoDecimals (firstn _ ?ds ++ _) =>
      apply (point_before_last_two ds)
  end.
  - rewrite forallb_app, zeros_digits, decimal_digits. reflexivity.
  - rewrite length_app, zeros_length. lia.
Qed.

(** X3: what holds of [transformPrice] on every input: the result has
    two decimal digits unless the rounded price is infinite or at least
    [10^21]. *)
Lemma transformPrice_two_decimals_or_huge (price : value) :
  twoDecimals (transformPrice price)
  \/ exists n,
       priceNumber price = Some n
       /\ (roundedPrice n = Infinity false
           \/ exists m e, roundedPrice n = Finite m e
                          /\ atLeast1e21 m e = true).
Proof.
  rewrite transformPrice_priceNumber.
  destruct (priceNumber price) as [n|] eqn:Hp.
  - assert (Hn : isNaN n = false).
    { unfold priceNumber in Hp.
      destruct (isNull price || isUndefined price
                || (jstype_eqb (typeof price) TObject
                    && (length (Object_keys price) =? 0)%nat));
        [discriminate|].
      destruct price; try discriminate.
      - destruct (isNaN n0) eqn:E; [discriminate|]. now injection Hp as <-.
      - destruct (test _ _); [|discriminate].
        destruct (isNaN (parseFloat _)) eqn:E; [discriminate|].
        now injection Hp as <-. }
    destruct (roundedPrice_nonNegative n Hn) as [Hinf | (m & e & Hr & Hm)].
    + right. exists n. split; [reflexivity | now left].
    + destruct (atLeast1e21 m e) eqn:Hbig.
      * right. exists n. split; [reflexivity|]. right. now exists m, e.
      * left. rewrite Hr. now apply toFixed2_twoDecimals.
  - left. exists (js "0"), 48%N, 48%N. repeat split. discriminate.
Qed.

(** The examples of the specification. *)
Lemma transformPrice_examples :
  transformPrice (VString (js "$1,234.567")) = js "1234.57"
  /\ transformPrice (VObject []) = js "0.00"
  /\ transformPrice (VNumber (num (-5))) = js "0.00"
  /\ transformPrice (VNumber (ofDecimal false 99999 1000)) = js "100.00"
  /\ transformPrice (VNumber (ofDecimal false 5 1000)) = js "0.01"
  /\ transformPrice (VString (js "1.005")) = js "1.00".
Proof. repeat split; vm_compute; reflexivity. Qed.

(** The cases of the repository's test suite for the transformer. *)
Lemma transformPrice_test_suite :
  map transformPrice
      [ VString (js "invalid"); VNumber NaN; VString []; VBool true;
        VArray []; VObject [] ]
  = map js ["0.00"; "0.00"; "0.00"; "0.00"; "0.00"; "0.00"]%string
  /\ map transformPrice
         [ VNumber (ofDecimal false 99999 1000);
           VNumber (ofDecimal false 99001 1000);
           VNumber (ofDecimal false 5 10); VNumber (num 1000) ]
     = map js ["100.00"; "99.00"; "0.50"; "1000.00"]%string
  /\ map transformPrice
         [ VNumber (ofDecimal false 99999999999 100); VNumber (num (10 ^ 10));
           VNumber (num 9007199254740991) ]
     = map js ["999999999.99"; "10000000000.00"; "9007199254740991.00"]%string
  /\ map transformPrice
         [ VNumber (ofDecimal false 1 1000); VNumber (ofDecimal false 9 1000);
           VNumber (ofDecimal false 1 10000000) ]
     = map js ["0.00"; "0.01"; "0.00"]%string.
Proof. repeat split; vm_compute; reflexivity. Qed.

(** C3 at the failing inputs: a price of [1e22], or a string of 25
    digits, passes every test of [transformPrice], and [toFixed(2)]
    prints a number from [1e21] on in exponential notation; the
    largest finite number times 100 is infinite and prints as
    ["Infinity"].  None of the results has two decimal digits. *)
Theorem C3_large_price_is_not_two_decimals :
  transformPrice (VNumber (num (10 ^ 22))) = js "1e+22"
  /\ transformPrice (VString (js "1000000000000000000000000")) = js "1e+24"
  /\ transformPrice (VNumber (Finite (2 ^ 53 - 1) 971)) = js "Infinity"
  /\ ~ twoDecimals (js "1e+22")
  /\ ~ twoDecimals (js "1e+24")
  /\ ~ twoDecimals (js "Infinity").
Proof.
  repeat split; try (vm_compute; reflexivity);
    intros H; apply twoDecimals_point in H; discriminate H.
Qed.

(** *** transformProductResponse *)

Lemma str_eqb_eq (a : jsstring) : forall b, str_eqb a b = true <-> a = b.
Proof.
  induction a as [|x a IH]; intros [|y b]; cbn; split; intros H;
    try reflexivity; try discriminate.
  - apply andb_prop in H as [Hx Ha].
    apply N.eqb_eq in Hx. apply IH in Ha. now subst.
  - injection H as -> ->. rewrite N.eqb_refl. now apply IH.
Qed.

Lemma str_eqb_sym (a b : jsstring) : str_eqb a b = str_eqb b a.
Proof.
  destruct (str_eqb a b) eqn:H1, (str_eqb b a) eqn:H2; try reflexivity.
  - apply str_eqb_eq in H1. subst. 
    assert (str_eqb b b = true) by now apply str_eqb_eq. congruence.
  - apply str_eqb_eq in H2. subst.
    assert (str_eqb a a = true) by now apply str_eqb_eq. congruence.
Qed.

Lemma lookup_app key l1 l2 :
  lookup key (l1 ++ l2)
  = match lookup key l1 with Some v => Some v | None => lookup key l2 end.
Proof.
  induction l1 as [|[k v] l1 IH]; cbn; [reflexivity|].
  now destruct (str_eqb k key).
Qed.

(** Enumeration reorders the properties and changes nothing else. *)
Lemma insertEntry_perm (e : jsstring * value) (l : list (jsstring * value)) :
  Permutation (insertEntry e l) (e :: l).
Proof.
  induction l as [|x r IH]; cbn [insertEntry]; [reflexivity|].
  destruct (indexOf x <? indexOf e); [|reflexivity].
  rewrite IH. apply perm_swap.
Qed.

Lemma ownEntries_perm (props : list (jsstring * value)) :
  Permutation (ownEntries props) props.
Proof.
  unfold ownEntries.
  transitivity (filter (fun e => isArrayIndex (fst e)) props
                ++ filter (fun e => negb (isArrayIndex (fst e))) props).
  - apply Permutation_app_tail.
    induction (filter (fun e => isArrayIndex (fst e)) props) as [|e l IH];
      cbn [fold_right]; [reflexivity|].
    rewrite insertEntry_perm. now constructor.
  - induction props as [|x r IH]; cbn [filter]; [reflexivity|].
    destruct (isArrayIndex (fst x)); cbn [negb app].
    + now constructor.
    + rewrite <- Permutation_middle. now constructor.
Qed.

Lemma ownEntries_length (props : list (jsstring * value)) :
  length (ownEntries props) = length props.
Proof. apply Permutation_length, ownEntries_perm. Qed.

Lemma forallb_perm {A : Type} (f : A -> bool) (l1 l2 : list A) :
  Permutation l1 l2 -> forallb f l1 = forallb f l2.
Proof.
  induction 1 as [| x l l' _ IH | x y l | l l' l'' _ IH1 _ IH2]; cbn.
  - reflexivity.
  - now rewrite IH.
  - now destruct (f x), (f y).
  - congruence.
Qed.

Lemma lookup_insertEntry key (k : jsstring) (v : value) l :
  lookup key (insertEntry (k, v) l)
  = if str_eqb k key then Some v else lookup key l.
Proof.
  induction l as [|[kx vx] r IH]; cbn [insertEntry lookup]; [reflexivity|].
  destruct (indexOf (kx, vx) <? indexOf (k, v)) eqn:Hlt; cbn [lookup];
    [|reflexivity].
  rewrite IH.
  destruct (str_eqb kx key) eqn:Ex; [|reflexivity].
  destruct (str_eqb k key) eqn:Ek; [|reflexivity].
  apply str_eqb_eq in Ex, Ek. subst kx k.
  apply Z.ltb_lt in Hlt. unfold indexOf in Hlt. cbn [fst] in Hlt. lia.
Qed.

Lemma lookup_filter (p : jsstring -> bool) key l :
  lookup key (filter (fun e : jsstring * value => p (fst e)) l)
  = if p key then lookup key l else None.
Proof.
  induction l as [|[k v] r IH]; cbn [filter lookup fst].
  - now destruct (p key).
  - destruct (str_eqb k key) eqn:E.
    + apply str_eqb_eq in E. subst k.
      destruct (p key); cbn [lookup]; [|exact IH].
      assert (Hr : str_eqb key key = true) by now apply str_eqb_eq.
      now rewrite Hr.
    + destruct (p k); cbn [lookup]; [rewrite E|]; exact IH.
Qed.

(** Reading a property does not depend on the order of enumeration. *)
Lemma lookup_ownEntries key (props : list (jsstring * value)) :
  lookup key (ownEntries props) = lookup key props.
Proof.
  unfold ownEntries. rewrite lookup_app.
  assert (Hs : forall l, lookup key (fold_right insertEntry [] l)
                         = lookup key l).
  { induction l as [|[k v] l IH]; cbn [fold_right lookup]; [reflexivity|].
    now rewrite lookup_insertEntry, IH. }
  rewrite Hs, (lookup_filter isArrayIndex),
          (lookup_filter (fun k => negb (isArrayIndex k))).
  destruct (isArrayIndex key); cbn [negb];
    now destruct (lookup key props).
Qed.

(** The copying loop on fields that do not interfere with it: every
    field is looked at, and the object keeps what it had and gains the
    first value of every other key. *)
Lemma preserveFields_plain (entries : list (jsstring * value)) :
  forall t,
    plainKeys entries = true ->
    proto t = ObjectPrototype ->
    hasKey (js "hasOwnProperty") (own t) = false ->
    exists t',
      preserveFields entries t = Some t'
      /\ proto t' = ObjectPrototype
      /\ forall key,
           lookup key (own t')
           = match lookup key (own t) with
             | Some v => Some v
             | None => lookup key entries
             end.
Proof.
  induction entries as [|[k v] rest IH]; intros t Hplain Hproto Hown.
  - exists t. cbn. repeat split; try assumption.
    intros key. now destruct (lookup key (own t)).
  - cbn [plainKeys forallb fst] in Hplain.
    apply andb_prop in Hplain as [Hk Hrest].
    apply andb_prop in Hk as [Hk1 Hk2].
    apply negb_true_iff in Hk1, Hk2.
    cbn [preserveFields].
    assert (Hcall : hasOwnPropertyCallable t = true).
    { unfold hasOwnPropertyCallable. now rewrite Hown, Hproto. }
    rewrite Hcall.
    destruct (hasKey k (own t)) eqn:Hhas; cbn [negb].
    + destruct (IH t Hrest Hproto Hown) as (t' & Hp & Hpr & Hl).
      exists t'. repeat split; try assumption.
      intros key. rewrite Hl. cbn [lookup].
      destruct (lookup key (own t)) eqn:Hkey; [reflexivity|].
      destruct (str_eqb k key) eqn:Heq; [|reflexivity].
      apply str_eqb_eq in Heq. subst key.
      unfold hasKey in Hhas. now rewrite Hkey in Hhas.
    + assert (Hassign : assign t k v = defineOwn t k v).
      { unfold assign. now rewrite Hk1. }
      rewrite Hassign.
      destruct (IH (defineOwn t k v) Hrest) as (t' & Hp & Hpr & Hl).
      * exact Hproto.
      * unfold hasKey, defineOwn. cbn [own]. rewrite lookup_app.
        unfold hasKey in Hown.
        destruct (lookup (js "hasOwnProperty") (own t)); [discriminate|].
        cbn [lookup]. now rewrite Hk2.
      * exists t'. repeat split; try assumption.
        intros key. rewrite Hl. unfold defineOwn. cbn [own].
        rewrite lookup_app. cbn [lookup].
        destruct (lookup key (own t)); [reflexivity|].
        now destruct (str_eqb k key).
Qed.

Lemma plainKeys_ownEntries (props : list (jsstring * value)) :
  plainKeys (ownEntries props) = plainKeys props.
Proof. apply forallb_perm, ownEntries_perm. Qed.

(** The copying loop over the fields of a record, as enumerated. *)
Lemma preserveFields_entries (props : list (jsstring * value)) (t : object) :
  plainKeys props = true ->
  proto t = ObjectPrototype ->
  hasKey (js "hasOwnProperty") (own t) = false ->
  exists t',
    preserveFields (Object_entries (VObject props)) t = Some t'
    /\ proto t' = ObjectPrototype
    /\ forall key,
         lookup key (own t')
         = match lookup key (own t) with
           | Some v => Some v
           | None => lookup key props
           end.
Proof.
  intros Hplain Hproto Hown. cbn [Object_entries].
  destruct (preserveFields_plain (ownEntries props) t) as (t' & Hp & Hpr & Hl);
    try assumption.
  { now rewrite plainKeys_ownEntries. }
  exists t'. repeat split; try assumption.
  intros key. now rewrite Hl, lookup_ownEntries.
Qed.

Lemma lookup_canonicalFields data key :
  if isCanonical key
  then exists v, lookup key (canonicalFields data) = Some v
  else lookup key (canonicalFields data) = None.
Proof.
  unfold isCanonical, canonicalKeys, canonicalFields.
  cbn [existsb lookup].
  rewrite !(str_eqb_sym key).
  repeat match goal with
         | |- context [str_eqb ?k key] =>
             destruct (str_eqb k key); cbn [orb]; [eexists; reflexivity|]
         end.
  reflexivity.
Qed.

(** X4: the frame property of [transformProductResponse] where it
    holds: on a record without the fields [__proto__] and [hasOwnProperty],
    every key other than the six canonical ones keeps its value, and
    the six canonical fields are the ones computed from the record,
    whatever other fields there are. *)
Lemma transformProductResponse_frame (props : list (jsstring * value)) :
  plainKeys props = true ->
  exists t,
    transformProductResponse (VObject props) = Return t
    /\ (forall key, isCanonical key = false ->
                    lookup key (own t) = lookup key props)
    /\ (forall key, isCanonical key = true ->
                    lookup key (own t)
                    = lookup key (canonicalFields (VObject props))).
Proof.
  intros Hplain.
  destruct (preserveFields_entries
              props (mkObject (canonicalFields (VObject props)) ObjectPrototype)
              Hplain eq_refl eq_refl)
    as (t & Hp & _ & Hl).
  exists t. split; [|split].
  - unfold transformProductResponse. cbn [truthy typeof jstype_eqb negb orb
                                          Array_isArray].
    fold (canonicalFields (VObject props)). now rewrite Hp.
  - intros key Hc. rewrite Hl. cbn [own].
    pose proof (lookup_canonicalFields (VObject props) key) as H.
    rewrite Hc in H. now rewrite H.
  - intros key Hc. rewrite Hl. cbn [own].
    pose proof (lookup_canonicalFields (VObject props) key) as H.
    rewrite Hc in H. destruct H as (v & ->). reflexivity.
Qed.

(** The cases of the repository's test suite for the record. *)
Lemma transformProductResponse_test_suite :
  (exists t, transformProductResponse (VObject []) = Return t
             /\ own t = [ (js "id", VString []);
                          (js "title", VString (js "Untitled Product"));
                          (js "description",
                           VString (js "No description available"));
                          (js "price", VString (js "0.00"));
                          (js "image", VNull);
                          (js "category", VString (js "Uncategorized")) ])
  /\ (exists t, transformProductResponse
                  (VObject [ (js "id", VString (js "123"));
                             (js "title", VString []);
                             (js "description", VString []);
                             (js "price", VNumber (ofDecimal false 9999 100));
                             (js "category", VString []) ]) = Return t
                /\ lookup (js "title") (own t) = Some (VString [])
                /\ lookup (js "description") (own t) = Some (VString [])
                /\ lookup (js "category") (own t) = Some (VString [])
                /\ lookup (js "price") (own t) = Some (VString (js "99.99")))
  /\ Forall (fun input =>
               exists e, transformProductResponse input = Throw e
                         /\ errMessage e = Some (js "No product data provided"))
            [ VNull; VUndefined; VString []; VBool false; VNumber (num 0);
              VArray [] ].
Proof.
  split; [|split].
  - eexists. split; reflexivity.
  - eexists. split; [reflexivity|]. repeat split; vm_compute; reflexivity.
  - repeat constructor; eexists; split; reflexivity.
Qed.

(** C9 at the failing inputs: [JSON.parse] makes ["__proto__"] an own
    property of the record; the assignment [transformed[key] = value]
    calls the [__proto__] setter of [Object.prototype] instead of
    creating a property, so the field is missing from the output (a
    number is ignored by the setter, an object becomes the prototype). *)
Theorem C9_proto_field_is_not_copied :
  let data := VObject [ (js "id", VString (js "7"));
                        (js "__proto__", VNumber (num 5)) ] in
  let data' := VObject [ (js "__proto__",
                          VObject [(js "color", VString (js "red"))]) ] in
  isCanonical (js "__proto__") = false
  /\ getProperty data (js "__proto__") = VNumber (num 5)
  /\ (exists t, transformProductResponse data = Return t
                /\ lookup (js "__proto__") (own t) = None)
  /\ (exists t, transformProductResponse data' = Return t
                /\ lookup (js "__proto__") (own t) = None).
Proof.
  cbv zeta. repeat split.
  - eexists. split; reflexivity.
  - eexists. split; reflexivity.
Qed.

(** A field named ["hasOwnProperty"] shadows the method that the loop
    calls: a record with such a field before another one is rejected. *)
Lemma transformProductResponse_shadowed_method :
  exists e,
    transformProductResponse
      (VObject [ (js "hasOwnProperty", VBool true);
                 (js "color", VString (js "red")) ])
    = Throw e
    /\ errMessage e = Some (js "Failed to transform product data").
Proof. eexists. split; reflexivity. Qed.

(** *** getProducts *)

Lemma indexed_length {A : Type} (l : list A) : forall i,
  length (indexed i l) = length l.
Proof. induction l; intros; cbn; [reflexivity | now rewrite IHl]. Qed.

Lemma Object_keys_array_length (items : list value) :
  length (Object_keys (VArray items)) = length items.
Proof.
  unfold Object_keys, Object_entries.
  now rewrite !length_map, indexed_length.
Qed.

Lemma validateResponse_array NODE_ENV r items allowEmpty :
  data r = Some (VArray items) ->
  (items = [] -> allowEmpty = true) ->
  validateResponse NODE_ENV (Some r) true allowEmpty = Return (VArray items).
Proof.
  intros Hd He. unfold validateResponse. rewrite Hd.
  cbn -[Object_keys].
  destruct allowEmpty; [reflexivity|]. cbn -[Object_keys].
  rewrite Object_keys_array_length.
  destruct items; [now specialize (He eq_refl) | reflexivity].
Qed.

Lemma get_array r items :
  data r = Some (VArray items) -> Api.get (Responds r) = Return r.
Proof.
  intros Hd. unfold Api.get, responseInterceptor, responseData.
  now rewrite Hd.
Qed.

(** An element that the collection loop turns away before calling the
    normalizer is one that the normalizer rejects as well. *)
Lemma precheck_implies_failure (product : value) :
  negb (truthy product) || negb (jstype_eqb (typeof product) TObject) = true ->
  transformProductResponse product
  = Throw (TransformError (js "No product data provided")).
Proof.
  intros H. unfold transformProductResponse.
  now rewrite H.
Qed.

Lemma transformElement_cases NODE_ENV ps es i product :
  match transformProductResponse product with
  | Return t =>
      transformElement NODE_ENV (ps, es) (i, product) = (ps ++ [t], es)
  | Throw _ =>
      exists err raw,
        transformElement NODE_ENV (ps, es) (i, product)
        = (ps, es ++ [mkEntry i (getProperty product (js "id")) err raw])
  end.
Proof.
  unfold transformElement.
  destruct (negb (truthy product)
            || negb (jstype_eqb (typeof product) TObject)) eqn:Hpre.
  - rewrite (precheck_implies_failure product Hpre).
    eexists. eexists. reflexivity.
  - destruct (transformProductResponse product).
    + reflexivity.
    + eexists. eexists. reflexivity.
Qed.

(** The loop over the payload, as a whole. *)
Lemma forEach_spec NODE_ENV (items : list value) : forall i ps es,
  exists es',
    fold_left (transformElement NODE_ENV) (indexed i items) (ps, es)
    = (ps ++ normalized items, es ++ es')
    /\ map (fun e => (entry_index e, entry_productId e)) es'
       = map (fun p => (fst p, getProperty (snd p) (js "id")))
             (filter (fun p => failsNormalization (snd p)) (indexed i items)).
Proof.
  induction items as [|product rest IH]; intros i ps es.
  - exists []. cbn. now rewrite !app_nil_r.
  - cbn [indexed fold_left normalized filter snd].
    pose proof (transformElement_cases NODE_ENV ps es i product) as Hc.
    unfold failsNormalization at 1.
    destruct (transformProductResponse product) as [t|e].
    + rewrite Hc.
      destruct (IH (i + 1) (ps ++ [t]) es) as (es' & Hf & Hm).
      exists es'. rewrite Hf, <- app_assoc. now split.
    + destruct Hc as (err & raw & Hc). rewrite Hc.
      destruct (IH (i + 1) ps (es ++ [mkEntry i (getProperty product (js "id"))
                                              err raw]))
        as (es' & Hf & Hm).
      exists (mkEntry i (getProperty product (js "id")) err raw :: es').
      rewrite Hf, <- app_assoc. split; [reflexivity|].
      cbn [map entry_index entry_productId fst snd]. now rewrite Hm.
Qed.

Lemma normalized_failing_length (items : list value) : forall i,
  (length (normalized items)
   + length (filter (fun p => failsNormalization (snd p)) (indexed i items))
   = length items)%nat.
Proof.
  induction items as [|product rest IH]; intros i; [reflexivity|].
  cbn [indexed normalized filter snd]. unfold failsNormalization at 1.
  specialize (IH (i + 1)).
  destruct (transformProductResponse product); cbn [length]; lia.
Qed.

(** What [getProducts] computes from a payload that is a sequence. *)
Lemma getProducts_on_array NODE_ENV filters options r items :
  filtersAccepted filters = true ->
  data r = Some (VArray items) ->
  (items = [] -> allowsEmpty options = true) ->
  exists entries,
    map (fun e => (entry_index e, entry_productId e)) entries
    = map (fun p => (fst p, getProperty (snd p) (js "id"))) (failing items)
    /\ getProducts NODE_ENV filters options (Responds r)
       = if envIs NODE_ENV (js "test")
         then Return (ProductsOnly (normalized items))
         else Return (ResponseData
                        (normalized items)
                        (if (0 <? length entries)%nat then Some entries else None)
                        {| meta_total := Z.of_nat (length items);
                           meta_transformed :=
                             Z.of_nat (length (normalized items));
                           meta_failed := Z.of_nat (length entries);
                           meta_filters :=
                             buildParams (defaultTo filters (VObject [])) |}).
Proof.
  intros Hf Hd He.
  unfold filtersAccepted in Hf. apply andb_prop in Hf as [Hty Hnn].
  destruct (forEach_spec NODE_ENV items 0 [] []) as (entries & Hfold & Hmap).
  exists entries. split; [exact Hmap|].
  unfold getProducts. cbv zeta.
  rewrite Hty. cbn [negb].
  assert (Hnull : isNull (defaultTo filters (VObject [])) = false).
  { destruct filters; try reflexivity; discriminate Hnn. }
  rewrite Hnull, (get_array r items Hd).
  unfold allowsEmpty in He.
  rewrite (validateResponse_array NODE_ENV r items _ Hd He).
  rewrite Hfold. cbn [app].
  reflexivity.
Qed.

(** C7, as amended: outside the test environment, a collection fetch
    whose payload is a sequence of K items of which M fail
    normalization (an empty sequence only when empty payloads are
    allowed, which is the default) returns [{products, errors,
    metadata}] with exactly K-M canonical records, those of the other
    items in order, and M per-item error entries, each with the
    original index and the original id of its item; [errors] is [null]
    rather than an empty list when M is 0.  A failing element never
    aborts the fetch. *)
Theorem C7_partial_failures_are_collected
        NODE_ENV filters options r items :
  envIs NODE_ENV (js "test") = false ->
  filtersAccepted filters = true ->
  data r = Some (VArray items) ->
  (items = [] -> allowsEmpty options = true) ->
  exists result,
    getProducts NODE_ENV filters options (Responds r) = Return result
    /\ productsOf result = normalized items
    /\ length (productsOf result)
       = (length items - length (failing items))%nat
    /\ length (errorEntries result) = length (failing items)
    /\ map (fun e => (entry_index e, entry_productId e)) (errorEntries result)
       = map (fun p => (fst p, getProperty (snd p) (js "id"))) (failing items)
    /\ (match result with
        | ResponseData _ errors _ => errors = None <-> failing items = []
        | ProductsOnly _ => False
        end).
Proof.
  intros Henv Hf Hd He.
  destruct (getProducts_on_array NODE_ENV filters options r items Hf Hd He)
    as (entries & Hmap & Hget).
  rewrite Henv in Hget.
  eexists. split; [exact Hget|].
  pose proof (normalized_failing_length items 0) as Hlen.
  fold (failing items) in Hlen.
  assert (Hn : length entries = length (failing items)).
  { apply (f_equal (@length _)) in Hmap. now rewrite !length_map in Hmap. }
  cbn [productsOf].
  assert (Hentries :
            errorEntries
              (ResponseData (normalized items)
                 (if (0 <? length entries)%nat then Some entries else None)
                 {| meta_total := Z.of_nat (length items);
                    meta_transformed := Z.of_nat (length (normalized items));
                    meta_failed := Z.of_nat (length entries);
                    meta_filters :=
                      buildParams (defaultTo filters (VObject [])) |})
            = entries).
  { cbn [errorEntries]. destruct entries; reflexivity. }
  rewrite Hentries.
  repeat split; try assumption; try lia.
  - destruct entries; cbn in *; [intros _ | discriminate].
    destruct (failing items); [reflexivity | discriminate Hn].
  - intros Hnil. rewrite Hnil in Hn. destruct entries; [reflexivity|].
    discriminate Hn.
Qed.

Lemma C7_partial_failures_are_collected_witness :
  exists result,
    getProducts (VString (js "production")) VUndefined defaultListOptions
                (Responds (okResponse (VArray samplePayload)))
    = Return result
    /\ length (productsOf result) = 1%nat
    /\ map (fun e => (entry_index e, entry_productId e)) (errorEntries result)
       = [(1, VUndefined); (2, VString (js "3"))].
Proof.
  destruct (C7_partial_failures_are_collected
              (VString (js "production")) VUndefined defaultListOptions
              (okResponse (VArray samplePayload)) samplePayload
              eq_refl eq_refl eq_refl
              (fun H : samplePayload = [] =>
                 False_ind _ (@nil_cons _ _ _ (eq_sym H))))
    as (result & Hget & _ & Hlen & _ & Hmap & _).
  exists result. split; [exact Hget|]. split.
  - exact Hlen.
  - exact Hmap.
Defined.

(** C7, as stated, fails: in the test environment the result carries
    no per-item error entries, however many elements fail. *)
Lemma C7_no_error_entries_in_test_environment :
  ~ (forall NODE_ENV filters options r items,
        filtersAccepted filters = true ->
        data r = Some (VArray items) ->
        (items = [] -> allowsEmpty options = true) ->
        exists result,
          getProducts NODE_ENV filters options (Responds r) = Return result
          /\ length (errorEntries result) = length (failing items)).
Proof.
  intros H.
  destruct (H (VString (js "test")) VUndefined defaultListOptions
              (okResponse (VArray samplePayload)) samplePayload
              eq_refl eq_refl
              (fun E : samplePayload = [] =>
                 False_ind _ (@nil_cons _ _ _ (eq_sym E))))
    as (result & Hget & Hlen).
  vm_compute in Hget. injection Hget as <-.
  vm_compute in Hlen. discriminate Hlen.
Qed.

(** C10: in the test environment a successful collection fetch
    resolves with the bare array of the records that normalized, and
    with nothing else; in any other environment it resolves with the
    [{products, errors, metadata}] structure around the same records. *)
Theorem C10_test_environment_returns_bare_array
        NODE_ENV filters options r items :
  filtersAccepted filters = true ->
  data r = Some (VArray items) ->
  (items = [] -> allowsEmpty options = true) ->
  (envIs NODE_ENV (js "test") = true ->
     getProducts NODE_ENV filters options (Responds r)
     = Return (ProductsOnly (normalized items)))
  /\ (envIs NODE_ENV (js "test") = false ->
        exists errors metadata,
          getProducts NODE_ENV filters options (Responds r)
          = Return (ResponseData (normalized items) errors metadata)).
Proof.
  intros Hf Hd He.
  destruct (getProducts_on_array NODE_ENV filters options r items Hf Hd He)
    as (entries & _ & Hget).
  split; intros Henv; rewrite Henv in Hget.
  - exact Hget.
  - eexists. eexists. exact Hget.
Qed.

Lemma C10_test_environment_returns_bare_array_witness :
  getProducts (VString (js "test")) VUndefined defaultListOptions
              (Responds (okResponse (VArray samplePayload)))
  = Return (ProductsOnly (normalized samplePayload))
  /\ length (normalized samplePayload) = 1%nat.
Proof.
  split.
  - apply (C10_test_environment_returns_bare_array
             (VString (js "test")) VUndefined defaultListOptions
             (okResponse (VArray samplePayload)) samplePayload
             eq_refl eq_refl
             (fun E : samplePayload = [] =>
                False_ind _ (@nil_cons _ _ _ (eq_sym E)))).
    reflexivity.
  - reflexivity.
Defined.

(** *** The request lifecycle: tokens *)

Lemma errorText_nonempty (err : exn) :
  truthyString (Some (errorText err)) = true.
Proof.
  unfold errorText.
  destruct (errMessage err) as [[|c m]|]; try reflexivity;
    destruct (errorToString err); reflexivity.
Qed.

Lemma fetchProduct_catch_stale p err c :
  mountedRef c = false \/ currentRequestId p <> requestIdRef c ->
  fetchProduct_catch p err c = c.
Proof.
  intros H. unfold fetchProduct_catch.
  destruct (isCancellation err); [reflexivity|].
  now apply safeSetState_dropped.
Qed.

Lemma fetchProduct_resume_stale p r c :
  mountedRef c = false \/ currentRequestId p <> requestIdRef c ->
  fetchProduct_resume p r c = c.
Proof.
  intros H. unfold fetchProduct_resume.
  destruct r as [v|err].
  - destruct (negb (truthy v)).
    + now apply fetchProduct_catch_stale.
    + now apply safeSetState_dropped.
  - now apply fetchProduct_catch_stale.
Qed.

Lemma fetchProduct_catch_refs p err c :
  requestIdRef (fetchProduct_catch p err c) = requestIdRef c
  /\ mountedRef (fetchProduct_catch p err c) = mountedRef c.
Proof.
  unfold fetchProduct_catch. destruct (isCancellation err); [now split|].
  now rewrite safeSetState_requestIdRef, safeSetState_mountedRef.
Qed.

Lemma fetchProduct_resume_refs p r c :
  requestIdRef (fetchProduct_resume p r c) = requestIdRef c
  /\ mountedRef (fetchProduct_resume p r c) = mountedRef c.
Proof.
  unfold fetchProduct_resume. destruct r as [v|err].
  - destruct (negb (truthy v)).
    + apply fetchProduct_catch_refs.
    + now rewrite safeSetState_requestIdRef, safeSetState_mountedRef.
  - apply fetchProduct_catch_refs.
Qed.

Lemma fetchProduct_catch_cases p err c :
  fetchProduct_catch p err c = c
  \/ truthyString (error (st (fetchProduct_catch p err c))) = true.
Proof.
  unfold fetchProduct_catch. destruct (isCancellation err); [now left|].
  unfold safeSetState. destruct (_ && _); [right | now left].
  cbn. apply errorText_nonempty.
Qed.

(** What a settled call does: nothing, or the error view, or, for the
    call with the latest token, the delivered product. *)
Lemma fetchProduct_resume_cases p r c :
  fetchProduct_resume p r c = c
  \/ truthyString (error (st (fetchProduct_resume p r c))) = true
  \/ (currentRequestId p = requestIdRef c
      /\ exists v, r = Return v
                   /\ product (st (fetchProduct_resume p r c)) = v).
Proof.
  unfold fetchProduct_resume. destruct r as [v|err].
  - destruct (negb (truthy v)).
    + destruct (fetchProduct_catch_cases p (Api.Error (js "Product not found")) c);
        tauto.
    + unfold safeSetState.
      destruct (mountedRef c); cbn [andb]; [|now left].
      destruct (Z.eqb_spec (currentRequestId p) (requestIdRef c)); [|now left].
      right; right. split; [assumption|]. now exists v.
  - destruct (fetchProduct_catch_cases p err c); tauto.
Qed.

Lemma start_refs id cl now force s :
  requestIdRef (comp (start id cl now force s)) = requestIdRef (comp s) + 1
  /\ mountedRef (comp (start id cl now force s)) = mountedRef (comp s)
  /\ productId (start id cl now force s) = id.
Proof.
  unfold start.
  pose proof (fetchProduct_begin_token id cl now force (comp s)) as Ht.
  pose proof (fetchProduct_begin_mountedRef id cl now force (comp s)) as Hm.
  destruct (fetchProduct_begin id cl now force (comp s)) as [c p].
  cbn in *. auto.
Qed.

Lemma start_issued id cl now force s :
  issued (start id cl now force s) = issued s
  \/ exists p, issued (start id cl now force s) = issued s ++ [p]
               /\ currentRequestId p = requestIdRef (comp s) + 1
               /\ requestedId p = id.
Proof.
  unfold start, fetchProduct_begin. cbv zeta.
  destruct (negb (truthy id)); cbn; [now left|].
  right. eexists. split; [reflexivity|]. now split.
Qed.

(** A mounted component that starts a fetch shows the loading view or,
    without a product id, the error view. *)
Lemma start_state id cl now force s :
  st (comp (start id cl now force s)) = st (comp s)
  /\ mountedRef (comp s) = false
  \/ loading (st (comp (start id cl now force s))) = true
  \/ truthyString (error (st (comp (start id cl now force s)))) = true.
Proof.
  unfold start, fetchProduct_begin. cbv zeta.
  destruct (mountedRef (comp s)) eqn:Hm.
  - right. destruct (negb (truthy id)); cbn [comp fst].
    + right. rewrite safeSetState_applied; [reflexivity | |].
      * now rewrite safeSetState_mountedRef.
      * now rewrite safeSetState_requestIdRef.
    + left. rewrite safeSetState_applied; [reflexivity | |].
      * now rewrite safeSetState_mountedRef.
      * now rewrite safeSetState_requestIdRef.
  - left. split; [|reflexivity].
    destruct (negb (truthy id)); cbn [comp fst];
      rewrite !safeSetState_dropped; cbn; auto.
Qed.

Lemma not_success_loading s : loading s = true -> ~ isSuccess s.
Proof. intros H (Hl & _). congruence. Qed.

Lemma not_success_error s : truthyString (error s) = true -> ~ isSuccess s.
Proof. intros H (_ & He & _). congruence. Qed.

Lemma run_app evs1 evs2 s : run (evs1 ++ evs2) s = run evs2 (run evs1 s).
Proof. apply fold_left_app. Qed.

Lemma wellTokened_start id cl now force s :
  wellTokened s -> wellTokened (start id cl now force s).
Proof.
  intros Hw p Hin.
  destruct (start_refs id cl now force s) as (Hr & _ & Hid).
  rewrite Hr, Hid.
  destruct (start_issued id cl now force s) as [He | (q & He & Hq & Hqi)];
    rewrite He in Hin.
  - destruct (Hw p Hin). split; lia.
  - apply in_app_or in Hin as [Hin | [<- | []]].
    + destruct (Hw p Hin). split; lia.
    + split; [lia | auto].
Qed.

Lemma wellTokened_step e s : wellTokened s -> wellTokened (step e s).
Proof.
  intros Hw. destruct e as [id now | now force | k r |]; cbn [step].
  - destruct (mountedRef (comp s)); [now apply wellTokened_start | exact Hw].
  - now apply wellTokened_start.
  - destruct (nth_error (issued s) k) as [p|]; [|exact Hw].
    intros q Hin. cbn in *.
    destruct (fetchProduct_resume_refs p r (comp s)) as (-> & _).
    now apply Hw.
  - exact Hw.
Qed.

Lemma wellTokened_run evs : forall s, wellTokened s -> wellTokened (run evs s).
Proof.
  induction evs as [|e evs IH]; intros s Hw; [exact Hw|].
  cbn. apply IH. now apply wellTokened_step.
Qed.

Lemma wellTokened_mounted : wellTokened mounted.
Proof. intros p []. Qed.

Lemma mountedRef_step e s :
  mountedRef (comp s) = false -> mountedRef (comp (step e s)) = false.
Proof.
  intros Hm. destruct e as [id now | now force | k r |]; cbn [step].
  - now rewrite Hm.
  - destruct (start_refs (productId s) (closure s) now force s) as (_ & -> & _).
    exact Hm.
  - destruct (nth_error (issued s) k) as [p|]; [|exact Hm]. cbn.
    destruct (fetchProduct_resume_refs p r (comp s)) as (_ & ->). exact Hm.
  - reflexivity.
Qed.

Lemma justified_step e s settled :
  isChange e = false ->
  wellTokened s -> justified settled s ->
  justified (settled ++ settlements [e] s) (step e s)
  /\ productId (step e s) = productId s.
Proof.
  intros Hc Hw Hj.
  destruct e as [id now | now force | k r |]; try discriminate Hc;
    cbn [step settlements]; rewrite ?app_nil_r.
  - (* Refetch *)
    destruct (start_refs (productId s) (closure s) now force s) as (_ & _ & Hid).
    split; [|exact Hid].
    destruct (start_state (productId s) (closure s) now force s)
      as [(Hs & _) | [Hl | He]].
    + unfold justified. rewrite Hs, Hid. exact Hj.
    + intros Hsuc. now apply not_success_loading in Hsuc.
    + intros Hsuc. now apply not_success_error in Hsuc.
  - (* Settle *)
    destruct (nth_error (issued s) k) as [p|] eqn:Hk;
      [|rewrite app_nil_r; now split].
    split; [|reflexivity].
    unfold justified. cbn [comp productId].
    destruct (fetchProduct_resume_cases p r (comp s))
      as [Hsame | [Herr | (Htok & v & -> & Hv)]].
    + rewrite Hsame. intros Hsuc.
      destruct (Hj Hsuc) as (q & w & Hin & Hq).
      exists q, w. split; [apply in_or_app; now left | exact Hq].
    + intros Hsuc. now apply not_success_error in Hsuc.
    + intros _. exists p, v. split; [apply in_or_app; right; now left|].
      split; [|exact Hv].
      apply nth_error_In in Hk. now apply (Hw p Hk).
  - (* Unmount *)
    split; [|reflexivity]. exact Hj.
Qed.

Lemma settlements_cons e evs s :
  settlements (e :: evs) s = settlements [e] s ++ settlements evs (step e s).
Proof. cbn [settlements]. now rewrite app_nil_r. Qed.

Lemma justified_run evs : forall s settled,
  forallb (fun e => negb (isChange e)) evs = true ->
  wellTokened s -> justified settled s ->
  justified (settled ++ settlements evs s) (run evs s)
  /\ productId (run evs s) = productId s.
Proof.
  induction evs as [|e evs IH]; intros s settled Hall Hw Hj.
  - cbn. rewrite app_nil_r. now split.
  - cbn [forallb] in Hall. apply andb_prop in Hall as [He Hall].
    apply negb_true_iff in He.
    destruct (justified_step e s settled He Hw Hj) as (Hj' & Hid).
    destruct (IH (step e s) _ Hall (wellTokened_step e s Hw) Hj') as (Hj'' & Hid').
    rewrite settlements_cons, app_assoc.
    change (run (e :: evs) s) with (run evs (step e s)).
    split; [exact Hj'' | congruence].
Qed.

Lemma mountedRef_changes changes : forall s,
  mountedRef (comp s) = true ->
  mountedRef (comp (run (changeEvents changes) s)) = true.
Proof.
  induction changes as [|c changes IH]; intros s Hm; [exact Hm|].
  cbn. apply IH. rewrite Hm.
  destruct (start_refs (fst c) (st (comp s)) (snd c) true s) as (_ & -> & _).
  exact Hm.
Qed.

(** C1: a response or failure whose token is not the latest one leaves
    the component as it is, state and retry count included; hence,
    after any sequence of changes of the product id, whatever the
    order in which the calls settle and whatever retries and
    revalidations follow, a product on display was delivered to a call
    for the last id. *)
Theorem C1_only_the_latest_request_is_applied :
  (forall p r c,
      currentRequestId p <> requestIdRef c -> fetchProduct_resume p r c = c)
  /\ (forall changes last now evs,
        forallb (fun e => negb (isChange e)) evs = true ->
        let s0 := run (changeEvents changes ++ [SetProductId last now]) mounted in
        let s := run evs s0 in
        isSuccess (st (comp s)) ->
        exists p v,
          In (p, Return v) (settlements evs s0)
          /\ requestedId p = last
          /\ product (st (comp s)) = v).
Proof.
  split.
  - intros p r c H. apply fetchProduct_resume_stale. now right.
  - intros changes last now evs Hall s0 s Hsuc. subst s.
    set (s1 := run (changeEvents changes) mounted).
    assert (Hs0 : s0 = step (SetProductId last now) s1)
      by (unfold s0; now rewrite run_app).
    assert (Hm : mountedRef (comp s1) = true)
      by (now apply mountedRef_changes).
    assert (Hw : wellTokened s0).
    { rewrite Hs0. apply wellTokened_step, wellTokened_run, wellTokened_mounted. }
    assert (Hid : productId s0 = last).
    { rewrite Hs0. cbn [step]. rewrite Hm. apply start_refs. }
    assert (Hj : justified [] s0).
    { rewrite Hs0. cbn [step]. rewrite Hm. intros Hs.
      destruct (start_state last (st (comp s1)) now true s1)
        as [(_ & Hf) | [Hl | He]].
      - congruence.
      - now apply not_success_loading in Hs.
      - now apply not_success_error in Hs. }
    destruct (justified_run evs s0 [] Hall Hw Hj) as (Hfin & Hid').
    cbn [app] in Hfin.
    destruct (Hfin Hsuc) as (p & v & Hin & Hp & Hv).
    exists p, v. split; [exact Hin|]. split; [|exact Hv].
    rewrite Hp, Hid'. exact Hid.
Qed.

Lemma C1_only_the_latest_request_is_applied_witness :
  (let stale := mkPending 1 (VString (js "1")) 0 VNull VNull false in
   let c := mkComponent initialState 2 true in
   fetchProduct_resume stale (Return (sampleRecord "1")) c = c)
  /\ (let s0 := run (changeEvents [(VString (js "1"), 0)]
                     ++ [SetProductId (VString (js "2")) 1]) mounted in
      let evs := [ Settle 1 (Return (sampleRecord "2"));
                   Settle 0 (Return (sampleRecord "1")) ] in
      exists p v,
        In (p, Return v) (settlements evs s0)
        /\ requestedId p = VString (js "2")
        /\ product (st (comp (run evs s0))) = v).
Proof.
  destruct C1_only_the_latest_request_is_applied as [Hdrop Hlast].
  split.
  - cbv zeta. apply Hdrop. cbn. lia.
  - apply (Hlast [(VString (js "1"), 0)] (VString (js "2")) 1
                 [ Settle 1 (Return (sampleRecord "2"));
                   Settle 0 (Return (sampleRecord "1")) ]).
    + reflexivity.
    + repeat split.
Defined.

(** *** The request lifecycle: cancellation *)

Lemma requestIdRef_step e s :
  requestIdRef (comp s) <= requestIdRef (comp (step e s)).
Proof.
  destruct e as [id now | now force | k r |]; cbn [step].
  - destruct (mountedRef (comp s)); [|lia].
    destruct (start_refs id (st (comp s)) now true s) as (-> & _). lia.
  - destruct (start_refs (productId s) (closure s) now force s) as (-> & _). lia.
  - destruct (nth_error (issued s) k) as [p|]; [|lia]. cbn.
    destruct (fetchProduct_resume_refs p r (comp s)) as (-> & _). lia.
  - cbn. lia.
Qed.

Lemma issued_step e s :
  issued (step e s) = issued s \/ exists p, issued (step e s) = issued s ++ [p].
Proof.
  destruct e as [id now | now force | k r |]; cbn [step].
  - destruct (mountedRef (comp s)); [|now left].
    destruct (start_issued id (st (comp s)) now true s) as [H | (p & H & _)];
      [now left | right; now exists p].
  - destruct (start_issued (productId s) (closure s) now force s)
      as [H | (p & H & _)]; [now left | right; now exists p].
  - destruct (nth_error (issued s) k); now left.
  - now left.
Qed.

Lemma superseded_step e s n :
  (n <= length (issued s))%nat -> superseded n s ->
  (n <= length (issued (step e s)))%nat /\ superseded n (step e s).
Proof.
  intros Hn Hs.
  assert (Hi : forall k, (k < n)%nat ->
                 nth_error (issued (step e s)) k = nth_error (issued s) k).
  { intros k Hk. destruct (issued_step e s) as [-> | (p & ->)]; [reflexivity|].
    apply nth_error_app1. lia. }
  split.
  - destruct (issued_step e s) as [-> | (p & ->)]; [exact Hn|].
    rewrite length_app. lia.
  - intros k p Hk Hp. rewrite (Hi k Hk) in Hp.
    destruct (Hs k p Hk Hp) as [Hm | Hlt].
    + left. now apply mountedRef_step.
    + right. pose proof (requestIdRef_step e s). lia.
Qed.

Lemma superseded_run evs : forall s n,
  (n <= length (issued s))%nat -> superseded n s ->
  (n <= length (issued (run evs s)))%nat /\ superseded n (run evs s).
Proof.
  induction evs as [|e evs IH]; intros s n Hn Hs; [now split|].
  change (run (e :: evs) s) with (run evs (step e s)).
  destruct (superseded_step e s n Hn Hs) as (Hn' & Hs').
  now apply IH.
Qed.

(** Teardown and replacement supersede every call issued so far. *)
Lemma cancel_supersedes e s :
  isCancel e = true -> wellTokened s ->
  superseded (length (issued s)) (step e s).
Proof.
  intros Hc Hw k p Hk Hp.
  destruct e as [id now | now force | j r |]; try discriminate Hc; cbn [step] in *.
  - destruct (mountedRef (comp s)) eqn:Hm; [|now left].
    right.
    destruct (start_refs id (st (comp s)) now true s) as (-> & _).
    assert (Hp' : nth_error (issued s) k = Some p).
    { destruct (start_issued id (st (comp s)) now true s) as [He | (q & He & _)];
        rewrite He in Hp; [exact Hp|].
      now rewrite nth_error_app1 in Hp. }
    apply nth_error_In in Hp'. destruct (Hw p Hp'). lia.
  - now left.
Qed.

Lemma settle_superseded s n k r :
  superseded n s -> (k < n)%nat ->
  comp (step (Settle k r) s) = comp s.
Proof.
  intros Hs Hk. cbn [step].
  destruct (nth_error (issued s) k) as [p|] eqn:Hp; [|reflexivity].
  cbn [comp]. apply fetchProduct_resume_stale.
  destruct (Hs k p Hk Hp) as [Hm | Hlt]; [now left | right; lia].
Qed.

(** C8: a fetch that ends in a cancellation (REQUEST_CANCELLED or
    AbortError) leaves the component as it is; and once the subject is
    torn down or replaced, no call issued before that can change the
    component afterwards, however and whenever it settles: neither a
    Success nor an Error transition follows. *)
Theorem C8_cancelled_fetch_never_updates_state :
  (forall p err c,
      isCancellation err = true -> fetchProduct_resume p (Throw err) c = c)
  /\ (forall evs1 cancel evs2 k r,
        isCancel cancel = true ->
        (k < length (issued (run evs1 mounted)))%nat ->
        let before := run (evs1 ++ cancel :: evs2) mounted in
        comp (step (Settle k r) before) = comp before).
Proof.
  split.
  - intros p err c H. cbn. unfold fetchProduct_catch. now rewrite H.
  - intros evs1 cancel evs2 k r Hc Hk before. subst before.
    rewrite run_app.
    change (run (cancel :: evs2) (run evs1 mounted))
      with (run evs2 (step cancel (run evs1 mounted))).
    set (s1 := run evs1 mounted) in *.
    assert (Hw : wellTokened s1)
      by apply wellTokened_run, wellTokened_mounted.
    pose proof (cancel_supersedes cancel s1 Hc Hw) as Hs.
    assert (Hn : (length (issued s1) <= length (issued (step cancel s1)))%nat).
    { destruct (issued_step cancel s1) as [-> | (p & ->)]; [lia|].
      rewrite length_app. lia. }
    destruct (superseded_run evs2 _ _ Hn Hs) as (_ & Hs').
    now apply (settle_superseded _ (length (issued s1))).
Qed.

Lemma C8_cancelled_fetch_never_updates_state_witness :
  (let p := mkPending 1 (VString (js "1")) 0 VNull VNull false in
   let c := mkComponent initialState 1 true in
   fetchProduct_resume p (Throw cancelled) c = c)
  /\ (let before := run ([SetProductId (VString (js "1")) 0]
                         ++ Unmount :: []) mounted in
      comp (step (Settle 0 (Return (sampleRecord "1"))) before) = comp before)
  /\ (let before := run ([SetProductId (VString (js "1")) 0]
                         ++ SetProductId (VString (js "2")) 1 :: []) mounted in
      comp (step (Settle 0 (Throw (httpError 500))) before) = comp before).
Proof.
  destruct C8_cancelled_fetch_never_updates_state as [Hcancel Hlater].
  split; [|split].
  - cbv zeta. apply Hcancel. reflexivity.
  - apply (Hlater [SetProductId (VString (js "1")) 0] Unmount [] 0%nat).
    + reflexivity.
    + cbn. lia.
  - apply (Hlater [SetProductId (VString (js "1")) 0]
                  (SetProductId (VString (js "2")) 1) [] 0%nat).
    + reflexivity.
    + cbn. lia.
Defined.

(** *** End to end *)

(** The product page asks for product ["123"]; the transport fails
    twice with status 500 and then answers 200 with
    [{id: "123", price: "9.999"}]: the page shows the product with
    price ["10.00"], and the retry count is 0. *)
Lemma two_failures_then_success :
  let '(c, p) :=
    fetchProduct_begin (VString (js "123")) initialState 0 true
                       (comp mounted) in
  match p with
  | None => False
  | Some p =>
      let answer :=
        okResponse (VObject [ (js "id", VString (js "123"));
                              (js "price", VString (js "9.999")) ]) in
      match getProductById VUndefined (requestedId p) (sentOptions p None)
                           [ Rejects (httpError 500); Rejects (httpError 500);
                             Responds answer ] with
      | (effects, Settled r) =>
          let s := st (fetchProduct_resume p r c) in
          countCalls effects = 3%nat
          /\ delays effects = [Some 1000; Some 2000]
          /\ isSuccess s
          /\ getProperty (product s) (js "price") = VString (js "10.00")
          /\ retryCount s = 0
      | (_, Pending) => False
      end
  end.
Proof. vm_compute. repeat split. Qed.

(* ================================================================== *)
(** ** Further properties *)

(** *** Regular expressions: the matcher and what it denotes *)

Ltac inv H := inversion H; subst; clear H.

Lemma nullable_matches (r : regex) : nullable r = true <-> matches r [].
Proof.
  induction r as [| | p | r1 IH1 r2 IH2 | r1 IH1 r2 IH2 | r IH]; cbn.
  - split; intros H; [discriminate | inv H].
  - split; intros H; [constructor | reflexivity].
  - split; intros H; [discriminate | inv H].
  - split; intros H.
    + apply andb_prop in H as [H1 H2].
      change (matches (Seq r1 r2) ([] ++ [])).
      constructor; [apply IH1 | apply IH2]; assumption.
    + inv H.
      match goal with E : _ ++ _ = [] |- _ => apply app_eq_nil in E as [-> ->] end.
      apply andb_true_intro. split; [apply IH1 | apply IH2]; assumption.
  - split; intros H.
    + apply orb_prop in H as [H|H]; [apply MAltL, IH1 | apply MAltR, IH2];
        assumption.
    + apply orb_true_intro.
      inv H; [left; apply IH1 | right; apply IH2]; assumption.
  - split; intros H; [constructor | reflexivity].
Qed.

Lemma matches_cons_seq (r1 r2 : regex) (c : N) (s1 s2 : jsstring) :
  matches r1 (c :: s1) -> matches r2 s2 -> matches (Seq r1 r2) (c :: s1 ++ s2).
Proof. intros. change (matches (Seq r1 r2) ((c :: s1) ++ s2)). now constructor. Qed.

Lemma deriv_sound (c : N) (r : regex) : forall s,
  matches (deriv c r) s -> matches r (c :: s).
Proof.
  induction r as [| | p | r1 IH1 r2 IH2 | r1 IH1 r2 IH2 | r IH]; cbn; intros s H.
  - inv H.
  - inv H.
  - destruct (p c) eqn:Hp; inv H. now constructor.
  - destruct (nullable r1) eqn:Hn.
    + inv H.
      * match goal with M : matches (Seq _ _) _ |- _ => inv M end.
        apply matches_cons_seq; [now apply IH1 | assumption].
      * change (matches (Seq r1 r2) ([] ++ c :: s)).
        constructor; [now apply nullable_matches | now apply IH2].
    + inv H. apply matches_cons_seq; [now apply IH1 | assumption].
  - inv H; [apply MAltL, IH1 | apply MAltR, IH2]; assumption.
  - inv H.
    change (matches (Star r) ((c :: s1) ++ s2)).
    constructor; [now apply IH | assumption].
Qed.

Lemma deriv_complete (c : N) (r : regex) (s' : jsstring) :
  matches r s' -> forall s, s' = c :: s -> matches (deriv c r) s.
Proof.
  induction 1 as [| p d Hp | r1 r2 s1 s2 M1 IH1 M2 IH2 | r1 r2 s0 M IH
                  | r1 r2 s0 M IH | r | r s1 s2 M1 IH1 M2 IH2];
    intros s E; cbn.
  - discriminate.
  - injection E as -> <-. rewrite Hp. constructor.
  - destruct s1 as [|d s1]; cbn in E.
    + assert (Hn : nullable r1 = true) by now apply nullable_matches.
      rewrite Hn. apply MAltR. now apply IH2.
    + injection E as -> <-.
      destruct (nullable r1); [apply MAltL|]; constructor;
        try assumption; now apply IH1.
  - apply MAltL. now apply IH.
  - apply MAltR. now apply IH.
  - discriminate.
  - destruct s1 as [|d s1]; cbn in E.
    + now apply IH2.
    + injection E as -> <-. constructor; [now apply IH1 | assumption].
Qed.

(** The matcher accepts exactly the strings of the expression. *)
Lemma test_matches (s : jsstring) : forall r,
  test r s = true <-> matches r s.
Proof.
  unfold test. induction s as [|c s IH]; intros r; cbn.
  - apply nullable_matches.
  - rewrite IH. split.
    + apply deriv_sound.
    + intros H. now apply (deriv_complete c r (c :: s)).
Qed.

Lemma matches_star_digits (s : jsstring) :
  matches (Star (Class isDigit)) s <-> digits s.
Proof.
  unfold digits. split.
  - intros H. remember (Star (Class isDigit)) as r eqn:E.
    induction H as [| | | | | r0 | r0 s1 s2 M1 _ M2 IH2]; try discriminate.
    + reflexivity.
    + injection E as ->. inv M1. cbn.
      rewrite (IH2 eq_refl). 
      match goal with Hd : isDigit _ = true |- _ => now rewrite Hd end.
  - induction s as [|c s IH]; intros H; [constructor|].
    cbn in H. apply andb_prop in H as [Hc Hs].
    change (matches (Star (Class isDigit)) ([c] ++ s)).
    constructor; [now constructor | now apply IH].
Qed.

Lemma matches_plus_digits (s : jsstring) :
  matches (Plus (Class isDigit)) s <-> digits s /\ s <> [].
Proof.
  unfold Plus. split.
  - intros H. inv H.
    match goal with M : matches (Class _) _ |- _ => inv M end.
    match goal with M : matches (Star _) _ |- _ =>
      apply matches_star_digits in M; unfold digits in * end.
    cbn. split; [|discriminate].
    match goal with Hd : isDigit _ = true |- _ => now rewrite Hd end.
  - intros [Hd Hn]. destruct s as [|c s]; [contradiction|].
    unfold digits in Hd. cbn in Hd. apply andb_prop in Hd as [Hc Hs].
    change (matches (Seq (Class isDigit) (Star (Class isDigit))) ([c] ++ s)).
    constructor; [now constructor | now apply matches_star_digits].
Qed.

Lemma digits_app (a b : jsstring) : digits (a ++ b) <-> digits a /\ digits b.
Proof.
  unfold digits. rewrite forallb_app. split.
  - intros H. now apply andb_prop in H.
  - intros [-> ->]. reflexivity.
Qed.

(** The pattern [/^\d*\.?\d+$/] accepts exactly [digits],
    [digits.digits] and [.digits]. *)
Lemma unsignedDecimal_form (c : jsstring) :
  test unsignedDecimal c = true <-> unsignedDecimalForm c.
Proof.
  rewrite test_matches. unfold unsignedDecimal, unsignedDecimalForm. split.
  - intros H. inv H.
    match goal with M : matches (Seq (Opt _) _) _ |- _ => inv M end.
    match goal with M : matches (Star _) _ |- _ =>
      apply matches_star_digits in M; rename M into Ha end.
    match goal with M : matches (Plus _) _ |- _ =>
      apply matches_plus_digits in M as [Hb Hn] end.
    match goal with M : matches (Opt _) _ |- _ => unfold Opt in M; inv M end.
    + match goal with M : matches Eps _ |- _ => inv M end.
      left. cbn. split.
      * now apply digits_app.
      * intros E. apply app_eq_nil in E as [_ ->]. contradiction.
    + match goal with M : matches (Class _) _ |- _ => inv M end.
      match goal with E : N.eqb 46 _ = true |- _ => apply N.eqb_eq in E; subst end.
      right. eexists. eexists. split; [reflexivity|]. now repeat split.
  - intros [[Hd Hn] | (ip & fp & -> & Hi & Hf & Hn)].
    + change (matches (Seq (Star (Class isDigit))
                           (Seq (Opt (Class (N.eqb 46))) (Plus (Class isDigit))))
                      ([] ++ ([] ++ c))).
      constructor; [constructor|].
      constructor; [apply MAltL; constructor|].
      now apply matches_plus_digits.
    + change (matches (Seq (Star (Class isDigit))
                           (Seq (Opt (Class (N.eqb 46))) (Plus (Class isDigit))))
                      (ip ++ ([point] ++ fp))).
      constructor; [now apply matches_star_digits|].
      constructor; [apply MAltR; now constructor|].
      now apply matches_plus_digits.
Qed.

(** *** transformPrice: strings and negative numbers *)

Lemma trimStart_id (s : jsstring) :
  forallb (fun c => negb (isWhiteSpace c)) s = true -> trimStart s = s.
Proof.
  destruct s as [|c s]; [reflexivity|]. cbn. intros H.
  apply andb_prop in H as [Hc _]. apply negb_true_iff in Hc. now rewrite Hc.
Qed.

Lemma trim_id (s : jsstring) :
  forallb (fun c => negb (isWhiteSpace c)) s = true -> trim s = s.
Proof.
  intros H. unfold trim. rewrite (trimStart_id s H).
  rewrite trimStart_id; [apply rev_involutive|].
  apply forallb_forall. intros c Hc. apply in_rev in Hc.
  now apply (proj1 (forallb_forall _ _) H).
Qed.

Lemma cleaned_no_blank (s : jsstring) :
  forallb (fun c => negb (isWhiteSpace c)) (cleaned s) = true.
Proof.
  apply forallb_forall. intros c Hc. unfold cleaned, removeAll in Hc.
  apply filter_In in Hc as [_ Hc]. apply negb_true_iff in Hc.
  unfold currencyOrSeparator in Hc. apply orb_false_iff in Hc as [_ Hc].
  now rewrite Hc.
Qed.

Lemma takeDigits_all (d : jsstring) :
  digits d -> takeDigits d = (d, []).
Proof.
  unfold digits. induction d as [|c d IH]; cbn; intros H; [reflexivity|].
  apply andb_prop in H as [Hc Hd]. now rewrite Hc, (IH Hd).
Qed.

Lemma takeDigits_point (d rest : jsstring) :
  digits d -> takeDigits (d ++ point :: rest) = (d, point :: rest).
Proof.
  unfold digits. induction d as [|c d IH]; cbn; intros H; [reflexivity|].
  apply andb_prop in H as [Hc Hd]. now rewrite Hc, (IH Hd).
Qed.

Lemma round64_not_NaN (negative : bool) (p q : Z) :
  isNaN (round64 negative p q) = false.
Proof.
  unfold round64, zero.
  repeat match goal with
         | |- context [if ?b then _ else _] => destruct b
         end; reflexivity.
Qed.

Lemma parseFloat_whole (c : jsstring) :
  digits c -> c <> [] ->
  parseFloat c = round64 false (digitsValue (c ++ [])) (10 ^ Z.of_nat (length (@nil N))).
Proof.
  intros Hd Hn. unfold parseFloat. rewrite (takeDigits_all c Hd).
  destruct c; [contradiction | reflexivity].
Qed.

Lemma parseFloat_fraction (ip fp : jsstring) :
  digits ip -> digits fp -> fp <> [] ->
  parseFloat (ip ++ point :: fp)
  = round64 false (digitsValue (ip ++ fp)) (10 ^ Z.of_nat (length fp)).
Proof.
  intros Hi Hf Hn. unfold parseFloat. rewrite (takeDigits_point ip fp Hi).
  unfold point. rewrite (takeDigits_all fp Hf). cbn [fst].
  destruct ip; destruct fp; try contradiction; reflexivity.
Qed.

Lemma priceNumber_of_string (s : jsstring) :
  priceNumber (VString s)
  = if test unsignedDecimal (cleaned s)
    then (if isNaN (parseFloat (cleaned s)) then None
          else Some (parseFloat (cleaned s)))
    else None.
Proof.
  unfold priceNumber.
  cbn [isNull isUndefined typeof jstype_eqb orb andb].
  fold (cleaned s). now rewrite (trim_id _ (cleaned_no_blank s)).
Qed.

(** X1: the price of a string.  With every dollar, pound and euro
    sign, comma and blank taken out, a string of digits is read as a
    whole number and a string [digits.digits] or [.digits] as a
    decimal number, and the price is that number rounded and printed;
    any other string (a sign, an exponent, letters, a point at the end
    or two points) gives ["0.00"]. *)
Theorem transformPrice_string (s : jsstring) :
  (digits (cleaned s) -> cleaned s <> [] ->
   transformPrice (VString s) = priceOf (cleaned s) [])
  /\ (forall ip fp,
        cleaned s = ip ++ point :: fp -> digits ip -> digits fp -> fp <> [] ->
        transformPrice (VString s) = priceOf ip fp)
  /\ (~ unsignedDecimalForm (cleaned s) ->
      transformPrice (VString s) = js "0.00").
Proof.
  rewrite transformPrice_priceNumber, priceNumber_of_string. repeat split.
  - intros Hd Hn.
    assert (Ht : test unsignedDecimal (cleaned s) = true)
      by (apply unsignedDecimal_form; now left).
    rewrite Ht, (parseFloat_whole _ Hd Hn), round64_not_NaN.
    unfold priceOf. cbv beta iota. reflexivity.
  - intros ip fp E Hi Hf Hn.
    assert (Ht : test unsignedDecimal (cleaned s) = true)
      by (apply unsignedDecimal_form; right; now exists ip, fp).
    rewrite Ht, E, (parseFloat_fraction ip fp Hi Hf Hn), round64_not_NaN.
    unfold priceOf. cbv beta iota. reflexivity.
  - intros Hno.
    destruct (test unsignedDecimal (cleaned s)) eqn:Ht; [|reflexivity].
    apply unsignedDecimal_form in Ht. contradiction.
Qed.

Lemma transformPrice_string_witness :
  transformPrice (VString (js "$ 1,234.567")) = js "1234.57"
  /\ transformPrice (VString (js "42")) = js "42.00"
  /\ transformPrice (VString (js "-5")) = js "0.00".
Proof.
  split; [|split].
  - apply (proj1 (proj2 (transformPrice_string (js "$ 1,234.567")))
             (js "1234") (js "567")); try reflexivity. discriminate.
  - apply (proj1 (transformPrice_string (js "42"))); [reflexivity | discriminate].
  - apply (proj2 (proj2 (transformPrice_string (js "-5")))).
    intros [[Hd _] | (ip & fp & E & Hi & _)].
    + discriminate Hd.
    + destruct ip as [|c ip]; [discriminate E|].
      injection E as <- _. discriminate Hi.
Defined.

Lemma Math_max_zero_negative (n : number) :
  isNegative n = true -> Math_max (num 0) n = num 0.
Proof.
  destruct n as [| [|] | | m e]; cbn; intros H; try discriminate; try reflexivity.
  apply Z.ltb_lt in H.
  assert (Hk : 0 < 2 ^ (e - Z.min 0 e)) by (apply Z.pow_pos_nonneg; lia).
  assert (Hneg : m * 2 ^ (e - Z.min 0 e) < 0) by now apply Z.mul_neg_pos.
  destruct (m * 2 ^ (e - Z.min 0 e)); try reflexivity; lia.
Qed.

(** X2: a price that is a negative number, minus zero and minus
    infinity included, is clamped to zero: the result is ["0.00"]. *)
Theorem transformPrice_negative_number (n : number) :
  isNegative n = true -> transformPrice (VNumber n) = js "0.00".
Proof.
  intros H. rewrite transformPrice_priceNumber. unfold priceNumber.
  cbn [isNull isUndefined typeof jstype_eqb orb andb].
  assert (Hn : isNaN n = false) by (destruct n; [discriminate H | | |]; reflexivity).
  rewrite Hn. unfold roundedPrice. rewrite (Math_max_zero_negative n H).
  reflexivity.
Qed.

Lemma transformPrice_negative_number_witness :
  transformPrice (VNumber (ofDecimal true 1999 100)) = js "0.00".
Proof. apply transformPrice_negative_number. reflexivity. Defined.

(** *** transformProductResponse: defaults and the shadowed method *)

Lemma transformProductResponse_frame_witness :
  exists t,
    transformProductResponse
      (VObject [ (js "id", VString (js "7")); (js "color", VString (js "red")) ])
    = Return t
    /\ lookup (js "color") (own t) = Some (VString (js "red"))
    /\ lookup (js "title") (own t) = Some (VString (js "Untitled Product")).
Proof.
  destruct (transformProductResponse_frame
              [ (js "id", VString (js "7")); (js "color", VString (js "red")) ]
              eq_refl) as (t & Ht & Hother & Hcanon).
  exists t. split; [exact Ht|]. split.
  - now rewrite (Hother (js "color") eq_refl).
  - now rewrite (Hcanon (js "title") eq_refl).
Defined.

Lemma plainKeys_lookup (props : list (jsstring * value)) :
  plainKeys props = true -> lookup (js "hasOwnProperty") props = None.
Proof.
  induction props as [|[k v] rest IH]; [reflexivity|].
  cbn [plainKeys forallb fst]. intros H.
  apply andb_prop in H as [Hk Hrest]. apply andb_prop in Hk as [_ Hk].
  apply negb_true_iff in Hk. cbn [lookup]. rewrite Hk. now apply IH.
Qed.

Lemma fieldDefault_canonical (key : jsstring) (d : value) :
  fieldDefault key = Some d ->
  forall data,
    lookup key (canonicalFields data)
    = Some (nullish (getProperty data key) d).
Proof.
  unfold fieldDefault. intros H data.
  repeat match type of H with
         | (if str_eqb key ?k then _ else _) = _ =>
             let E := fresh "E" in
             destruct (str_eqb key k) eqn:E;
             [apply str_eqb_eq in E; subst key; injection H as <-; reflexivity|]
         end.
  discriminate H.
Qed.

(** X5: the five text fields and their defaults.  On a record without
    the fields [__proto__] and [hasOwnProperty], each of [id], [title],
    [description], [image] and [category] takes its default exactly
    when the field is missing, [null] or [undefined]; any other value,
    the empty string, [0] and [false] among them, is kept as it is. *)
Theorem transformProductResponse_defaults
        (props : list (jsstring * value)) (key : jsstring) (d : value) :
  plainKeys props = true ->
  fieldDefault key = Some d ->
  exists t,
    transformProductResponse (VObject props) = Return t
    /\ lookup key (own t)
       = Some match lookup key props with
              | None | Some VNull | Some VUndefined => d
              | Some v => v
              end.
Proof.
  intros Hplain Hd.
  destruct (preserveFields_entries
              props (mkObject (canonicalFields (VObject props)) ObjectPrototype)
              Hplain eq_refl eq_refl)
    as (t & Hp & _ & Hl).
  exists t. split.
  - unfold transformProductResponse. cbn [truthy typeof jstype_eqb negb orb
                                          Array_isArray].
    fold (canonicalFields (VObject props)). now rewrite Hp.
  - rewrite Hl. cbn [own].
    rewrite (fieldDefault_canonical key d Hd). cbn [getProperty].
    destruct (lookup key props) as [[]|]; reflexivity.
Qed.

Lemma transformProductResponse_defaults_witness :
  exists t,
    transformProductResponse
      (VObject [ (js "title", VString []); (js "category", VNull) ])
    = Return t
    /\ lookup (js "title") (own t) = Some (VString []).
Proof.
  apply (transformProductResponse_defaults
           [ (js "title", VString []); (js "category", VNull) ]
           (js "title") (VString (js "Untitled Product")));
    reflexivity.
Defined.

Lemma preserveFields_app (l1 l2 : list (jsstring * value)) : forall t,
  preserveFields (l1 ++ l2) t
  = match preserveFields l1 t with
    | Some t' => preserveFields l2 t'
    | None => None
    end.
Proof.
  induction l1 as [|[k v] l1 IH]; intros t; cbn [app preserveFields];
    [reflexivity|].
  destruct (hasOwnPropertyCallable t); [|reflexivity].
  destruct (negb (hasKey k (own t))); apply IH.
Qed.

Lemma sortEntries_perm (l : list (jsstring * value)) :
  Permutation (fold_right insertEntry [] l) l.
Proof.
  induction l as [|e l IH]; cbn [fold_right]; [reflexivity|].
  rewrite insertEntry_perm. now constructor.
Qed.

(** An array index is neither [__proto__] nor [hasOwnProperty]. *)
Lemma arrayIndex_plain (k : jsstring) :
  isArrayIndex k = true ->
  negb (str_eqb k (js "__proto__")) && negb (str_eqb k (js "hasOwnProperty"))
  = true.
Proof.
  intros H.
  destruct (str_eqb k (js "__proto__")) eqn:E1;
    [apply str_eqb_eq in E1; subst k; discriminate H|].
  destruct (str_eqb k (js "hasOwnProperty")) eqn:E2;
    [apply str_eqb_eq in E2; subst k; discriminate H|].
  reflexivity.
Qed.

(** The fields that are enumerated before a field [hasOwnProperty]
    that follows plain fields: every array index of the record, then
    the other fields that were created before it. *)
Lemma entries_before_shadow (before after : list (jsstring * value)) (v : value) :
  plainKeys before = true ->
  exists head,
    plainKeys head = true
    /\ Object_entries (VObject (before ++ (js "hasOwnProperty", v) :: after))
       = head ++ (js "hasOwnProperty", v)
              :: filter (fun e => negb (isArrayIndex (fst e))) after.
Proof.
  intros Hplain.
  set (props := before ++ (js "hasOwnProperty", v) :: after).
  exists (fold_right insertEntry []
                     (filter (fun e => isArrayIndex (fst e)) props)
          ++ filter (fun e => negb (isArrayIndex (fst e))) before).
  split.
  - unfold plainKeys. rewrite forallb_app. apply andb_true_intro. split.
    + rewrite (forallb_perm _ _ _ (sortEntries_perm _)).
      apply forallb_forall. intros [k x] Hin.
      apply filter_In in Hin as [_ Hidx]. now apply arrayIndex_plain.
    + apply forallb_forall. intros e Hin.
      apply filter_In in Hin as [Hin _].
      unfold plainKeys in Hplain. rewrite forallb_forall in Hplain.
      now apply Hplain.
  - cbn [Object_entries]. fold props. unfold ownEntries.
    rewrite <- app_assoc. f_equal.
    unfold props. rewrite filter_app. reflexivity.
Qed.

(** X6: a field named [hasOwnProperty] shadows the method that the
    copying loop calls.  The fields are visited in enumeration order:
    the array indices first, then the other fields in the order of the
    record.  In a record that is plain up to that field, the field is
    copied, and the next field visited makes the call fail.  So the
    record is rejected with "Failed to transform product data" exactly
    when some field after it is not an array index; when every field
    after it is one, those are visited before it and the record is
    accepted, with the field copied. *)
Theorem transformProductResponse_shadowed
        (before after : list (jsstring * value)) (v : value) :
  plainKeys before = true ->
  (existsb (fun e => negb (isArrayIndex (fst e))) after = true ->
   transformProductResponse
     (VObject (before ++ (js "hasOwnProperty", v) :: after))
   = Throw (TransformError (js "Failed to transform product data")))
  /\ (forallb (fun e => isArrayIndex (fst e)) after = true ->
      exists t,
        transformProductResponse
          (VObject (before ++ (js "hasOwnProperty", v) :: after))
        = Return t
        /\ lookup (js "hasOwnProperty") (own t) = Some v).
Proof.
  intros Hplain.
  set (data := VObject (before ++ (js "hasOwnProperty", v) :: after)).
  destruct (entries_before_shadow before after v Hplain)
    as (head & Hhead & Hent).
  fold data in Hent.
  destruct (preserveFields_plain
              head (mkObject (canonicalFields data) ObjectPrototype)
              Hhead eq_refl eq_refl)
    as (t & Hp & Hproto & Hl).
  assert (Hown : hasKey (js "hasOwnProperty") (own t) = false).
  { unfold hasKey. rewrite Hl. cbn [own].
    pose proof (lookup_canonicalFields data (js "hasOwnProperty")) as Hc.
    change (isCanonical (js "hasOwnProperty")) with false in Hc.
    cbv iota in Hc. rewrite Hc. now rewrite (plainKeys_lookup head Hhead). }
  assert (Ha : assign t (js "hasOwnProperty") v
               = defineOwn t (js "hasOwnProperty") v) by reflexivity.
  assert (Hrun : transformProductResponse data
                 = match preserveFields
                           (filter (fun e => negb (isArrayIndex (fst e))) after)
                           (defineOwn t (js "hasOwnProperty") v) with
                   | Some t' => Return t'
                   | None =>
                       Throw (TransformError
                                (js "Failed to transform product data"))
                   end).
  { unfold transformProductResponse.
    cbn [data truthy typeof jstype_eqb negb orb Array_isArray].
    fold data. fold (canonicalFields data).
    rewrite Hent, preserveFields_app, Hp. cbn [preserveFields].
    unfold hasOwnPropertyCallable at 1. rewrite Hown, Hproto.
    cbn [negb andb]. now rewrite Ha. }
  rewrite Hrun. split.
  - intros Hsome.
    destruct (filter (fun e => negb (isArrayIndex (fst e))) after)
      as [|[k2 v2] rest] eqn:Hf.
    + apply existsb_exists in Hsome as (x & Hin & Hx).
      assert (Hin' : In x (filter (fun e => negb (isArrayIndex (fst e))) after))
        by (apply filter_In; now split).
      rewrite Hf in Hin'. destruct Hin'.
    + cbn [preserveFields].
      assert (Hcall : hasOwnPropertyCallable
                        (defineOwn t (js "hasOwnProperty") v) = false).
      { unfold hasOwnPropertyCallable, defineOwn, hasKey. cbn [own].
        rewrite lookup_app. unfold hasKey in Hown.
        destruct (lookup (js "hasOwnProperty") (own t)); [discriminate|].
        reflexivity. }
      now rewrite Hcall.
  - intros Hall.
    assert (Hf : filter (fun e => negb (isArrayIndex (fst e))) after = []).
    { clear -Hall. induction after as [|x r IH]; [reflexivity|].
      cbn [forallb] in Hall. apply andb_prop in Hall as [Hx Hr].
      cbn [filter]. rewrite Hx. cbn [negb]. now apply IH. }
    rewrite Hf. cbn [preserveFields]. eexists. split; [reflexivity|].
    unfold defineOwn. cbn [own]. rewrite lookup_app. unfold hasKey in Hown.
    destruct (lookup (js "hasOwnProperty") (own t)); [discriminate|].
    reflexivity.
Qed.

Lemma transformProductResponse_shadowed_witness :
  transformProductResponse
    (VObject [ (js "id", VString (js "3"));
               (js "hasOwnProperty", VBool true);
               (js "7", VNumber (num 1));
               (js "color", VString (js "red")) ])
  = Throw (TransformError (js "Failed to transform product data"))
  /\ exists t,
       transformProductResponse
         (VObject [ (js "hasOwnProperty", VBool true);
                    (js "7", VNumber (num 1)) ])
       = Return t
       /\ lookup (js "hasOwnProperty") (own t) = Some (VBool true).
Proof.
  split.
  - apply (proj1 (transformProductResponse_shadowed
                    [ (js "id", VString (js "3")) ]
                    [ (js "7", VNumber (num 1));
                      (js "color", VString (js "red")) ]
                    (VBool true) eq_refl)).
    reflexivity.
  - apply (proj2 (transformProductResponse_shadowed
                    [] [ (js "7", VNumber (num 1)) ] (VBool true) eq_refl)).
    reflexivity.
Defined.

(** *** productService: validation and classification *)

(** X7: what [validateResponse] lets through, and how it fails.  A
    value it returns is the [data] of the response, is neither [null]
    nor [undefined], is an array when one is required, and is not an
    empty array or record unless empty data is allowed; the only other
    value it returns is the stand-in of the test environment for a
    [null] body.  Whatever it throws is an APIError with code
    INVALID_RESPONSE and status 500 that is not retryable. *)
Theorem validateResponse_outcome
        (NODE_ENV : value) (response : option response)
        (requireArray allowEmpty : bool) :
  match validateResponse NODE_ENV response requireArray allowEmpty with
  | Return d =>
      exists r,
        response = Some r
        /\ ((data r = Some d
             /\ isNull d = false /\ isUndefined d = false
             /\ (requireArray = true -> Array_isArray d = true)
             /\ (allowEmpty = false -> jstype_eqb (typeof d) TObject = true ->
                 Object_keys d <> []))
            \/ (envIs NODE_ENV (js "test") = true
                /\ (data r = Some VNull \/ data r = Some VUndefined)
                /\ d = if requireArray then VArray [] else VNull))
  | Throw e =>
      errClass e = ClassAPIError
      /\ errCode e = Some (js "INVALID_RESPONSE")
      /\ errStatus e = Some 500
      /\ errRetryable e = false
  end.
Proof.
  unfold validateResponse.
  destruct response as [r|]; [|now repeat split].
  destruct (data r) as [d|] eqn:Hd; [|now repeat split].
  destruct (isNull d || isUndefined d) eqn:Hnull.
  - destruct (envIs NODE_ENV (js "test")) eqn:Henv; [|now repeat split].
    exists r. split; [reflexivity|]. right. repeat split.
    destruct d; try discriminate Hnull; auto.
  - apply orb_false_iff in Hnull as [Hn Hu].
    destruct (requireArray && negb (Array_isArray d)) eqn:Harr;
      [now repeat split|].
    destruct (negb allowEmpty && _) eqn:Hempty; [now repeat split|].
    exists r. split; [reflexivity|]. left. repeat split; try assumption.
    + intros ->. cbn in Harr. now apply negb_false_iff in Harr.
    + intros -> Hobj Hkeys. rewrite Hobj, Hkeys in Hempty. cbn in Hempty.
      now rewrite orb_true_r in Hempty.
Qed.

Lemma classify_codes (error : option exn) : In (classify error) classifierCodes.
Proof.
  unfold classify, classifierCodes.
  destruct error as [e|]; [|cbn; tauto].
  destruct (instanceofTransformError e); [cbn; tauto|].
  destruct (fieldIs (errCode e) (js "ECONNABORTED")); [cbn; tauto|].
  destruct (errResponse e) as [r|]; [|destruct (errRequest e); cbn; tauto].
  cbv zeta.
  repeat match goal with
         | |- context [if ?b then _ else _] => destruct b; [cbn; tauto|]
         end.
  cbn; tauto.
Qed.

(** X8: every error that [handleApiError] throws is an APIError built
    from the table: its code is one of the ten codes the classifier can
    settle on (never REQUEST_CANCELLED, never INVALID_RESPONSE), its
    status and its message are the table's (the original message is
    dropped), it is retryable exactly for TIMEOUT, NETWORK_ERROR,
    SERVER_ERROR, RATE_LIMIT and UNKNOWN_ERROR, and it carries a retry
    delay exactly when it is retryable. *)
Theorem handleApiError_thrown (error : option exn) :
  exists c,
    In c classifierCodes
    /\ errClass (handleApiError error) = ClassAPIError
    /\ errCode (handleApiError error) = Some (codeName c)
    /\ errStatus (handleApiError error) = Some (info_status (ERROR_CODES c))
    /\ errMessage (handleApiError error) = Some (info_message (ERROR_CODES c))
    /\ (errRetryable (handleApiError error) = true <-> In c retryableCodes)
    /\ (errRetryDelay (handleApiError error) = None
        <-> errRetryable (handleApiError error) = false).
Proof.
  exists (classify error). split; [apply classify_codes|].
  unfold handleApiError. cbv zeta.
  destruct (classify error); cbn; repeat split; intros; try discriminate;
    try tauto; intuition discriminate.
Qed.

Lemma handleApiError_class (error : option exn) :
  errClass (handleApiError error) = ClassAPIError
  /\ errName (handleApiError error) = Some (js "APIError")
  /\ errResponse (handleApiError error) = None
  /\ errRequest (handleApiError error) = false.
Proof.
  unfold handleApiError. cbv zeta.
  now destruct (info_retryable _).
Qed.

(** An error that went through [handleApiError] once comes out of a
    second pass as UNKNOWN_ERROR. *)
Lemma handleApiError_twice (error : option exn) :
  classify (Some (handleApiError error)) = UNKNOWN_ERROR.
Proof.
  unfold classify.
  destruct (handleApiError_class error) as (Hc & _ & Hr & Hq).
  unfold instanceofTransformError. rewrite Hc, Hr, Hq.
  rewrite handleApiError_code.
  now destruct (classify error).
Qed.

Lemma classify_cancelled : classify (Some cancelled) = UNKNOWN_ERROR.
Proof. reflexivity. Qed.

Lemma attemptLoop_escaped NODE_ENV productId config signal retries retryDelay
      (script : list transport) :
  forall attempt calls lastError x,
    snd (attemptLoop NODE_ENV productId config signal retries retryDelay
                     script attempt calls lastError) = Escaped x ->
    x = cancelled.
Proof.
  induction script as [|t rest IH]; intros attempt calls lastError x;
    cbn [attemptLoop]; cbv zeta;
    destruct (negb (leq (num attempt) (ToNumber retries)));
    try discriminate.
  destruct (attemptOnce NODE_ENV t) as [v|error]; [discriminate|].
  destruct (isAbortError error || aborted signal (S calls)).
  - cbn. now intros [= <-].
  - destruct (negb _ || geq (num attempt) (ToNumber retries)); [discriminate|].
    specialize (IH (attempt + 1) (S calls) (Some error) x).
    destruct (attemptLoop NODE_ENV productId config signal retries retryDelay
                          rest (attempt + 1) (S calls) (Some error)).
    exact IH.
Qed.

(** X9: the codes with which [getProductById] rejects.  Whatever the
    options and whatever the transport does, a rejection carries
    VALIDATION_ERROR (the product id is missing or not a string),
    REQUEST_CANCELLED or UNKNOWN_ERROR: the error of the last attempt
    is classified inside the outer [try], so the [catch] classifies the
    classified error a second time, and the codes TIMEOUT,
    NETWORK_ERROR, NOT_FOUND, SERVER_ERROR and the others never reach
    the caller. *)
Theorem getProductById_rejection_codes
        (NODE_ENV productId : value) (options : options)
        (script : list transport) :
  match snd (getProductById NODE_ENV productId options script) with
  | Settled (Throw e) =>
      errCode e = Some (js "VALIDATION_ERROR")
      \/ errCode e = Some (js "REQUEST_CANCELLED")
      \/ errCode e = Some (js "UNKNOWN_ERROR")
  | _ => True
  end.
Proof.
  unfold getProductById.
  destruct (negb (truthy productId)
            || negb (jstype_eqb (typeof productId) TString));
    [left; reflexivity|].
  cbv zeta.
  match goal with
  | |- context [attemptLoop ?a ?b ?c ?d ?e ?f ?g ?h ?i ?j] =>
      pose proof (attemptLoop_escaped a b c d e f g h i j) as He;
      destruct (attemptLoop a b c d e f g h i j) as [effects e']
  end.
  cbn [snd] in He.
  destruct e' as [v | x | lastError attempt |]; cbn [snd]; try exact I.
  - rewrite (He x eq_refl).
    destruct (isAbortError cancelled || aborted (opt_signal options) _);
      right; [left | right]; [reflexivity|].
    now rewrite handleApiError_code, classify_cancelled.
  - destruct (isAbortError (handleApiError lastError)
              || aborted (opt_signal options) _);
      right; [left | right]; [reflexivity|].
    now rewrite handleApiError_code, handleApiError_twice.
Qed.

(** *** getProductById: what is retried, what is not *)

Lemma validateResponse_throws NODE_ENV response requireArray allowEmpty e :
  validateResponse NODE_ENV response requireArray allowEmpty = Throw e ->
  exists message, e = APIError message 500 INVALID_RESPONSE.
Proof.
  unfold validateResponse.
  destruct response as [r|]; [|intros [= <-]; eexists; reflexivity].
  destruct (data r) as [d|]; [|intros [= <-]; eexists; reflexivity].
  repeat match goal with
         | |- context [if ?b then _ else _] =>
             destruct b; try discriminate;
             try (intros [= <-]; eexists; reflexivity)
         end.
Qed.

Lemma transformProductResponse_throws data e :
  transformProductResponse data = Throw e -> instanceofTransformError e = true.
Proof.
  unfold transformProductResponse.
  destruct (negb (truthy data) || negb (jstype_eqb (typeof data) TObject)
            || Array_isArray data); [now intros [= <-]|].
  destruct (preserveFields _ _); [discriminate | now intros [= <-]].
Qed.

(** The APIErrors of one attempt on a response are INVALID_RESPONSE. *)
Lemma attemptOnce_APIError NODE_ENV (resp : response) (e : exn) :
  attemptOnce NODE_ENV (Responds resp) = Throw e ->
  instanceofAPIError e = true ->
  errCode e = Some (js "INVALID_RESPONSE") /\ isAbortError e = false.
Proof.
  unfold attemptOnce, Api.get, responseInterceptor.
  destruct (negb (truthy (responseData resp))).
  { intros [= <-]. discriminate. }
  destruct (status resp =? 304); [discriminate|].
  destruct (validateResponse NODE_ENV (Some resp) false false) as [d|e'] eqn:Hv.
  - destruct (negb (truthy d) || negb (jstype_eqb (typeof d) TObject)).
    + intros [= <-] _. now split.
    + destruct (transformProductResponse d) as [t|e''] eqn:Ht; [discriminate|].
      intros [= <-] Hapi. apply transformProductResponse_throws in Ht.
      unfold instanceofAPIError in Hapi. unfold instanceofTransformError in Ht.
      destruct (errClass e''); discriminate.
  - intros [= <-] _. apply validateResponse_throws in Hv as (message & ->).
    now split.
Qed.

Section Retries.

Variables (NODE_ENV productId : value) (config : requestConfig).
Variables (retryDelay : value) (r : Z).

Lemma attemptLoop_retried (script : list transport) :
  forall attempt calls lastError,
    0 <= attempt <= r ->
    forallb (retriedFailure NODE_ENV) script = true ->
    (Z.to_nat (r + 1 - attempt) <= length script)%nat ->
    let '(effects, e) :=
      attemptLoop NODE_ENV productId config None (VNumber (num r)) retryDelay
                  script attempt calls lastError in
    countCalls effects = Z.to_nat (r + 1 - attempt)
    /\ length (timeouts effects) = Z.to_nat (r - attempt)
    /\ exists error, e = Fell (Some error) r.
Proof.
  induction script as [|t rest IH]; intros attempt calls lastError Ha Hall Hlen.
  - cbn [length] in Hlen. lia.
  - cbn [forallb] in Hall. apply andb_prop in Hall as [Ht Hrest].
    cbn [attemptLoop ToNumber]. rewrite leq_num.
    destruct (Z.leb_spec attempt r) as [_|]; [|lia]. cbn [negb].
    unfold retriedFailure in Ht.
    destruct (attemptOnce NODE_ENV t) as [v|error]; [discriminate|].
    apply andb_prop in Ht as [Hapi Habort].
    apply negb_true_iff in Hapi, Habort.
    rewrite Habort, Hapi. cbn [aborted orb]. cbv zeta.
    change (ERROR_CODES_at (Some (js "UNKNOWN_ERROR")))
      with (Some (ERROR_CODES UNKNOWN_ERROR)).
    cbn [ERROR_CODES info_retryable negb orb]. rewrite geq_num.
    destruct (Z.leb_spec r attempt) as [Hge|Hlt].
    + assert (attempt = r) by lia. subst attempt.
      replace (r + 1 - r) with 1 by lia. rewrite Z.sub_diag.
      cbn. repeat split. now exists error.
    + specialize (IH (attempt + 1) (S calls) (Some error)).
      destruct (attemptLoop NODE_ENV productId config None (VNumber (num r))
                            retryDelay rest (attempt + 1) (S calls) (Some error))
        as [effects e].
      cbn [length] in Hlen.
      destruct IH as (Hc & Hw & Hf); [lia | exact Hrest | lia |].
      unfold countCalls in *. cbn [filter length timeouts flat_map app].
      fold (timeouts effects).
      rewrite Hc, Hw. repeat split; [lia | lia | exact Hf].
Qed.

End Retries.

Lemma truthy_id (s : jsstring) :
  s <> [] ->
  negb (truthy (VString s)) || negb (jstype_eqb (typeof (VString s)) TString)
  = false.
Proof. destruct s; [congruence | reflexivity]. Qed.

(** X12: a failed attempt is retried whatever made it fail, as long as
    the error is not an APIError: a rejection of the transport with
    status 404 or 400 is retried like one with status 503, and so is a
    body that the normalizer turns down.  With [retries] set to [r]
    and at least [r + 1] such failures in a row, [getProductById]
    calls the transport exactly [r + 1] times, waits [r] times, and
    rejects with UNKNOWN_ERROR. *)
Theorem getProductById_retries_every_failure
        (NODE_ENV : value) (id : jsstring) (r : Z) (script : list transport) :
  id <> [] ->
  0 <= r ->
  forallb (retriedFailure NODE_ENV) script = true ->
  (Z.to_nat (r + 1) <= length script)%nat ->
  let '(effects, p) :=
    getProductById NODE_ENV (VString id) (withRetries r) script in
  countCalls effects = Z.to_nat (r + 1)
  /\ length (timeouts effects) = Z.to_nat r
  /\ exists x, p = Settled (Throw x)
               /\ errCode x = Some (js "UNKNOWN_ERROR").
Proof.
  intros Hid Hr Hall Hlen. unfold getProductById.
  rewrite (truthy_id id Hid). cbv zeta.
  cbn [withRetries opt_retries opt_signal opt_timeout opt_retryDelay
       opt_cache opt_etag opt_lastModified defaultTo isUndefined].
  match goal with
  | |- context [attemptLoop ?a ?b ?c None ?e ?f ?g ?h ?i ?j] =>
      pose proof (attemptLoop_retried a b c f r g h i j) as Hl;
      destruct (attemptLoop a b c None e f g h i j) as [effects e']
  end.
  destruct Hl as (Hc & Hw & error & ->); [lia | exact Hall | |].
  { now rewrite Z.sub_0_r. }
  rewrite Z.sub_0_r in Hc, Hw.
  repeat split; [exact Hc | exact Hw |].
  destruct (handleApiError_class (Some error)) as (_ & Hname & _).
  unfold isAbortError. rewrite Hname. cbn [fieldIs aborted orb].
  change (str_eqb (js "APIError") (js "AbortError")) with false.
  cbv iota. eexists. split; [reflexivity|].
  now rewrite handleApiError_code, handleApiError_twice.
Qed.

Lemma getProductById_retries_every_failure_witness :
  let '(effects, p) :=
    getProductById (VString (js "production")) (VString (js "42"))
                   (withRetries 2)
                   [ Rejects (httpError 404); Rejects (httpError 400);
                     Responds (okResponse (VArray [VNull])) ] in
  countCalls effects = 3%nat
  /\ length (timeouts effects) = 2%nat
  /\ exists x, p = Settled (Throw x)
               /\ errCode x = Some (js "UNKNOWN_ERROR").
Proof.
  apply (getProductById_retries_every_failure
           (VString (js "production")) (js "42") 2
           [ Rejects (httpError 404); Rejects (httpError 400);
             Responds (okResponse (VArray [VNull])) ]).
  - discriminate.
  - lia.
  - reflexivity.
  - cbn. lia.
Defined.

(** X13: a body that validation turns down is never retried.  When the
    first attempt on a response fails with an APIError (the body is
    [null], an empty record or array, or not an object), its code is
    INVALID_RESPONSE, which is not retryable: [getProductById] calls
    the transport once, sets no timer, and rejects with
    UNKNOWN_ERROR. *)
Theorem getProductById_invalid_body_not_retried
        (NODE_ENV : value) (id : jsstring) (r : Z) (resp : response)
        (rest : list transport) (e : exn) :
  id <> [] ->
  0 <= r ->
  attemptOnce NODE_ENV (Responds resp) = Throw e ->
  instanceofAPIError e = true ->
  let '(effects, p) :=
    getProductById NODE_ENV (VString id) (withRetries r)
                   (Responds resp :: rest) in
  countCalls effects = 1%nat
  /\ timeouts effects = []
  /\ exists x, p = Settled (Throw x)
               /\ errCode x = Some (js "UNKNOWN_ERROR").
Proof.
  intros Hid Hr Hfail Hapi.
  destruct (attemptOnce_APIError NODE_ENV resp e Hfail Hapi) as [Hcode Habort].
  unfold getProductById.
  rewrite (truthy_id id Hid). cbv zeta.
  cbn [withRetries opt_retries opt_signal opt_timeout opt_retryDelay
       opt_cache opt_etag opt_lastModified defaultTo isUndefined].
  cbn [attemptLoop ToNumber]. rewrite leq_num.
  destruct (Z.leb_spec 0 r) as [_|]; [|lia]. cbn [negb].
  rewrite Hfail, Habort, Hapi, Hcode. cbn [aborted orb]. cbv zeta.
  change (ERROR_CODES_at (Some (js "INVALID_RESPONSE")))
    with (Some (ERROR_CODES INVALID_RESPONSE)).
  cbn [ERROR_CODES info_retryable negb orb].
  repeat split.
  destruct (handleApiError_class (Some e)) as (_ & Hname & _).
  unfold isAbortError. rewrite Hname. cbn [fieldIs aborted orb].
  change (str_eqb (js "APIError") (js "AbortError")) with false.
  cbv iota. eexists. split; [reflexivity|].
  now rewrite handleApiError_code, handleApiError_twice.
Qed.

Lemma getProductById_invalid_body_not_retried_witness :
  let '(effects, p) :=
    getProductById (VString (js "production")) (VString (js "42"))
                   (withRetries 2)
                   [ Responds (okResponse (VString (js "oops")));
                     Responds (okResponse (sampleRecord "42")) ] in
  countCalls effects = 1%nat
  /\ timeouts effects = []
  /\ exists x, p = Settled (Throw x)
               /\ errCode x = Some (js "UNKNOWN_ERROR").
Proof.
  apply (getProductById_invalid_body_not_retried
           (VString (js "production")) (js "42") 2
           (okResponse (VString (js "oops")))
           [ Responds (okResponse (sampleRecord "42")) ]
           (APIError (js "Invalid product data format") 500 INVALID_RESPONSE)).
  - discriminate.
  - lia.
  - reflexivity.
  - reflexivity.
Defined.

(** *** getProductById: cancellation and the delivered record *)

(** X14: cancellation during the first attempt.  When the attempt
    fails and the signal is aborted by then, the loop stops at once:
    one call, no timer, and the rejection is the REQUEST_CANCELLED
    error, whatever the failure was.  Without a signal, a failure named
    AbortError stops the loop in the same way, but the outer [catch]
    then classifies the cancellation as UNKNOWN_ERROR. *)
Theorem getProductById_cancelled
        (NODE_ENV : value) (id : jsstring) (options : options) (r : Z)
        (t : transport) (rest : list transport) (e : exn) :
  id <> [] ->
  opt_retries options = VNumber (num r) ->
  0 <= r ->
  attemptOnce NODE_ENV t = Throw e ->
  let outcome := getProductById NODE_ENV (VString id) options (t :: rest) in
  (aborted (opt_signal options) 1 = true ->
   countCalls (fst outcome) = 1%nat /\ timeouts (fst outcome) = []
   /\ snd outcome = Settled (Throw cancelled))
  /\ (opt_signal options = None -> isAbortError e = true ->
      countCalls (fst outcome) = 1%nat /\ timeouts (fst outcome) = []
      /\ exists x, snd outcome = Settled (Throw x)
                   /\ errCode x = Some (js "UNKNOWN_ERROR")
                   /\ errRetryable x = true).
Proof.
  intros Hid Hretries Hr Hfail outcome.
  assert (Hout : outcome
                 = if isAbortError e || aborted (opt_signal options) 1
                   then ([ApiGet (VString id)
                                 (mkConfig
                                    (defaultTo (opt_timeout options)
                                       (getProperty DEFAULT_CONFIG (js "timeout")))
                                    (defaultTo (opt_cache options) (VBool true))
                                    (defaultTo (opt_etag options) (VString []))
                                    (defaultTo (opt_lastModified options)
                                               (VString [])))],
                         Settled (if aborted (opt_signal options) 1
                                  then Throw cancelled
                                  else Throw (handleApiError (Some cancelled))))
                   else outcome).
  { unfold outcome at 1. unfold getProductById.
    rewrite (truthy_id id Hid). cbv zeta.
    rewrite Hretries. cbn [defaultTo isUndefined].
    cbn [attemptLoop ToNumber]. rewrite leq_num.
    destruct (Z.leb_spec 0 r) as [_|]; [|lia]. cbn [negb].
    rewrite Hfail.
    destruct (isAbortError e || aborted (opt_signal options) 1) eqn:Hstop.
    - reflexivity.
    - unfold outcome, getProductById.
      rewrite (truthy_id id Hid). cbv zeta.
      rewrite Hretries. cbn [defaultTo isUndefined].
      cbn [attemptLoop ToNumber]. rewrite leq_num.
      destruct (Z.leb_spec 0 r) as [_|]; [|lia]. cbn [negb].
      now rewrite Hfail, Hstop. }
  split.
  - intros Hsig. rewrite Hout, Hsig, orb_true_r. now repeat split.
  - intros Hnone Habort. rewrite Hout, Habort, Hnone. cbn [orb aborted].
    repeat split. eexists. repeat split.
Qed.

Lemma getProductById_cancelled_witness :
  let outcome :=
    getProductById (VString (js "production")) (VString (js "42"))
                   (sentOptions (mkPending 1 (VString (js "42")) 0
                                           VNull VNull false)
                                (Some (fun calls => Nat.leb 1 calls)))
                   [ Rejects (httpError 503);
                     Responds (okResponse (sampleRecord "42")) ] in
  countCalls (fst outcome) = 1%nat /\ timeouts (fst outcome) = []
  /\ snd outcome = Settled (Throw cancelled).
Proof.
  apply (getProductById_cancelled
           (VString (js "production")) (js "42")
           (sentOptions (mkPending 1 (VString (js "42")) 0 VNull VNull false)
                        (Some (fun calls => Nat.leb 1 calls)))
           2 (Rejects (httpError 503))
           [ Responds (okResponse (sampleRecord "42")) ] (httpError 503));
    try reflexivity; try discriminate; lia.
Defined.

Lemma lookup_setOwn (props : list (jsstring * value)) (k : jsstring) (v : value) :
  forall key,
    lookup key (setOwn props k v)
    = if str_eqb k key then Some v else lookup key props.
Proof.
  induction props as [|[k0 x] rest IH]; intros key; cbn [setOwn lookup].
  - reflexivity.
  - destruct (str_eqb k0 k) eqn:E0.
    + apply str_eqb_eq in E0. subst k0. cbn [lookup].
      now destruct (str_eqb k key).
    + cbn [lookup]. rewrite IH.
      destruct (str_eqb k0 key) eqn:E1; [|reflexivity].
      apply str_eqb_eq in E1. subst k0. now rewrite str_eqb_sym, E0.
Qed.

(** X15: the record that [getProductById] resolves with.  When the
    first response has a status other than 304 and a body that is a
    non-empty record which [transformProductResponse] accepts, the call
    resolves after that one call with the normalized record plus the
    caching metadata: [cached] is [false], and [etag] and
    [lastModified] are the response headers, which replace fields of
    those names in the body; every other field is the normalized
    record's. *)
Theorem getProductById_delivers
        (NODE_ENV : value) (id : jsstring) (options : options) (r : Z)
        (resp : response) (props : list (jsstring * value)) (t : object)
        (rest : list transport) :
  id <> [] ->
  opt_retries options = VNumber (num r) ->
  0 <= r ->
  status resp <> 304 ->
  data resp = Some (VObject props) ->
  props <> [] ->
  transformProductResponse (VObject props) = Return t ->
  exists fields,
    snd (getProductById NODE_ENV (VString id) options (Responds resp :: rest))
    = Settled (Return (VObject fields))
    /\ countCalls
         (fst (getProductById NODE_ENV (VString id) options
                              (Responds resp :: rest))) = 1%nat
    /\ lookup (js "cached") fields = Some (VBool false)
    /\ lookup (js "etag") fields = Some (header_etag resp)
    /\ lookup (js "lastModified") fields = Some (header_lastModified resp)
    /\ forall key,
         str_eqb (js "cached") key = false ->
         str_eqb (js "etag") key = false ->
         str_eqb (js "lastModified") key = false ->
         lookup key fields = lookup key (own t).
Proof.
  intros Hid Hretries Hr Hstatus Hdata Hprops Ht.
  assert (Honce : attemptOnce NODE_ENV (Responds resp)
                  = Return (VObject
                              (setOwn
                                 (setOwn
                                    (setOwn (own t) (js "cached") (VBool false))
                                    (js "etag") (header_etag resp))
                                 (js "lastModified") (header_lastModified resp)))).
  { unfold attemptOnce, Api.get, responseInterceptor, responseData.
    rewrite Hdata. cbn [truthy negb].
    apply Z.eqb_neq in Hstatus. rewrite Hstatus.
    unfold validateResponse. rewrite Hdata.
    cbn [isNull isUndefined orb andb negb Array_isArray typeof jstype_eqb].
    unfold Object_keys. rewrite length_map. cbn [Object_entries].
    rewrite ownEntries_length.
    assert (Hlen : (length props =? 0)%nat = false)
      by (destruct props; [congruence | reflexivity]).
    rewrite Hlen. cbn [andb orb truthy negb typeof jstype_eqb].
    now rewrite Ht. }
  eexists. unfold getProductById.
  rewrite (truthy_id id Hid). cbv zeta.
  rewrite Hretries. cbn [defaultTo isUndefined].
  cbn [attemptLoop ToNumber]. rewrite leq_num.
  destruct (Z.leb_spec 0 r) as [_|]; [|lia]. cbn [negb].
  rewrite Honce. cbn [fst snd].
  split; [reflexivity|]. split; [reflexivity|].
  rewrite !lookup_setOwn.
  repeat split.
  intros key Hc He Hl. now rewrite !lookup_setOwn, Hc, He, Hl.
Qed.

Lemma getProductById_delivers_witness :
  exists fields,
    snd (getProductById (VString (js "production")) (VString (js "42"))
                        (withRetries 2)
                        [ Responds {| status := 200;
                                      data := Some (VObject
                                                [ (js "id", VString (js "42"));
                                                  (js "etag", VString (js "old")) ]);
                                      header_etag := VString (js "new");
                                      header_lastModified := VUndefined |} ])
    = Settled (Return (VObject fields))
    /\ lookup (js "etag") fields = Some (VString (js "new"))
    /\ lookup (js "price") fields = Some (VString (js "0.00")).
Proof.
  destruct (transformProductResponse
              (VObject [ (js "id", VString (js "42"));
                         (js "etag", VString (js "old")) ])) as [t|e] eqn:Ht;
    [|discriminate Ht].
  destruct (getProductById_delivers
              (VString (js "production")) (js "42") (withRetries 2) 2
              {| status := 200;
                 data := Some (VObject [ (js "id", VString (js "42"));
                                         (js "etag", VString (js "old")) ]);
                 header_etag := VString (js "new");
                 header_lastModified := VUndefined |}
              [ (js "id", VString (js "42")); (js "etag", VString (js "old")) ]
              t [])
    as (fields & Hres & _ & _ & Hetag & _ & Hother);
    try reflexivity; try discriminate; try lia; try exact Ht.
  exists fields. split; [exact Hres|]. split; [exact Hetag|].
  rewrite (Hother (js "price") eq_refl eq_refl eq_refl).
  injection Ht as <-. reflexivity.
Defined.

(** *** getProducts: metadata, rejections, parameters *)

(** X16: the metadata of a collection fetch adds up.  Outside the test
    environment, for a payload that is a sequence, [metadata.total] is
    the length of the payload, [metadata.transformed] the number of
    products returned, [metadata.failed] the number of error entries,
    the two add up to the total, [errors] is [null] exactly when
    nothing failed, and [metadata.filters] holds the request
    parameters. *)
Theorem getProducts_metadata
        (NODE_ENV filters : value) (options : listOptions)
        (r : response) (items : list value) :
  envIs NODE_ENV (js "test") = false ->
  filtersAccepted filters = true ->
  data r = Some (VArray items) ->
  (items = [] -> allowsEmpty options = true) ->
  exists products errors m,
    getProducts NODE_ENV filters options (Responds r)
    = Return (ResponseData products errors m)
    /\ meta_total m = Z.of_nat (length items)
    /\ meta_transformed m = Z.of_nat (length products)
    /\ meta_failed m
       = Z.of_nat (length (errorEntries (ResponseData products errors m)))
    /\ meta_transformed m + meta_failed m = meta_total m
    /\ (errors = None <-> meta_failed m = 0)
    /\ meta_filters m = buildParams (defaultTo filters (VObject [])).
Proof.
  intros Henv Hf Hd He.
  destruct (getProducts_on_array NODE_ENV filters options r items Hf Hd He)
    as (entries & Hmap & Hres).
  rewrite Henv in Hres.
  assert (Hlen : length entries = length (failing items)).
  { apply (f_equal (@length _)) in Hmap. now rewrite !length_map in Hmap. }
  pose proof (normalized_failing_length items 0) as Hsum.
  fold (failing items) in Hsum.
  do 3 eexists. split; [exact Hres|].
  cbn [meta_total meta_transformed meta_failed meta_filters errorEntries].
  repeat split.
  - destruct entries; reflexivity.
  - lia.
  - destruct entries; [reflexivity | discriminate].
  - destruct entries; [reflexivity | cbn; lia].
Qed.

Lemma getProducts_metadata_witness :
  exists products errors m,
    getProducts (VString (js "production")) VUndefined defaultListOptions
                (Responds (okResponse (VArray samplePayload)))
    = Return (ResponseData products errors m)
    /\ meta_total m = 3
    /\ meta_transformed m + meta_failed m = 3.
Proof.
  destruct (getProducts_metadata
              (VString (js "production")) VUndefined defaultListOptions
              (okResponse (VArray samplePayload)) samplePayload
              eq_refl eq_refl eq_refl
              (fun H : samplePayload = [] =>
                 False_ind _ (@nil_cons _ _ _ (eq_sym H))))
    as (products & errors & m & Hres & Ht & _ & _ & Hsum & _).
  exists products, errors, m.
  split; [exact Hres|]. split; [exact Ht|].
  rewrite Hsum. exact Ht.
Defined.

(** X17: how a collection fetch rejects.  Every failure goes through
    [handleApiError] once, as the last thing the function does.  So a
    rejection of the transport is classified by its own response;
    filters that are not an object (the VALIDATION_ERROR thrown inside
    the [try]) end as UNKNOWN_ERROR, and so does a failed fetch whose
    signal is aborted (the REQUEST_CANCELLED thrown inside the [try]):
    neither code reaches the caller. *)
Theorem getProducts_rejections
        (NODE_ENV filters : value) (options : listOptions)
        (t : transport) (e : exn) :
  (filtersAccepted filters = false ->
   exists x, getProducts NODE_ENV filters options t = Throw x
             /\ errCode x = Some (js "UNKNOWN_ERROR"))
  /\ (filtersAccepted filters = true -> Api.get t = Throw e ->
      getProducts NODE_ENV filters options t
      = Throw (handleApiError
                 (Some (if isAbortError e || lopt_aborted options
                        then APIError (js "Products request cancelled")
                                      499 REQUEST_CANCELLED
                        else e))))
  /\ (filtersAccepted filters = true -> Api.get t = Throw e ->
      isAbortError e || lopt_aborted options = true ->
      exists x, getProducts NODE_ENV filters options t = Throw x
                /\ errCode x = Some (js "UNKNOWN_ERROR")
                /\ errRetryable x = true).
Proof.
  assert (Hacc : filtersAccepted filters = true -> Api.get t = Throw e ->
                 getProducts NODE_ENV filters options t
                 = Throw (handleApiError
                            (Some (if isAbortError e || lopt_aborted options
                                   then APIError (js "Products request cancelled")
                                                 499 REQUEST_CANCELLED
                                   else e)))).
  { intros Hf Hget. unfold filtersAccepted in Hf.
    apply andb_prop in Hf as [Hty Hnn].
    unfold getProducts. cbv zeta. rewrite Hty. cbn [negb].
    assert (Hnull : isNull (defaultTo filters (VObject [])) = false).
    { destruct filters; try reflexivity; discriminate Hnn. }
    rewrite Hnull, Hget.
    now destruct (isAbortError e || lopt_aborted options). }
  split; [|split].
  - intros Hf. unfold filtersAccepted in Hf. unfold getProducts. cbv zeta.
    destruct (jstype_eqb (typeof (defaultTo filters (VObject []))) TObject);
      cbn [negb].
    + cbn [andb] in Hf. apply negb_false_iff in Hf.
      assert (Hnull : isNull (defaultTo filters (VObject [])) = true)
        by (destruct filters; try discriminate Hf; reflexivity).
      rewrite Hnull. eexists. split; reflexivity.
    + eexists. split; reflexivity.
  - exact Hacc.
  - intros Hf Hget Hcancel. rewrite (Hacc Hf Hget), Hcancel.
    eexists. repeat split.
Qed.

Lemma getProducts_rejections_witness :
  (exists x, getProducts (VString (js "production")) (VString (js "shoes"))
                         defaultListOptions (Rejects (httpError 404)) = Throw x
             /\ errCode x = Some (js "UNKNOWN_ERROR"))
  /\ getProducts (VString (js "production")) VUndefined defaultListOptions
                 (Rejects (httpError 404))
     = Throw (handleApiError (Some (httpError 404)))
  /\ (exists x, getProducts (VString (js "production")) VUndefined
                            {| lopt_aborted := true;
                               lopt_allowEmpty := VUndefined |}
                            (Rejects (httpError 404)) = Throw x
                /\ errCode x = Some (js "UNKNOWN_ERROR")
                /\ errRetryable x = true).
Proof.
  split; [|split].
  - apply (proj1 (getProducts_rejections
                    (VString (js "production")) (VString (js "shoes"))
                    defaultListOptions (Rejects (httpError 404))
                    (httpError 404))).
    reflexivity.
  - apply (proj1 (proj2 (getProducts_rejections
                           (VString (js "production")) VUndefined
                           defaultListOptions (Rejects (httpError 404))
                           (httpError 404))));
      reflexivity.
  - apply (proj2 (proj2 (getProducts_rejections
                           (VString (js "production")) VUndefined
                           {| lopt_aborted := true;
                              lopt_allowEmpty := VUndefined |}
                           (Rejects (httpError 404)) (httpError 404))));
      reflexivity.
Defined.

Lemma lookup_absent (key : jsstring) (props : list (jsstring * value)) :
  ~ In key (map fst props) -> lookup key props = None.
Proof.
  induction props as [|[k v] rest IH]; cbn [map fst In lookup]; intros H;
    [reflexivity|].
  destruct (str_eqb k key) eqn:E.
  - apply str_eqb_eq in E. tauto.
  - apply IH. tauto.
Qed.

Lemma buildParams_fold (entries : list (jsstring * value)) :
  forall acc,
    proto acc = ObjectPrototype ->
    NoDup (map fst entries) ->
    ~ In (js "__proto__") (map fst entries) ->
    (forall k, In k (map fst entries) -> lookup k (own acc) = None) ->
    let params :=
      fold_left
        (fun acc kv => if negb (isUndefined (snd kv))
                       then setParam acc (fst kv) (snd kv) else acc)
        entries acc in
    proto params = ObjectPrototype
    /\ forall key,
         lookup key (own params)
         = match lookup key (own acc) with
           | Some v => Some v
           | None =>
               match lookup key entries with
               | Some VUndefined => None
               | found => found
               end
           end.
Proof.
  induction entries as [|[k v] rest IH]; intros acc Hproto Hnd Hnp Hfresh.
  - cbn. split; [exact Hproto|]. intros key. now destruct (lookup key (own acc)).
  - cbn [map fst] in Hnd, Hnp, Hfresh. inversion Hnd as [|? ? Hk Hnd']; subst.
    cbn [fold_left fst snd].
    assert (Hkacc : lookup k (own acc) = None) by (apply Hfresh; now left).
    destruct (isUndefined v) eqn:Hu; cbn [negb].
    + destruct (IH acc Hproto Hnd') as [Hp Hl].
      { intros H. apply Hnp. now right. }
      { intros k' H. apply Hfresh. now right. }
      split; [exact Hp|]. intros key. rewrite Hl. cbn [lookup].
      destruct (lookup key (own acc)); [reflexivity|].
      destruct (str_eqb k key) eqn:E; [|reflexivity].
      apply str_eqb_eq in E. subst key.
      rewrite (lookup_absent k rest Hk). now destruct v.
    + assert (Hset : setParam acc k v = defineOwn acc k v).
      { unfold setParam, hasKey. rewrite Hkacc. unfold assign.
        destruct (str_eqb k (js "__proto__")) eqn:E; [|reflexivity].
        apply str_eqb_eq in E. subst k. exfalso. apply Hnp. now left. }
      rewrite Hset.
      destruct (IH (defineOwn acc k v) Hproto Hnd') as [Hp Hl].
      { intros H. apply Hnp. now right. }
      { intros k' H. unfold defineOwn. cbn [own]. rewrite lookup_app.
        rewrite (Hfresh k' (or_intror H)). cbn [lookup].
        destruct (str_eqb k k') eqn:E; [|reflexivity].
        apply str_eqb_eq in E. subst k'. contradiction. }
      split; [exact Hp|]. intros key. rewrite Hl.
      unfold defineOwn. cbn [own]. rewrite lookup_app. cbn [lookup].
      destruct (lookup key (own acc)); [reflexivity|].
      destruct (str_eqb k key) eqn:E; [|reflexivity].
      now destruct v.
Qed.

(** X18: the request parameters of a collection fetch.  For filters
    whose keys are distinct and not [__proto__], the parameters are an
    ordinary object that holds every filter except those whose value
    is [undefined]; [null], [0], [false] and the empty string are
    passed on. *)
Theorem buildParams_drops_undefined (filters : list (jsstring * value)) :
  NoDup (map fst filters) ->
  ~ In (js "__proto__") (map fst filters) ->
  proto (buildParams (VObject filters)) = ObjectPrototype
  /\ forall key,
       lookup key (own (buildParams (VObject filters)))
       = match lookup key filters with
         | Some VUndefined => None
         | found => found
         end.
Proof.
  intros Hnd Hnp. unfold buildParams. cbn [Object_entries].
  pose proof (ownEntries_perm filters) as Hperm.
  destruct (buildParams_fold (ownEntries filters)
                             (mkObject [] ObjectPrototype))
    as [Hp Hl].
  - reflexivity.
  - apply (Permutation_NoDup (l := map fst filters)); [|exact Hnd].
    apply Permutation_map. now symmetry.
  - intros Hin. apply Hnp.
    apply (Permutation_in (l := map fst (ownEntries filters))); [|exact Hin].
    now apply Permutation_map.
  - reflexivity.
  - split; [exact Hp|]. intros key. rewrite Hl. cbn [own lookup].
    now rewrite lookup_ownEntries.
Qed.

Lemma buildParams_drops_undefined_witness :
  lookup (js "category")
         (own (buildParams (VObject [ (js "category", VUndefined);
                                      (js "sale", VBool false) ])))
  = None
  /\ lookup (js "sale")
            (own (buildParams (VObject [ (js "category", VUndefined);
                                         (js "sale", VBool false) ])))
     = Some (VBool false).
Proof.
  assert (Hnd : NoDup (map fst [ (js "category", VUndefined);
                                 (js "sale", VBool false) ])).
  { repeat constructor; cbn; intuition discriminate. }
  assert (Hnp : ~ In (js "__proto__")
                     (map fst [ (js "category", VUndefined);
                                (js "sale", VBool false) ])).
  { cbn; intuition discriminate. }
  destruct (buildParams_drops_undefined _ Hnd Hnp) as [_ Hl].
  split; rewrite Hl; reflexivity.
Defined.

(** *** services/api: the retries of the interceptor *)

Lemma lt_num (a b : Z) : Wire.lt (num a) (num b) = (a <? b).
Proof.
  unfold Wire.lt, compareNumber. cbn [num]. fold (num a) (num b).
  rewrite compareFinite_num. unfold Z.ltb. now destruct (a ?= b).
Qed.

Lemma sameValueZero_num (a b : Z) :
  Wire.sameValueZero (VNumber (num a)) (VNumber (num b)) = (a =? b).
Proof.
  unfold Wire.sameValueZero, num. cbv iota. fold (num a) (num b).
  rewrite compareFinite_num.
  destruct (Z.eqb_spec a b) as [->|Hne]; [now rewrite Z.compare_refl|].
  destruct (a ?= b) eqn:E; try reflexivity.
  apply Z.compare_eq in E. contradiction.
Qed.

(** A response is retried for the statuses of the list, no other. *)
Lemma isRetryableError_status (r : response) :
  Wire.isRetryableError (Wire.statusError r) = true
  <-> In (status r) retryStatusCodes.
Proof.
  unfold Wire.isRetryableError, Wire.statusError, retryStatusCodes.
  cbn [Wire.ax_response].
  change (getProperty DEFAULT_CONFIG (js "retryStatusCodes"))
    with (VArray (map (fun c => VNumber (num c)) [408; 429; 500; 502; 503; 504])).
  cbn [Wire.Array_includes map existsb]. rewrite !sameValueZero_num.
  cbn [In]. rewrite !orb_true_iff, !Z.eqb_eq. intuition discriminate.
Qed.

(** One step of [request] on an answer that is an error. *)
Lemma request_error config random a rest (c : Z) (d : nat) e :
  errorOf config a = Some e ->
  Wire.request config random (a :: rest) c d
  = let sent := Wire.Sent (Wire.requestInterceptor (Wire.set_cache config)) in
    if isTimeout e
    then ([sent],
          Settled (Throw (Wire.rejection
                            e (Wire.timeoutMessage (Wire.set_timeout config)))))
    else if (c <? 3) && Wire.isRetryableError e
         then
           let '(effects, p) :=
             Wire.request config random rest (c + 1) (S d) in
           (sent
              :: Wire.Delay (Wire.add (mul (num 1000) (Math_pow2 c))
                                      (mul (random d) (num 100)))
              :: effects, p)
         else ([sent],
               Settled (Throw (Wire.rejection e (Wire.finalMessage e)))).
Proof.
  intros He. unfold errorOf in He. cbn [Wire.request]. cbv zeta.
  change (ToNumber (getProperty DEFAULT_CONFIG (js "maxRetryAttempts")))
    with (num 3).
  change (ToNumber (getProperty DEFAULT_CONFIG (js "retryDelay")))
    with (num 1000).
  rewrite lt_num. replace (c + 1 - 1) with c by lia.
  unfold isTimeout.
  destruct a as [r | e' |]; [| | discriminate].
  - destruct (Wire.set_validateStatus config (status r)); [discriminate|].
    now injection He as <-.
  - now injection He as <-.
Qed.

Lemma request_schedule config random (answers : list Wire.answer) :
  forall (c : Z) (d : nat),
    0 <= c ->
    let effects := fst (Wire.request config random answers c d) in
    (Wire.sends effects <= Z.to_nat (Z.max 1 (4 - c)))%nat
    /\ Wire.sends effects = S (length (Wire.waits effects))
    /\ Wire.waits effects
       = map (fun i => Wire.add (mul (num 1000) (Math_pow2 (c + Z.of_nat i)))
                                (mul (random (d + i)%nat) (num 100)))
             (seq 0 (length (Wire.waits effects))).
Proof.
  induction answers as [|a rest IH]; intros c d Hc; cbv zeta.
  - cbn. repeat split. lia.
  - destruct (errorOf config a) as [e|] eqn:He.
    + rewrite (request_error config random a rest c d e He). cbv zeta.
      destruct (isTimeout e); [cbn; repeat split; lia|].
      destruct (Z.ltb_spec c 3) as [Hlt|Hge]; cbn [andb];
        [|cbn; repeat split; lia].
      destruct (Wire.isRetryableError e); [|cbn; repeat split; lia].
      specialize (IH (c + 1) (S d)). cbv zeta in IH.
      destruct (Wire.request config random rest (c + 1) (S d))
        as [effects p].
      cbn [fst] in *. destruct IH as (Hs & Hw & Hm); [lia|].
      unfold Wire.sends, Wire.waits in *.
      cbn [filter length flat_map app]. repeat split.
      * lia.
      * now rewrite Hw.
      * cbn [seq map]. rewrite Z.add_0_r, Nat.add_0_r. f_equal.
        rewrite Hm at 1. rewrite <- seq_shift, map_map.
        apply map_ext. intros i. f_equal.
        -- do 2 f_equal. lia.
        -- do 2 f_equal. lia.
    + unfold errorOf in He. cbn [Wire.request]. cbv zeta.
      destruct a as [r | e' |]; [| discriminate | cbn; repeat split; lia].
      destruct (Wire.set_validateStatus config (status r)); [|discriminate].
      cbn; repeat split; lia.
Qed.

(** X19: the interceptor's retries are bounded and backed off.  However
    the transport answers, one call of [api.get] sends the request at
    most four times (the first send and three retries), with one wait
    before each retry, and the [i]-th wait lasts
    [1000 * 2^i + Math.random() * 100] milliseconds, computed in
    floating point from the [i]-th random number. *)
Theorem get_bounded_backoff
        (config : Wire.settings) (random : nat -> number)
        (answers : list Wire.answer) :
  let effects := fst (Wire.get config random answers) in
  (Wire.sends effects <= 4)%nat
  /\ Wire.sends effects = S (length (Wire.waits effects))
  /\ Wire.waits effects
     = map (fun i => Wire.add (mul (num 1000) (Math_pow2 (Z.of_nat i)))
                              (mul (random i) (num 100)))
           (seq 0 (length (Wire.waits effects))).
Proof.
  cbv zeta. unfold Wire.get.
  destruct (request_schedule config random answers 0 0) as (Hs & Hw & Hm);
    [lia|].
  repeat split; [exact Hs | exact Hw | exact Hm].
Qed.

(** X20: which answers the interceptor retries.  A response that
    [validateStatus] turns down is retried exactly when its status is
    408, 429, 500, 502, 503 or 504; a cancellation and a response that
    [validateStatus] accepts never are.  After an answer that is not
    retried, [api.get] is settled: one send, no wait.  After one that
    is retried, the request goes out a second time. *)
Theorem get_retries_transient_answers
        (config : Wire.settings) (random : nat -> number)
        (a : Wire.answer) (rest : list Wire.answer) :
  (forall r, a = Wire.Delivered r ->
             transient config a = true
             <-> Wire.set_validateStatus config (status r) = false
                 /\ In (status r) retryStatusCodes)
  /\ (a = Wire.Cancelled -> transient config a = false)
  /\ (transient config a = false ->
      Wire.sends (fst (Wire.get config random (a :: rest))) = 1%nat
      /\ Wire.waits (fst (Wire.get config random (a :: rest))) = []
      /\ snd (Wire.get config random (a :: rest)) <> Pending)
  /\ (transient config a = true ->
      (2 <= Wire.sends (fst (Wire.get config random (a :: rest))))%nat).
Proof.
  split; [|split; [|split]].
  - intros r ->. unfold transient, errorOf.
    destruct (Wire.set_validateStatus config (status r)).
    + split; [discriminate | intros [H _]; discriminate H].
    + assert (Ht : isTimeout (Wire.statusError r) = false).
      { unfold isTimeout, Wire.statusError. cbn [Wire.ax_code].
        now destruct ((400 <=? status r) && (status r <? 500)),
                     ((500 <=? status r) && (status r <? 600)). }
      rewrite Ht. cbn [negb andb]. rewrite isRetryableError_status. tauto.
  - now intros ->.
  - unfold transient, Wire.get. intros Ht.
    destruct (errorOf config a) as [e|] eqn:He.
    + rewrite (request_error config random a rest 0 0 e He). cbv zeta.
      destruct (isTimeout e); [now repeat split|].
      cbn [negb andb Z.ltb Z.compare] in *. rewrite Ht. now repeat split.
    + unfold errorOf in He. cbn [Wire.request]. cbv zeta.
      destruct a as [r | e' |]; [| discriminate | now repeat split].
      destruct (Wire.set_validateStatus config (status r)); [|discriminate].
      now repeat split.
  - unfold transient, Wire.get. intros Ht.
    destruct (errorOf config a) as [e|] eqn:He; [|discriminate].
    rewrite (request_error config random a rest 0 0 e He). cbv zeta.
    apply andb_prop in Ht as [Htime Hretry].
    apply negb_true_iff in Htime. rewrite Htime, Hretry.
    cbn [negb andb Z.ltb Z.compare].
    pose proof (request_schedule config random rest (0 + 1) 1) as Hs.
    cbv zeta in Hs.
    destruct (Wire.request config random rest (0 + 1) 1) as [effects p].
    cbn [fst] in *. destruct Hs as (_ & Hs & _); [lia|].
    unfold Wire.sends in *. cbn [filter length]. lia.
Qed.

Lemma get_retries_transient_answers_witness :
  transient productSettings (Wire.Delivered (answerWith 503)) = true
  /\ Wire.sends (fst (Wire.get productSettings oneHalf
                               [Wire.Delivered (answerWith 404);
                                Wire.Delivered (answerWith 200)])) = 1%nat
  /\ (2 <= Wire.sends (fst (Wire.get productSettings oneHalf
                                     [Wire.Delivered (answerWith 503)])))%nat.
Proof.
  split; [|split].
  - apply (proj1 (get_retries_transient_answers
                    productSettings oneHalf (Wire.Delivered (answerWith 503)) [])
             (answerWith 503) eq_refl).
    split; [reflexivity|]. cbn. tauto.
  - apply (proj1 (proj2 (proj2 (get_retries_transient_answers
                                  productSettings oneHalf
                                  (Wire.Delivered (answerWith 404))
                                  [Wire.Delivered (answerWith 200)])))).
    reflexivity.
  - apply (proj2 (proj2 (proj2 (get_retries_transient_answers
                                  productSettings oneHalf
                                  (Wire.Delivered (answerWith 503))
                                  [])))).
    reflexivity.
Defined.

(** X21: when the retries run out.  After four answers in a row that
    call for a retry, [api.get] has sent the request four times and
    waited three times, and it rejects with the error of the fourth
    answer, under the message chosen for that error; whatever the
    transport would answer next is never asked for. *)
Theorem get_exhausts_retries
        (config : Wire.settings) (random : nat -> number)
        (a1 a2 a3 a4 : Wire.answer) (rest : list Wire.answer)
        (e : Wire.axiosError) :
  transient config a1 = true ->
  transient config a2 = true ->
  transient config a3 = true ->
  transient config a4 = true ->
  errorOf config a4 = Some e ->
  Wire.sends (fst (Wire.get config random (a1 :: a2 :: a3 :: a4 :: rest)))
  = 4%nat
  /\ length (Wire.waits
               (fst (Wire.get config random (a1 :: a2 :: a3 :: a4 :: rest))))
     = 3%nat
  /\ snd (Wire.get config random (a1 :: a2 :: a3 :: a4 :: rest))
     = Settled (Throw (Wire.rejection e (Wire.finalMessage e))).
Proof.
  unfold transient, Wire.get. intros H1 H2 H3 H4 He.
  destruct (errorOf config a1) as [e1|] eqn:He1; [|discriminate].
  destruct (errorOf config a2) as [e2|] eqn:He2; [|discriminate].
  destruct (errorOf config a3) as [e3|] eqn:He3; [|discriminate].
  rewrite He in H4.
  apply andb_prop in H1 as [T1 R1], H2 as [T2 R2], H3 as [T3 R3],
                            H4 as [T4 R4].
  apply negb_true_iff in T1, T2, T3, T4.
  rewrite (request_error config random a1 _ 0 0 e1 He1). cbv zeta.
  rewrite (request_error config random a2 _ (0 + 1) 1 e2 He2). cbv zeta.
  rewrite (request_error config random a3 _ (0 + 1 + 1) 2 e3 He3). cbv zeta.
  rewrite (request_error config random a4 _ (0 + 1 + 1 + 1) 3 e He). cbv zeta.
  rewrite T1, T2, T3, T4, R1, R2, R3.
  cbn. repeat split.
Qed.

Lemma get_exhausts_retries_witness :
  Wire.sends (fst (Wire.get productSettings oneHalf
                            [ Wire.Delivered (answerWith 503);
                              Wire.Failed Wire.networkError;
                              Wire.Delivered (answerWith 500);
                              Wire.Delivered (answerWith 429);
                              Wire.Delivered (answerWith 200) ]))
  = 4%nat
  /\ length (Wire.waits
               (fst (Wire.get productSettings oneHalf
                              [ Wire.Delivered (answerWith 503);
                                Wire.Failed Wire.networkError;
                                Wire.Delivered (answerWith 500);
                                Wire.Delivered (answerWith 429);
                                Wire.Delivered (answerWith 200) ])))
     = 3%nat
  /\ snd (Wire.get productSettings oneHalf
                   [ Wire.Delivered (answerWith 503);
                     Wire.Failed Wire.networkError;
                     Wire.Delivered (answerWith 500);
                     Wire.Delivered (answerWith 429);
                     Wire.Delivered (answerWith 200) ])
     = Settled (Throw (Wire.rejection
                         (Wire.statusError (answerWith 429))
                         (js "Too many requests - please try again later"))).
Proof.
  apply (get_exhausts_retries
           productSettings oneHalf
           (Wire.Delivered (answerWith 503)) (Wire.Failed Wire.networkError)
           (Wire.Delivered (answerWith 500)) (Wire.Delivered (answerWith 429))
           [Wire.Delivered (answerWith 200)]
           (Wire.statusError (answerWith 429)));
    reflexivity.
Defined.

Lemma request_settles config random (answers : list Wire.answer)
      (NODE_ENV : value) :
  forall (c : Z) (d : nat),
    match snd (Wire.request config random answers c d) with
    | Settled (Return r) =>
        In (Wire.Delivered r) answers
        /\ Wire.set_validateStatus config (status r) = true
        /\ Api.get (Responds r) = Return r
    | Settled (Throw e) => retriedFailure NODE_ENV (Rejects e) = true
    | Pending => True
    end.
Proof.
  induction answers as [|a rest IH]; intros c d; [exact I|].
  destruct (errorOf config a) as [e|] eqn:He.
  - rewrite (request_error config random a rest c d e He). cbv zeta.
    destruct (isTimeout e); [reflexivity|].
    destruct ((c <? 3) && Wire.isRetryableError e); [|reflexivity].
    specialize (IH (c + 1) (S d)).
    destruct (Wire.request config random rest (c + 1) (S d)) as [effects p].
    cbn [snd] in *. destruct p as [[r|x]|]; try exact IH.
    destruct IH as (Hin & Hrest). split; [now right | exact Hrest].
  - unfold errorOf in He. cbn [Wire.request]. cbv zeta.
    destruct a as [r | e' |]; [| discriminate | reflexivity].
    destruct (Wire.set_validateStatus config (status r)) eqn:Hv;
      [|discriminate].
    cbn [snd]. unfold Api.get, responseInterceptor.
    destruct (negb (truthy (responseData r))) eqn:Hbody; [reflexivity|].
    repeat split; [now left | exact Hv | now rewrite Hbody].
Qed.

(** X22: what [api.get] hands to its caller.  When it resolves, the
    response is one that the transport delivered, with a status that
    [validateStatus] accepts and a body that is not empty.  When it
    rejects (an HTTP error, a timeout, a network failure, a
    cancellation, an empty body), the error is neither an APIError nor
    named AbortError, so the loop of [getProductById] takes it for a
    retryable UNKNOWN_ERROR and tries again. *)
Theorem get_settles
        (config : Wire.settings) (random : nat -> number)
        (answers : list Wire.answer) (NODE_ENV : value) :
  match snd (Wire.get config random answers) with
  | Settled (Return r) =>
      In (Wire.Delivered r) answers
      /\ Wire.set_validateStatus config (status r) = true
      /\ Api.get (Responds r) = Return r
  | Settled (Throw e) => retriedFailure NODE_ENV (Rejects e) = true
  | Pending => True
  end.
Proof. apply request_settles. Qed.

(** *** The component over time: further invariants *)

Lemma start_unmounted id cl now force s :
  mountedRef (comp s) = false ->
  st (comp (start id cl now force s)) = st (comp s).
Proof.
  intros Hm. unfold start, fetchProduct_begin. cbv zeta.
  destruct (negb (truthy id)); cbn [comp fst];
    repeat (rewrite safeSetState_dropped;
            [| left; rewrite ?safeSetState_mountedRef; exact Hm]);
    reflexivity.
Qed.

Lemma step_unmounted e s :
  mountedRef (comp s) = false -> st (comp (step e s)) = st (comp s).
Proof.
  intros Hm. destruct e as [id now | now force | k r |]; cbn [step].
  - now rewrite Hm.
  - now apply start_unmounted.
  - destruct (nth_error (issued s) k) as [p|]; [|reflexivity]. cbn [comp].
    rewrite fetchProduct_resume_stale; [reflexivity | now left].
  - reflexivity.
Qed.

Lemma run_unmounted evs : forall s,
  mountedRef (comp s) = false -> st (comp (run evs s)) = st (comp s).
Proof.
  induction evs as [|e evs IH]; intros s Hm; [reflexivity|].
  cbn [run fold_left]. fold (run evs (step e s)).
  rewrite IH; [now apply step_unmounted | now apply mountedRef_step].
Qed.

(** X23: after teardown nothing touches the state.  Whatever happens
    once the component is unmounted (calls settle, with products or
    with errors, timers fire, the subject changes), the state stays
    the one it had at the moment of unmounting. *)
Theorem unmounted_is_frozen (before after : list event) (s : system) :
  st (comp (run (before ++ Unmount :: after) s)) = st (comp (run before s)).
Proof.
  rewrite run_app. cbn [run fold_left]. fold (run after).
  rewrite run_unmounted; reflexivity.
Qed.

Lemma safeSetState_cases id u c :
  safeSetState id u c = c
  \/ (mountedRef c = true /\ id = requestIdRef c
      /\ safeSetState id u c = setState c (u (st c))).
Proof.
  unfold safeSetState. destruct (mountedRef c); cbn [andb]; [|now left].
  destruct (Z.eqb_spec id (requestIdRef c)); [right | now left].
  now repeat split.
Qed.

Lemma start_inv id cl now force s :
  reachable_inv (st (comp s)) ->
  reachable_inv (st (comp (start id cl now force s))).
Proof.
  intros [Hr Hv].
  destruct (mountedRef (comp s)) eqn:Hm.
  - unfold start, fetchProduct_begin. cbv zeta.
    destruct (negb (truthy id)); cbn [comp fst];
      (rewrite safeSetState_applied;
       [| now rewrite safeSetState_mountedRef
        | now rewrite safeSetState_requestIdRef]);
      (rewrite safeSetState_applied; [| exact Hm | reflexivity]);
      cbn; split; auto.
  - rewrite (start_unmounted id cl now force s Hm). now split.
Qed.

Lemma catch_inv p err c :
  reachable_inv (st c) -> reachable_inv (st (fetchProduct_catch p err c)).
Proof.
  intros [Hr Hv]. unfold fetchProduct_catch.
  destruct (isCancellation err); [now split|].
  destruct (safeSetState_cases (currentRequestId p)
              (fun prev =>
                 {| product := product prev;
                    loading := false;
                    error := Some (errorText err);
                    retryCount := retryCount prev + 1;
                    retryMessage := retryMessage prev;
                    etag := etag prev;
                    lastModified := lastModified prev;
                    lastFetchTime := lastFetchTime prev |}) c)
    as [-> | (_ & _ & ->)]; [now split|].
  unfold reachable_inv, setState.
  cbn [st retryCount loading error product lastFetchTime].
  split; [lia|]. right; left. apply errorText_nonempty.
Qed.

Lemma resume_inv p r c :
  reachable_inv (st c) -> reachable_inv (st (fetchProduct_resume p r c)).
Proof.
  intros Hi. unfold fetchProduct_resume. destruct r as [v|err].
  - destruct (truthy v) eqn:Hv; cbn [negb].
    + match goal with
      | |- context [safeSetState ?i ?u c] =>
          destruct (safeSetState_cases i u c) as [-> | (_ & _ & ->)]
      end; [exact Hi|].
      unfold reachable_inv, setState.
      cbn [st retryCount loading error product lastFetchTime].
      split; [lia|]. right; right. repeat split; [exact Hv | discriminate].
    + now apply catch_inv.
  - now apply catch_inv.
Qed.

Lemma step_inv e s :
  reachable_inv (st (comp s)) -> reachable_inv (st (comp (step e s))).
Proof.
  intros Hi. destruct e as [id now | now force | k r |]; cbn [step].
  - destruct (mountedRef (comp s)); [now apply start_inv | exact Hi].
  - now apply start_inv.
  - destruct (nth_error (issued s) k) as [p|]; [|exact Hi]. cbn [comp].
    now apply resume_inv.
  - exact Hi.
Qed.

Lemma run_inv evs : forall s,
  reachable_inv (st (comp s)) -> reachable_inv (st (comp (run evs s))).
Proof.
  induction evs as [|e evs IH]; intros s Hi; [exact Hi|].
  cbn [run fold_left]. fold (run evs (step e s)).
  apply IH. now apply step_inv.
Qed.

(** X24: the views that the component can show.  From the mount on,
    whatever happens, it renders the loading indicator, the error
    message (with a text that is not empty, and the retry button
    exactly while [retryCount < 3]) or the product container, and the
    container only for a product that is truthy, with [retryCount]
    back at 0 and the time of the fetch recorded.  It never renders
    nothing, and the fourth view, "Product not found or no longer
    available", is never reached. *)
Theorem reachable_views (evs : list event) :
  let s := st (comp (run evs mounted)) in
  0 <= retryCount s
  /\ match render s with
     | LoadingContainer => True
     | ErrorMessage text _ retryButton =>
         text <> [] /\ retryButton = (retryCount s <? 3)
     | ProductContainer p =>
         truthy p = true /\ retryCount s = 0 /\ lastFetchTime s <> None
     | Null | NotFoundMessage => False
     end.
Proof.
  cbv zeta.
  assert (Hi : reachable_inv (st (comp (run evs mounted)))).
  { apply run_inv. split; [apply Z.le_refl | now left]. }
  destruct Hi as [Hr Hv]. split; [exact Hr|].
  unfold render, renderLoadingState, renderErrorState.
  destruct (loading (st (comp (run evs mounted)))); [exact I|].
  destruct (error (st (comp (run evs mounted)))) as [[|c m]|] eqn:He;
    cbn [truthyString].
  - destruct Hv as [Hv | [Hv | (Hp & Hc & Ht)]]; try discriminate.
    now rewrite Hp.
  - split; [discriminate | reflexivity].
  - destruct Hv as [Hv | [Hv | (Hp & Hc & Ht)]]; try discriminate.
    now rewrite Hp.
Qed.

Lemma increasing_snoc (l : list Z) (x : Z) :
  increasing l -> (forall t, In t l -> t < x) -> increasing (l ++ [x]).
Proof.
  induction l as [|a l IH]; cbn; intros Hi Hlt.
  - split; [intros b [] | exact I].
  - destruct Hi as [Ha Hi]. split.
    + intros b Hb. apply in_app_or in Hb as [Hb | [<- | []]]; auto.
    + apply IH; auto.
Qed.

Lemma tokens_start id cl now force s :
  0 <= requestIdRef (comp s) ->
  tokens_inv s -> tokens_inv (start id cl now force s).
Proof.
  intros H0 [Hi Hb]. unfold tokens_inv, tokens.
  destruct (start_refs id cl now force s) as (Hr & _ & _). rewrite Hr.
  destruct (start_issued id cl now force s) as [-> | (p & -> & Hp & _)].
  - split; [exact Hi|]. intros t Ht. specialize (Hb t Ht). lia.
  - rewrite map_app. cbn [map]. rewrite Hp. split.
    + apply increasing_snoc; [exact Hi|].
      intros t Ht. specialize (Hb t Ht). lia.
    + intros t Ht. apply in_app_or in Ht as [Ht | [<- | []]]; [|lia].
      specialize (Hb t Ht). lia.
Qed.

Lemma tokens_step e s :
  0 <= requestIdRef (comp s) /\ tokens_inv s ->
  0 <= requestIdRef (comp (step e s)) /\ tokens_inv (step e s).
Proof.
  intros [H0 Hi]. destruct e as [id now | now force | k r |]; cbn [step].
  - destruct (mountedRef (comp s)); [|now split].
    destruct (start_refs id (st (comp s)) now true s) as (Hr & _ & _).
    split; [lia | now apply tokens_start].
  - destruct (start_refs (productId s) (closure s) now force s) as (Hr & _ & _).
    split; [lia | now apply tokens_start].
  - destruct (nth_error (issued s) k) as [p|]; [|now split].
    unfold tokens_inv, tokens. cbn [comp issued].
    destruct (fetchProduct_resume_refs p r (comp s)) as (-> & _).
    now split.
  - now split.
Qed.

(** X25: request tokens only grow.  Along any run from the mount, the
    calls of [fetchProduct] that reached the service hold tokens that
    are positive, strictly increasing in the order of the calls, and
    never ahead of the counter: no two calls share a token, so at most
    one of them, the one holding the counter's value, can write to the
    state. *)
Theorem tokens_increase (evs : list event) :
  increasing (tokens (run evs mounted))
  /\ forall t, In t (tokens (run evs mounted)) ->
               0 < t <= requestIdRef (comp (run evs mounted)).
Proof.
  assert (H : forall s,
             0 <= requestIdRef (comp s) /\ tokens_inv s ->
             0 <= requestIdRef (comp (run evs s)) /\ tokens_inv (run evs s)).
  { induction evs as [|e evs IH]; intros s Hs; [exact Hs|].
    cbn [run fold_left]. fold (run evs (step e s)).
    apply IH. now apply tokens_step. }
  destruct (H mounted) as [_ Hi]; [|exact Hi].
  split; [apply Z.le_refl | split; [exact I | intros t []]].
Qed.

(** *** The component over time: retries and the product on display *)

Lemma start_mounted id cl now force s :
  mountedRef (comp s) = true -> truthy id = true ->
  start id cl now force s
  = {| comp :=
         {| st := {| product := product (st (comp s));
                     loading := true;
                     error := None;
                     retryCount := retryCount (st (comp s));
                     retryMessage := retryMessage (st (comp s));
                     etag := etag (st (comp s));
                     lastModified := lastModified (st (comp s));
                     lastFetchTime := lastFetchTime (st (comp s)) |};
            requestIdRef := requestIdRef (comp s) + 1;
            mountedRef := true |};
       productId := id;
       closure := cl;
       issued := issued s
                 ++ [ {| currentRequestId := requestIdRef (comp s) + 1;
                         requestedId := id;
                         startedAt := now;
                         sent_etag := etag cl;
                         sent_lastModified := lastModified cl;
                         sent_cache := negb force |} ] |}.
Proof.
  intros Hm Ht. unfold start, fetchProduct_begin, safeSetState, setState.
  cbv zeta. cbn [mountedRef requestIdRef st]. rewrite Ht, Hm.
  repeat (cbn [andb negb mountedRef requestIdRef st product loading error
               retryCount retryMessage etag lastModified lastFetchTime];
          rewrite ?Z.eqb_refl).
  reflexivity.
Qed.

Lemma start_missing id cl now force s :
  mountedRef (comp s) = true -> truthy id = false ->
  start id cl now force s
  = {| comp :=
         {| st := {| product := product (st (comp s));
                     loading := false;
                     error := Some (js "Product ID is required");
                     retryCount := retryCount (st (comp s));
                     retryMessage := retryMessage (st (comp s));
                     etag := etag (st (comp s));
                     lastModified := lastModified (st (comp s));
                     lastFetchTime := lastFetchTime (st (comp s)) |};
            requestIdRef := requestIdRef (comp s) + 1;
            mountedRef := true |};
       productId := id;
       closure := cl;
       issued := issued s |}.
Proof.
  intros Hm Ht. unfold start, fetchProduct_begin, safeSetState, setState.
  cbv zeta. cbn [mountedRef requestIdRef st]. rewrite Ht, Hm.
  repeat (cbn [andb negb mountedRef requestIdRef st product loading error
               retryCount retryMessage etag lastModified lastFetchTime];
          rewrite ?Z.eqb_refl).
  reflexivity.
Qed.

(** A fetch that starts on a mounted component and whose call is
    rejected, with nothing in between. *)
Lemma fail_after_start id cl now force s err :
  mountedRef (comp s) = true -> truthy id = true -> failure err ->
  let s' := step (Settle (length (issued s)) (Throw err))
                 (start id cl now force s) in
  mountedRef (comp s') = true
  /\ productId s' = id
  /\ length (issued s') = S (length (issued s))
  /\ st (comp s')
     = {| product := product (st (comp s));
          loading := false;
          error := Some (errorText err);
          retryCount := retryCount (st (comp s)) + 1;
          retryMessage := retryMessage (st (comp s));
          etag := etag (st (comp s));
          lastModified := lastModified (st (comp s));
          lastFetchTime := lastFetchTime (st (comp s)) |}.
Proof.
  intros Hm Ht Hf. cbv zeta. rewrite (start_mounted id cl now force s Hm Ht).
  cbn [step issued]. rewrite nth_error_app2, Nat.sub_diag by lia.
  cbn [nth_error comp productId closure issued].
  unfold fetchProduct_resume, fetchProduct_catch. unfold failure in Hf.
  rewrite Hf. unfold safeSetState, setState.
  cbn [mountedRef requestIdRef st currentRequestId andb].
  rewrite Z.eqb_refl. cbn [st mountedRef].
  repeat split. rewrite length_app. cbn. lia.
Qed.

Lemma failedRounds_run (errors : list exn) : forall k s,
  mountedRef (comp s) = true ->
  truthy (productId s) = true ->
  length (issued s) = k ->
  Forall failure errors ->
  let s' := run (failedRounds k errors) s in
  mountedRef (comp s') = true
  /\ retryCount (st (comp s'))
     = retryCount (st (comp s)) + Z.of_nat (length errors)
  /\ (errors <> [] ->
      loading (st (comp s')) = false
      /\ truthyString (error (st (comp s'))) = true).
Proof.
  induction errors as [|err rest IH]; intros k s Hm Ht Hk Hall; cbv zeta.
  - cbn. repeat split; [exact Hm | lia | congruence | congruence].
  - inversion Hall as [|? ? Hf Hrest]; subst.
    change (run (failedRounds (length (issued s)) (err :: rest)) s)
      with (run (failedRounds (S (length (issued s))) rest)
                (step (Settle (length (issued s)) (Throw err))
                      (start (productId s) (closure s) 0 false s))).
    destruct (fail_after_start (productId s) (closure s) 0 false s err Hm Ht Hf)
      as (Hm' & Hid & Hlen & Hst).
    set (s1 := step (Settle (length (issued s)) (Throw err))
                    (start (productId s) (closure s) 0 false s)) in *.
    destruct (IH (S (length (issued s))) s1 Hm') as (Hm2 & Hc2 & Hv2);
      [now rewrite Hid | exact Hlen | exact Hrest |].
    split; [exact Hm2|]. split.
    + rewrite Hc2, Hst. cbn [retryCount length]. lia.
    + intros _. destruct rest as [|err2 rest'].
      * cbn [failedRounds run fold_left]. rewrite Hst.
        cbn [loading error]. split; [reflexivity | apply errorText_nonempty].
      * apply Hv2. discriminate.
Qed.

(** X26: the schedule of the retries.  After a mount with a product
    id, when the first fetch and every run of [fetchProduct] after it
    are rejected (not cancelled), the count of retries equals the
    number of failures, and the timer that the retry effect sets in
    the state after the first failure is 2000 ms, after the second
    4000 ms; in the state after the third it sets none and the retry
    button is gone.  The delay of 1000 ms, for a count of 0, never
    follows a failed fetch. *)
Theorem retry_schedule (id : value) (now : Z) (err : exn) (errors : list exn) :
  truthy id = true ->
  failure err ->
  Forall failure errors ->
  let s := st (comp (run (SetProductId id now :: Settle 0 (Throw err)
                                       :: failedRounds 1 errors) mounted)) in
  retryCount s = 1 + Z.of_nat (length errors)
  /\ loading s = false
  /\ retryEffect s = match length errors with
                     | 0%nat => Some 2000
                     | 1%nat => Some 4000
                     | _ => None
                     end
  /\ retryActionAvailable (render s)
     = match length errors with
       | 0%nat | 1%nat => true
       | _ => false
       end.
Proof.
  intros Ht Hf Hall. cbv zeta.
  change (run (SetProductId id now :: Settle 0 (Throw err)
                            :: failedRounds 1 errors) mounted)
    with (run (failedRounds 1 errors)
              (step (Settle (length (issued mounted)) (Throw err))
                    (start id (st (comp mounted)) now true mounted))).
  destruct (fail_after_start id (st (comp mounted)) now true mounted err
                             eq_refl Ht Hf)
    as (Hm & Hid & Hlen & Hst).
  set (s1 := step (Settle (length (issued mounted)) (Throw err))
                  (start id (st (comp mounted)) now true mounted)) in *.
  destruct (failedRounds_run errors 1 s1 Hm) as (_ & Hc & Hv);
    [now rewrite Hid | exact Hlen | exact Hall |].
  cbv zeta in Hc, Hv. rewrite Hst in Hc. cbn [retryCount mounted comp st
                                               initialState] in Hc.
  assert (Hview : loading (st (comp (run (failedRounds 1 errors) s1))) = false
                  /\ truthyString
                       (error (st (comp (run (failedRounds 1 errors) s1))))
                     = true).
  { destruct errors as [|e2 rest]; [|apply Hv; discriminate].
    cbn [failedRounds run fold_left]. rewrite Hst. cbn [loading error].
    split; [reflexivity | apply errorText_nonempty]. }
  destruct Hview as [Hl He].
  split; [lia|]. split; [exact Hl|].
  unfold retryEffect, render, renderErrorState. rewrite Hl, He, Hc.
  destruct (error (st (comp (run (failedRounds 1 errors) s1))))
    as [[|c m]|]; try discriminate He.
  cbn [andb retryActionAvailable].
  destruct errors as [|e2 [|e3 rest]]; cbn [length].
  - split; reflexivity.
  - split; reflexivity.
  - assert (Hge : (0 + 1 + Z.of_nat (S (S (length rest))) <? 3) = false)
      by (apply Z.ltb_ge; lia).
    rewrite Hge. split; reflexivity.
Qed.

Lemma retry_schedule_witness :
  let s := st (comp (run [ SetProductId (VString (js "42")) 0;
                           Settle 0 (Throw (httpError 503));
                           Refetch 0 false;
                           Settle 1 (Throw (httpError 503)) ] mounted)) in
  retryCount s = 2 /\ loading s = false /\ retryEffect s = Some 4000
  /\ retryActionAvailable (render s) = true.
Proof.
  apply (retry_schedule (VString (js "42")) 0 (httpError 503) [httpError 503]).
  - reflexivity.
  - reflexivity.
  - repeat constructor.
Defined.

Lemma refetches_missing (runs : list (Z * bool)) : forall s,
  mountedRef (comp s) = true ->
  truthy (productId s) = false ->
  st (comp s) = withoutProductId (st (comp s)) ->
  let s' := run (refetches runs) s in
  issued s' = issued s
  /\ st (comp s') = st (comp s)
  /\ mountedRef (comp s') = true
  /\ truthy (productId s') = false.
Proof.
  induction runs as [|[now force] rest IH]; intros s Hm Ht Hs; cbv zeta.
  - now repeat split.
  - change (run (refetches ((now, force) :: rest)) s)
      with (run (refetches rest) (start (productId s) (closure s) now force s)).
    pose proof (start_missing (productId s) (closure s) now force s Hm Ht)
      as Hstart.
    fold (withoutProductId (st (comp s))) in Hstart. rewrite <- Hs in Hstart.
    rewrite Hstart.
    match goal with
    | |- context [run (refetches rest) ?s1] =>
        destruct (IH s1 eq_refl Ht Hs) as (Hi & Hst & Hm' & Ht')
    end.
    cbv zeta in Hi, Hst, Hm', Ht'. now repeat split.
Qed.

Lemma retryEffectAfter_same (s : state) : retryEffectAfter s s false = None.
Proof.
  unfold retryEffectAfter, retryDepsChanged. rewrite Z.eqb_refl.
  assert (Hs : sameError (error s) (error s) = true).
  { destruct (error s) as [m|]; [|reflexivity]. cbn. now apply str_eqb_eq. }
  now rewrite Hs.
Qed.

(** X27: without a product id the ceiling of three retries never
    applies.  A component mounted without a product id issues no
    request and enters the Error state "Product ID is required" with
    [retryCount] 0, where the retry effect sets a timer of 1000 ms.
    Every run of [fetchProduct] after that, by the timer or the
    button, leaves the state exactly as it is: [retryCount] stays 0
    and the retry button stays on offer however many runs there have
    been, and since neither [state.error] nor [state.retryCount] has
    changed the retry effect is not run again, so no further timer is
    set. *)
Theorem missing_id_never_reaches_the_ceiling
        (id : value) (now : Z) (runs : list (Z * bool))
        (later : Z) (force : bool) :
  truthy id = false ->
  let entered := run [SetProductId id now] mounted in
  let s := run (SetProductId id now :: refetches runs) mounted in
  issued s = []
  /\ st (comp s) = st (comp entered)
  /\ loading (st (comp s)) = false
  /\ error (st (comp s)) = Some (js "Product ID is required")
  /\ retryCount (st (comp s)) = 0
  /\ retryActionAvailable (render (st (comp s))) = true
  /\ retryEffectAfter initialState (st (comp entered)) false
     = Some (Some 1000)
  /\ retryEffectAfter (st (comp s))
                      (st (comp (step (Refetch later force) s))) false
     = None.
Proof.
  intros Ht. cbv zeta.
  change (run (SetProductId id now :: refetches runs) mounted)
    with (run (refetches runs) (run [SetProductId id now] mounted)).
  change (run [SetProductId id now] mounted)
    with (start id (st (comp mounted)) now true mounted).
  rewrite (start_missing id (st (comp mounted)) now true mounted eq_refl Ht).
  match goal with
  | |- context [run (refetches runs) ?s1] => set (entered := s1)
  end.
  destruct (refetches_missing runs entered eq_refl Ht eq_refl)
    as (Hi & Hst & Hm & Ht').
  cbv zeta in Hi, Hst, Hm, Ht'.
  set (s := run (refetches runs) entered) in *.
  assert (Hnext : st (comp (step (Refetch later force) s)) = st (comp s)).
  { change (Refetch later force :: nil) with (refetches [(later, force)]).
    assert (Hs : st (comp s) = withoutProductId (st (comp s)))
      by (rewrite Hst; reflexivity).
    destruct (refetches_missing [(later, force)] s Hm Ht' Hs)
      as (_ & Hst' & _).
    exact Hst'. }
  rewrite Hnext, Hst.
  split; [exact Hi|]. split; [reflexivity|].
  do 5 (split; [reflexivity|]). apply retryEffectAfter_same.
Qed.

Lemma missing_id_never_reaches_the_ceiling_witness :
  let entered := run [SetProductId VUndefined 0] mounted in
  let s := run [ SetProductId VUndefined 0; Refetch 1000 false;
                 Refetch 2000 false; Refetch 3000 false; Refetch 4000 false ]
               mounted in
  issued s = []
  /\ st (comp s) = st (comp entered)
  /\ loading (st (comp s)) = false
  /\ error (st (comp s)) = Some (js "Product ID is required")
  /\ retryCount (st (comp s)) = 0
  /\ retryActionAvailable (render (st (comp s))) = true
  /\ retryEffectAfter initialState (st (comp entered)) false
     = Some (Some 1000)
  /\ retryEffectAfter (st (comp s))
                      (st (comp (step (Refetch 5000 false) s))) false
     = None.
Proof.
  apply (missing_id_never_reaches_the_ceiling
           VUndefined 0
           [ (1000, false); (2000, false); (3000, false); (4000, false) ]
           5000 false).
  reflexivity.
Defined.

(** A failure that is applied changes [state.retryCount], one of the
    dependencies of the retry effect: the Error state that a failed
    fetch leads to is always entered. *)
Lemma catch_changes_dependencies p err c :
  fetchProduct_catch p err c = c
  \/ retryDepsChanged (st c) (st (fetchProduct_catch p err c)) false = true.
Proof.
  unfold fetchProduct_catch. destruct (isCancellation err); [now left|].
  match goal with
  | |- context [safeSetState ?i ?u ?c] =>
      destruct (safeSetState_cases i u c) as [-> | (_ & _ & ->)]
  end; [now left | right].
  unfold retryDepsChanged, setState. cbn [st retryCount error].
  assert (Hn : (retryCount (st c) =? retryCount (st c) + 1) = false)
    by (apply Z.eqb_neq; lia).
  rewrite Hn. now rewrite orb_true_r.
Qed.

Lemma start_product id cl now force s :
  product (st (comp (start id cl now force s))) = product (st (comp s)).
Proof.
  unfold start, fetchProduct_begin. cbv zeta.
  destruct (negb (truthy id)); cbn [comp fst];
    repeat match goal with
           | |- context [safeSetState ?i ?u ?c] =>
               destruct (safeSetState_cases i u c) as [-> | (_ & _ & ->)];
               cbn [setState st product]
           end; reflexivity.
Qed.

Lemma catch_product p err c :
  product (st (fetchProduct_catch p err c)) = product (st c).
Proof.
  unfold fetchProduct_catch. destruct (isCancellation err); [reflexivity|].
  match goal with
  | |- context [safeSetState ?i ?u ?c] =>
      destruct (safeSetState_cases i u c) as [-> | (_ & _ & ->)]
  end; reflexivity.
Qed.

(** X28: the product on display changes in one way only.  Whatever
    the event, the product in the state is the one it was, unless the
    event is the settlement, with a truthy value, of the call that
    holds the latest token on a mounted component; loading, failures,
    cancellations and stale deliveries leave the previous product in
    place. *)
Theorem product_changes_only_on_delivery (e : event) (s : system) :
  product (st (comp (step e s))) = product (st (comp s))
  \/ exists k p v,
       e = Settle k (Return v)
       /\ nth_error (issued s) k = Some p
       /\ currentRequestId p = requestIdRef (comp s)
       /\ mountedRef (comp s) = true
       /\ truthy v = true
       /\ product (st (comp (step e s))) = v.
Proof.
  destruct e as [id now | now force | k r |]; cbn [step].
  - left. destruct (mountedRef (comp s)); [apply start_product | reflexivity].
  - left. apply start_product.
  - destruct (nth_error (issued s) k) as [p|] eqn:Hp; [|now left].
    cbn [comp]. unfold fetchProduct_resume.
    destruct r as [v|err]; [|left; apply catch_product].
    destruct (truthy v) eqn:Hv; cbn [negb]; [|left; apply catch_product].
    match goal with
    | |- context [safeSetState ?i ?u ?c] =>
        destruct (safeSetState_cases i u c) as [-> | (Hm & Ht & ->)]
    end; [now left|].
    right. exists k, p, v. now repeat split.
  - now left.
Qed.

(** *** From the service to the page: the price on display *)

Lemma assign_keeps (t : object) (key : jsstring) (v : value) k x :
  lookup k (own t) = Some x -> lookup k (own (assign t key v)) = Some x.
Proof.
  intros H. unfold assign.
  destruct (str_eqb key (js "__proto__") && _).
  - unfold setPrototypeOf. now destruct v.
  - unfold defineOwn. cbn [own]. now rewrite lookup_app, H.
Qed.

(** The copying loop never removes or replaces a field. *)
Lemma preserveFields_keeps (entries : list (jsstring * value)) :
  forall t t' k x,
    preserveFields entries t = Some t' ->
    lookup k (own t) = Some x -> lookup k (own t') = Some x.
Proof.
  induction entries as [|[key v] rest IH]; intros t t' k x; cbn [preserveFields].
  - now intros [= <-].
  - destruct (hasOwnPropertyCallable t); [|discriminate].
    destruct (negb (hasKey key (own t))); intros Hp Hl.
    + apply (IH _ _ _ _ Hp). now apply assign_keeps.
    + now apply (IH _ _ _ _ Hp).
Qed.

Lemma transformProductResponse_price (data : value) (t : object) :
  transformProductResponse data = Return t ->
  lookup (js "price") (own t)
  = Some (VString (transformPrice (getProperty data (js "price")))).
Proof.
  unfold transformProductResponse.
  destruct (negb (truthy data) || negb (jstype_eqb (typeof data) TObject)
            || Array_isArray data); [discriminate|].
  destruct (preserveFields _ _) as [t0|] eqn:Hp; [|discriminate].
  intros [= <-]. apply (preserveFields_keeps _ _ _ _ _ Hp). reflexivity.
Qed.

Lemma attemptOnce_price NODE_ENV (t : transport) (v : value) :
  attemptOnce NODE_ENV t = Return v ->
  exists fields,
    v = VObject fields
    /\ match lookup (js "price") fields with
       | Some (VString _) | None => True
       | Some _ => False
       end.
Proof.
  unfold attemptOnce.
  destruct (Api.get t) as [resp|e]; [|discriminate].
  destruct (status resp =? 304).
  { intros [= <-]. eexists. split; [reflexivity | exact I]. }
  destruct (validateResponse NODE_ENV (Some resp) false false) as [d|e];
    [|discriminate].
  destruct (negb (truthy d) || negb (jstype_eqb (typeof d) TObject));
    [discriminate|].
  destruct (transformProductResponse d) as [tp|e] eqn:Ht; [|discriminate].
  intros [= <-]. eexists. split; [reflexivity|].
  rewrite !lookup_setOwn.
  change (str_eqb (js "lastModified") (js "price")) with false.
  change (str_eqb (js "etag") (js "price")) with false.
  change (str_eqb (js "cached") (js "price")) with false.
  cbv iota. now rewrite (transformProductResponse_price d tp Ht).
Qed.

Lemma attemptLoop_returned NODE_ENV productId config signal retries retryDelay
      (script : list transport) :
  forall attempt calls lastError v,
    snd (attemptLoop NODE_ENV productId config signal retries retryDelay
                     script attempt calls lastError) = Returned v ->
    exists t, In t script /\ attemptOnce NODE_ENV t = Return v.
Proof.
  induction script as [|t rest IH]; intros attempt calls lastError v;
    cbn [attemptLoop]; cbv zeta;
    destruct (negb (leq (num attempt) (ToNumber retries)));
    try discriminate.
  destruct (attemptOnce NODE_ENV t) as [w|error] eqn:Hw.
  - cbn. intros [= <-]. exists t. split; [now left | exact Hw].
  - destruct (isAbortError error || aborted signal (S calls)); [discriminate|].
    destruct (negb _ || geq (num attempt) (ToNumber retries)); [discriminate|].
    specialize (IH (attempt + 1) (S calls) (Some error) v).
    destruct (attemptLoop NODE_ENV productId config signal retries retryDelay
                          rest (attempt + 1) (S calls) (Some error)).
    intros H. destruct (IH H) as (t' & Hin & Ht').
    exists t'. split; [now right | exact Ht'].
Qed.

(** X29: the price that the page shows.  The page prints the price
    only when [product.price] is a number, and ["0.00"] otherwise; the
    normalizer stores the price as a string.  So for every product
    that [getProductById] resolves with, whatever the options and
    whatever the transport answered, the page shows the price
    ["0.00"]. *)
Theorem displayed_price_is_zero
        (NODE_ENV productId : value) (options : options)
        (script : list transport) :
  match snd (getProductById NODE_ENV productId options script) with
  | Settled (Return product) => priceText product = js "0.00"
  | _ => True
  end.
Proof.
  unfold getProductById.
  destruct (negb (truthy productId)
            || negb (jstype_eqb (typeof productId) TString)); [exact I|].
  cbv zeta.
  match goal with
  | |- context [attemptLoop ?a ?b ?c ?d ?e ?f ?g ?h ?i ?j] =>
      pose proof (attemptLoop_returned a b c d e f g h i j) as Hr;
      destruct (attemptLoop a b c d e f g h i j) as [effects e']
  end.
  cbn [snd] in Hr.
  destruct e' as [v | x | lastError attempt |]; cbn [snd]; try exact I.
  - destruct (Hr v eq_refl) as (t & _ & Ht).
    destruct (attemptOnce_price NODE_ENV t v Ht) as (fields & -> & Hp).
    unfold priceText. cbn [getProperty].
    destruct (lookup (js "price") fields) as [[]|]; try reflexivity;
      contradiction.
  - now destruct (isAbortError x || aborted (opt_signal options) _).
  - now destruct (isAbortError (handleApiError lastError)
                  || aborted (opt_signal options) _).
Qed.

